(** * fits_to_xisf_batch: a shallow embedding of the batch converter

    The development follows [fits_to_xisf_batch.py]: the conversion worker
    [convert_fits_to_xisf], the tree enumeration and the result loop of
    [main].  The FITS decoder, the XISF encoder, the clock and the order in
    which futures complete are parameters; the file system is an explicit
    store keyed by resolved paths; every call into the environment is
    recorded in a trace. *)

From Stdlib Require Import ZArith Ascii String List Lia Bool Permutation.
From Stdlib Require Import Floats.PrimFloat Floats.FloatOps Floats.SpecFloat.
From stdpp Require Import base option list gmap strings.

Local Open Scope string_scope.
Local Open Scope Z_scope.

(** ** Python strings and [os.path] *)

Module PyStr.

(** [str.lower] on one character.  Only the letters A-Z are mapped: the
    result is used in [endswith(".fits")] alone, and no other character
    lowers to one of [. f i t s]. *)
Definition lower_char (c : ascii) : ascii :=
  let n := nat_of_ascii c in
  if ((65 <=? n) && (n <=? 90))%nat then ascii_of_nat (n + 32) else c.

Fixpoint lower (s : string) : string :=
  match s with
  | EmptyString => EmptyString
  | String c s' => String (lower_char c) (lower s')
  end.

(** [s.endswith(suf)] *)
Fixpoint endswith (s suf : string) : bool :=
  String.eqb s suf ||
  match s with
  | EmptyString => false
  | String _ s' => endswith s' suf
  end.

(** [s.startswith(pre)] *)
Fixpoint startswith (s pre : string) : bool :=
  match pre, s with
  | EmptyString, _ => true
  | String _ _, EmptyString => false
  | String a pre', String b s' => Ascii.eqb a b && startswith s' pre'
  end.

(** [sub in s] *)
Fixpoint contains (sub s : string) : bool :=
  startswith s sub ||
  match s with
  | EmptyString => false
  | String _ s' => contains sub s'
  end.

(** [s.rfind(c)] for a one-character [c]: the last index, or -1. *)
Fixpoint rfind (c : ascii) (s : string) : Z :=
  match s with
  | EmptyString => -1
  | String a s' =>
      let r := rfind c s' in
      if 0 <=? r then r + 1 else if Ascii.eqb a c then 0 else -1
  end.

(** Slices [s[:i]] and [s[i:]] for [0 <= i]. *)
Fixpoint take (i : nat) (s : string) : string :=
  match i, s with
  | O, _ => EmptyString
  | S _, EmptyString => EmptyString
  | S i', String a s' => String a (take i' s')
  end.

Fixpoint drop (i : nat) (s : string) : string :=
  match i, s with
  | O, _ => s
  | S _, EmptyString => EmptyString
  | S i', String _ s' => drop i' s'
  end.

Fixpoint all_dots (s : string) : bool :=
  match s with
  | EmptyString => true
  | String a s' => Ascii.eqb a "." && all_dots s'
  end.

(** [posixpath.splitext] ([genericpath._splitext] with [sep = "/"],
    no [altsep], [extsep = "."]): the extension starts at the last dot
    of the last component, unless only dots precede it there. *)
Definition splitext (p : string) : string * string :=
  let sepIndex := rfind "/" p in
  let dotIndex := rfind "." p in
  if sepIndex <? dotIndex then
    (* skip all leading dots *)
    let filenameIndex := Z.to_nat (sepIndex + 1) in
    if all_dots (take (Z.to_nat dotIndex - filenameIndex) (drop filenameIndex p))
    then (p, EmptyString)
    else (take (Z.to_nat dotIndex) p, drop (Z.to_nat dotIndex) p)
  else (p, EmptyString).

(** [posixpath.join(a, b)] *)
Definition join (a b : string) : string :=
  if startswith b "/" then b
  else if String.eqb a "" || endswith a "/" then a ++ b
  else a ++ "/" ++ b.

(** [s.split(c)] for a one-character separator. *)
Fixpoint split_on (c : ascii) (s : string) : list string :=
  match s with
  | EmptyString => [EmptyString]
  | String a s' =>
      if Ascii.eqb a c then EmptyString :: split_on c s'
      else match split_on c s' with
           | [] => [String a EmptyString]
           | w :: ws => String a w :: ws
           end
  end.

(** ["/".join(l)] *)
Fixpoint slash_join (l : list string) : string :=
  match l with
  | [] => EmptyString
  | [x] => x
  | x :: l' => x ++ "/" ++ slash_join l'
  end.

End PyStr.

(** ** Python dictionaries with string keys

    A [dict] keeps its keys in insertion order, and an assignment to a key
    that is already present replaces the value where the key stands. *)

Module PyDict.

Definition t (V : Type) : Type := list (string * V).

Definition empty {V} : t V := [].

(** [d[k] = v] *)
Fixpoint set {V} (k : string) (v : V) (d : t V) : t V :=
  match d with
  | [] => [(k, v)]
  | (k', v') :: d' =>
      if String.eqb k' k then (k', v) :: d' else (k', v') :: set k v d'
  end.

(** [d.get(k)] *)
Fixpoint get {V} (k : string) (d : t V) : option V :=
  match d with
  | [] => None
  | (k', v') :: d' => if String.eqb k' k then Some v' else get k d'
  end.

Definition keys {V} (d : t V) : list string := map fst d.

End PyDict.

(** ** NumPy arrays: a shape and a row-major buffer *)

Module Numpy.

Inductive pixel : Type :=
| PxInt (z : Z)
| PxFloat (f : float).

Record ndarray : Type := NdArray { shape : list nat; buffer : list pixel }.

Definition ndim (a : ndarray) : nat := length (shape a).

(** [a[..., np.newaxis]]: a view of the same buffer with one more axis,
    of length one, at the end.  On a two-dimensional array this is
    [a[:, :, np.newaxis]]. *)
Definition newaxis_last (a : ndarray) : ndarray :=
  {| shape := (shape a ++ [1%nat])%list; buffer := buffer a |}.



End Numpy.

(** ** The file system

    A store from resolved paths to nodes.  Paths are resolved lexically
    from the root, which is also the working directory: empty and ["."]
    components are dropped, [".."] steps back.  There are no symbolic
    links and no permissions. *)

Module Fs.

Abbreviation path := (list string).

Inductive node : Type :=
| File (content : string) (mtime : float)
| Dir (mtime : float).

Definition resolve_step (stk : path) (c : string) : path :=
  if String.eqb c "" || String.eqb c "." then stk
  else if String.eqb c ".." then removelast stk
  else (stk ++ [c])%list.

Definition resolve (p : string) : path :=
  fold_left resolve_step (PyStr.split_on "/" p) [].

Definition stat (fs : gmap path node) (p : string) : option node :=
  if String.eqb p "" then None
  else match resolve p with
       | [] => Some (Dir 0%float)
       | r => fs !! r
       end.

(** [os.path.exists] *)
Definition exists_ (fs : gmap path node) (p : string) : bool :=
  match stat fs p with Some _ => true | None => false end.

(** [os.path.isdir] *)
Definition isdir (fs : gmap path node) (p : string) : bool :=
  match stat fs p with Some (Dir _) => true | _ => false end.

Definition isfile (fs : gmap path node) (p : string) : bool :=
  match stat fs p with Some (File _ _) => true | _ => false end.

(** [os.makedirs(p, exist_ok=True)] on a resolved path: every missing
    prefix becomes a directory; a prefix that is a file stops the call,
    the directories made so far stay. *)
Fixpoint mkdir_p (now : float) (pre rest : path) (fs : gmap path node)
  : gmap path node * bool :=
  match rest with
  | [] => (fs, true)
  | c :: rest' =>
      let p := (pre ++ [c])%list in
      match fs !! p with
      | Some (File _ _) => (fs, false)
      | Some (Dir _) => mkdir_p now p rest' fs
      | None => mkdir_p now p rest' (<[p := Dir now]> fs)
      end
  end.

(** [os.path.basename] *)
Definition basename (p : string) : string :=
  PyStr.drop (Z.to_nat (PyStr.rfind "/" p + 1)) p.

(** The file [shutil.copy2(src, dst)] writes: inside [dst] when [dst] is
    a directory. *)
Definition copy_target (fs : gmap path node) (src dst : string) : string :=
  if isdir fs dst then PyStr.join dst (basename src) else dst.

(** The directory a resolved path lies in is there. *)
Definition parent_is_dir (fs : gmap path node) (r : path) : bool :=
  match removelast r with
  | [] => true
  | q => match fs !! q with Some (Dir _) => true | _ => false end
  end.

(** [shutil.copy2]: bytes and modification time are copied; [None] is an
    [OSError] ([SameFileError], a missing or non-regular source, a target
    that cannot be opened), which leaves the store as it was. *)
Definition copy2 (fs : gmap path node) (src dst : string) : option (gmap path node) :=
  let target := copy_target fs src dst in
  match stat fs src with
  | Some (File c m) =>
      if bool_decide (resolve src = resolve target) then None
      else if isdir fs target then None
      else if String.eqb target "" then None
      else if parent_is_dir fs (resolve target)
           then Some (<[resolve target := File c m]> fs)
           else None
  | _ => None
  end.

(** The store without the file at [p], as [os.remove] leaves it when the
    system lets the call through; [None] when there is no regular file to
    remove (no such file, or a directory). *)
Definition remove (fs : gmap path node) (p : string) : option (gmap path node) :=
  match stat fs p with
  | Some (File _ _) => Some (base.delete (resolve p) fs)
  | _ => None
  end.

(** [os.path.getmtime]: [None] is an [OSError]. *)
Definition getmtime (fs : gmap path node) (p : string) : option float :=
  match stat fs p with
  | Some (File _ m) => Some m
  | Some (Dir m) => Some m
  | None => None
  end.

(** What is left of two resolved paths after their common prefix. *)
Fixpoint strip_common (a b : path) : path * path :=
  match a, b with
  | x :: a', y :: b' => if String.eqb x y then strip_common a' b' else (a, b)
  | _, _ => (a, b)
  end.

(** [os.path.relpath(p, start)], both taken from the root: as many [..]
    as [start] has names of its own, then the names of [p]. *)
Definition relpath (p start : string) : string :=
  let '(up, down) := strip_common (resolve start) (resolve p) in
  match (repeat ".." (length up) ++ down)%list with
  | [] => "."
  | rel_list => PyStr.slash_join rel_list
  end.

End Fs.

(** ** Exceptions, events and the monad of the program *)

Inductive exn_class : Type := OSError | OtherException | SystemExit.

(** An exception: its class, as far as the handlers of the program tell
    classes apart, and [str(e)]. *)
Record exn : Type := Exn { exn_cls : exn_class; exn_str : string }.

(** [except Exception] *)
Definition is_Exception (e : exn) : bool :=
  match exn_cls e with SystemExit => false | _ => true end.

(** [except OSError] *)
Definition is_OSError (e : exn) : bool :=
  match exn_cls e with OSError => true | _ => false end.

Inductive res (A : Type) : Type :=
| Ret (a : A)
| Raise (e : exn).
Arguments Ret {A} a.
Arguments Raise {A} e.

(** One entry of [FITSKeywords]: [{"value": val, "comment": comment}]. *)
Record keyword : Type := Keyword { value : string; comment : string }.

(** The arguments of one call of [XISF.write]; a keyword argument that is
    not passed is [None]. *)
Record xisf_args : Type := XisfArgs {
  xa_path : string;
  xa_data : Numpy.ndarray;
  xa_creator_app : string;
  xa_image_metadata : option (PyDict.t (PyDict.t (list keyword)));
  xa_xisf_metadata : option (PyDict.t string);
  xa_codec : string;
  xa_shuffle : bool;
  xa_level : Z
}.

(** The lines [main] prints. *)
Inductive message : Type :=
| MsgNotAFolder (input_dir : string)
| MsgSkipping (src : string)
| MsgConverting (n : nat) (workers : Z)
| MsgConverted (src dst : string) (nbytes : Z) (used_codec : string)
| MsgAgeCheckFailed (src : string) (err : string)
| MsgDeleted (src : string)
| MsgDeleteFailed (src : string) (err : string)
| MsgTooRecent (src : string)
| MsgFailed (src : string) (err : string).

(** The calls into the environment, in the order they are made. *)
Inductive event : Type :=
| EvIsdir (p : string)
| EvMakedirs (p : string)
| EvExists (p : string)
| EvCopy2 (src dst : string)
| EvSubmit (src dst : string)
| EvGetdata (p : string)
| EvGetheader (p : string)
| EvXisfWrite (a : xisf_args)
| EvGetmtime (p : string)
| EvTime (t : float)
| EvRemove (p : string)
| EvPrint (m : message).

(** The world of a run: the store, the number of the next reading of the
    clock, and the paths the system refuses to unlink (a file the user may
    not delete, a read-only file system); these do not change in a run. *)
Record world : Type := World {
  w_fs : gmap Fs.path Fs.node;
  w_tick : nat;
  w_protected : gset Fs.path
}.

(** A computation changes the world, emits events, and returns or raises;
    what it did before raising stays done. *)
Definition M (A : Type) : Type := world -> res A * world * list event.

Definition ret {A} (a : A) : M A := fun w => (Ret a, w, []).

Definition raise {A} (e : exn) : M A := fun w => (Raise e, w, []).

Definition bind {A B} (m : M A) (k : A -> M B) : M B :=
  fun w =>
    match m w with
    | (Ret a, w1, t1) => let '(r, w2, t2) := k a w1 in (r, w2, (t1 ++ t2)%list)
    | (Raise e, w1, t1) => (Raise e, w1, t1)
    end.

Notation "'let*' x := m 'in' k" := (bind m (fun x => k))
  (at level 10, x name, m at level 100, k at level 200).
Notation "'let*' ' p := m 'in' k" := (bind m (fun x => match x with p => k end))
  (at level 10, p pattern, m at level 100, k at level 200).
Notation "m ;; k" := (bind m (fun _ => k))
  (at level 100, k at level 200, right associativity).

Definition emit (ev : event) : M unit := fun w => (Ret tt, w, [ev]).

Definition print (m : message) : M unit := emit (EvPrint m).

(** [try: body  except <class> as e: handler e] *)
Definition try_except {A} (catches : exn -> bool) (body : M A) (handler : exn -> M A) : M A :=
  fun w =>
    match body w with
    | (Ret a, w1, t1) => (Ret a, w1, t1)
    | (Raise e, w1, t1) =>
        if catches e then let '(r, w2, t2) := handler e w1 in (r, w2, (t1 ++ t2)%list)
        else (Raise e, w1, t1)
    end.

(** [for x in l: acc = body acc x] *)
Fixpoint foldM {A B} (body : B -> A -> M B) (acc : B) (l : list A) : M B :=
  match l with
  | [] => ret acc
  | x :: l' => let* acc' := body acc x in foldM body acc' l'
  end.

(** [for x in l: body x] *)
Fixpoint forM_ {A} (body : A -> M unit) (l : list A) : M unit :=
  match l with
  | [] => ret tt
  | x :: l' => body x ;; forM_ body l'
  end.

Definition os_error (what p : string) : exn :=
  Exn OSError (what ++ ": '" ++ p ++ "'").

(** ** The directory tree [os.walk] reports *)

#[warnings="-register-all"]
Inductive tree : Type :=
| Node (files : list string) (dirs : list (string * tree)).

(** [os.walk(top)], top-down: each directory with the names of its
    subdirectories and of its files, then its subdirectories in turn. *)
Fixpoint walk (top : string) (t : tree) : list (string * list string * list string) :=
  match t with
  | Node files dirs =>
      (top, map fst dirs, files)
        :: flat_map (fun d => walk (PyStr.join top (fst d)) (snd d)) dirs
  end.

(** ** Comparing a float with an integer

    Python compares the exact values: the float is not rounded to an
    integer and the integer is not rounded to a float. *)
Definition float_ge_int (f : float) (n : Z) : bool :=
  match Prim2SF f with
  | S754_nan => false
  | S754_infinity neg => negb neg
  | S754_zero _ => n <=? 0
  | S754_finite neg m e =>
      let sm := if neg then Z.neg m else Z.pos m in
      if 0 <=? e then n <=? sm * 2 ^ e
      else n * 2 ^ (- e) <=? sm
  end.

(** [(now - file_mtime) / (24 * 3600)] in binary64 *)
Definition file_age_days (now file_mtime : float) : float :=
  PrimFloat.div (PrimFloat.sub now file_mtime) 86400%float.

Record config : Type := Config {
  input_dir : string;
  output_dir : string;
  codec : string;
  shuffle : bool;
  level : Z;
  creator : string;
  workers : Z;
  skip_existing : bool;
  delete_older_than_days : Z
}.

(** ** The program *)

Section Program.

(** The FITS decoder ([astropy.io.fits]): the pixel array and the header
    of a file, from its bytes. *)
Variable header : Type.
Variable hvalue : Type.
Variable fits_decode_data : string -> res Numpy.ndarray.
Variable fits_decode_header : string -> res header.
(** [for key in header], [header[key]], [str(v)],
    [key in header.comments], [header.comments[key]] *)
Variable header_keys : header -> list string.
Variable header_getitem : header -> string -> hvalue.
Variable py_str : hvalue -> string.
Variable comments_contains : header -> string -> bool.
Variable comments_getitem : header -> string -> string.

(** The XISF encoder: [XISF.write], which returns
    [(bytes_written, codec)] or raises, and may change the store. *)
Variable XISF_write :
  xisf_args -> gmap Fs.path Fs.node -> res (Z * string) * gmap Fs.path Fs.node.

(** [time.time()] at its n-th reading. *)
Variable time_at : nat -> float.

(** The order in which [as_completed] hands out the futures. *)
Variable as_completed : list (string * string) -> list (string * string).

(** *** Calls into the environment *)

Definition time_time : M float :=
  fun w =>
    let t := time_at (w_tick w) in
    (Ret t, {| w_fs := w_fs w; w_tick := S (w_tick w); w_protected := w_protected w |},
     [EvTime t]).

Definition os_path_isdir (p : string) : M bool :=
  fun w => (Ret (Fs.isdir (w_fs w) p), w, [EvIsdir p]).

Definition os_path_exists (p : string) : M bool :=
  fun w => (Ret (Fs.exists_ (w_fs w) p), w, [EvExists p]).

Definition os_makedirs (p : string) : M unit :=
  fun w =>
    if String.eqb p "" then (Raise (os_error "[Errno 2] No such file or directory" p), w, [EvMakedirs p])
    else
      let '(fs', ok) := Fs.mkdir_p (time_at (w_tick w)) [] (Fs.resolve p) (w_fs w) in
      let w' := {| w_fs := fs'; w_tick := w_tick w; w_protected := w_protected w |} in
      if ok then (Ret tt, w', [EvMakedirs p])
      else (Raise (os_error "[Errno 17] File exists" p), w', [EvMakedirs p]).

Definition shutil_copy2 (src dst : string) : M unit :=
  fun w =>
    match Fs.copy2 (w_fs w) src dst with
    | Some fs' =>
        (Ret tt, {| w_fs := fs'; w_tick := w_tick w; w_protected := w_protected w |},
         [EvCopy2 src dst])
    | None => (Raise (os_error "[Errno 2] No such file or directory" src), w, [EvCopy2 src dst])
    end.

Definition os_path_getmtime (p : string) : M float :=
  fun w =>
    match Fs.getmtime (w_fs w) p with
    | Some m => (Ret m, w, [EvGetmtime p])
    | None => (Raise (os_error "[Errno 2] No such file or directory" p), w, [EvGetmtime p])
    end.

Definition os_remove (p : string) : M unit :=
  fun w =>
    match Fs.remove (w_fs w) p with
    | Some fs' =>
        if bool_decide (Fs.resolve p ∈ w_protected w)
        then (Raise (os_error "[Errno 13] Permission denied" p), w, [EvRemove p])
        else (Ret tt, {| w_fs := fs'; w_tick := w_tick w; w_protected := w_protected w |},
              [EvRemove p])
    | None => (Raise (os_error "[Errno 2] No such file or directory" p), w, [EvRemove p])
    end.

Definition read_file (p : string) : M string :=
  fun w =>
    match Fs.stat (w_fs w) p with
    | Some (Fs.File c _) => (Ret c, w, [])
    | _ => (Raise (os_error "[Errno 2] No such file or directory" p), w, [])
    end.

Definition lift_res {A} (r : res A) : M A := fun w => (r, w, []).

(** [fits.getdata(path)] *)
Definition fits_getdata (p : string) : M Numpy.ndarray :=
  emit (EvGetdata p) ;;
  let* c := read_file p in
  lift_res (fits_decode_data c).

(** [fits.getheader(path)] *)
Definition fits_getheader (p : string) : M header :=
  emit (EvGetheader p) ;;
  let* c := read_file p in
  lift_res (fits_decode_header c).

Definition XISF_write_call (a : xisf_args) : M (Z * string) :=
  fun w =>
    let '(r, fs') := XISF_write a (w_fs w) in
    (r, {| w_fs := fs'; w_tick := w_tick w; w_protected := w_protected w |},
     [EvXisfWrite a]).

(** *** [convert_fits_to_xisf] *)

(** The loop that builds the string-only [FITSKeywords]. *)
Definition build_fits_keywords (h : header) : PyDict.t (list keyword) :=
  fold_left
    (fun fits_keywords key =>
       let val := py_str (header_getitem h key) in
       let comment := if comments_contains h key then comments_getitem h key else "" in
       PyDict.set key [{| value := val; comment := comment |}] fits_keywords)
    (header_keys h) PyDict.empty.

(** The entry the loop stores under [key]. *)
Definition keyword_of (h : header) (key : string) : keyword :=
  {| value := py_str (header_getitem h key);
     comment := if comments_contains h key then comments_getitem h key else "" |}.

(** If grayscale (2D), add channel axis. *)
Definition add_channel_axis (data : Numpy.ndarray) : Numpy.ndarray :=
  if Nat.eqb (Numpy.ndim data) 2 then Numpy.newaxis_last data else data.

Definition convert_fits_to_xisf
    (fits_path xisf_path codec : string) (shuffle : bool) (level : Z) (creator_app : string)
  : M (Z * string) :=
  let* data := fits_getdata fits_path in
  let* header := fits_getheader fits_path in
  let data := add_channel_axis data in
  let fits_keywords := build_fits_keywords header in
  let image_metadata := PyDict.set "FITSKeywords" fits_keywords PyDict.empty in
  try_except is_Exception
    (XISF_write_call
       {| xa_path := xisf_path; xa_data := data; xa_creator_app := creator_app;
          xa_image_metadata := Some image_metadata; xa_xisf_metadata := Some PyDict.empty;
          xa_codec := codec; xa_shuffle := shuffle; xa_level := level |})
    (fun e =>
       let msg := exn_str e in
       if PyStr.contains "tuple index out of range" msg then
         (* fallback without metadata *)
         XISF_write_call
           {| xa_path := xisf_path; xa_data := data; xa_creator_app := creator_app;
              xa_image_metadata := None; xa_xisf_metadata := None;
              xa_codec := codec; xa_shuffle := shuffle; xa_level := level |}
       else raise e).

(** *** [main]: the enumeration *)

Definition is_fits (fn : string) : bool := PyStr.endswith (PyStr.lower fn) ".fits".

Definition xisf_name (p : string) : string := fst (PyStr.splitext p) ++ ".xisf".

(** The body of [for fn in files]. *)
Definition enumerate_file (cfg : config) (root dest_root : string)
    (fits_tasks : list (string * string)) (fn : string) : M (list (string * string)) :=
  let src := PyStr.join root fn in
  if is_fits fn then
    let dst := xisf_name (PyStr.join dest_root fn) in
    let* ex := os_path_exists dst in
    if ex && skip_existing cfg then
      print (MsgSkipping src) ;;
      ret fits_tasks
    else ret (fits_tasks ++ [(src, dst)])%list
  else
    (* copy everything else *)
    shutil_copy2 src (PyStr.join dest_root fn) ;;
    ret fits_tasks.

(** The body of [for root, dirs, files in os.walk(input_dir)]. *)
Definition enumerate_dir (cfg : config) (fits_tasks : list (string * string))
    (entry : string * list string * list string) : M (list (string * string)) :=
  let '(root, _, files) := entry in
  let rel := Fs.relpath root (input_dir cfg) in
  let dest_root := PyStr.join (output_dir cfg) rel in
  os_makedirs dest_root ;;
  foldM (enumerate_file cfg root dest_root) fits_tasks files.

Definition enumerate (cfg : config) (t : tree) : M (list (string * string)) :=
  foldM (enumerate_dir cfg) [] (walk (input_dir cfg) t).

(** *** [main]: the results *)

(** Delete original FITS file if configured to do so. *)
Definition retire (cfg : config) (src : string) : M unit :=
  let days := delete_older_than_days cfg in
  if negb (days =? -1) then
    let* should_delete :=
      if days =? 0 then ret true
      else
        try_except is_OSError
          (let* file_mtime := os_path_getmtime src in
           let* now := time_time in
           let file_age_days := file_age_days now file_mtime in
           ret (float_ge_int file_age_days days))
          (fun e =>
             print (MsgAgeCheckFailed src (exn_str e)) ;;
             ret false) in
    if should_delete then
      try_except is_OSError
        (os_remove src ;;
         print (MsgDeleted src))
        (fun e => print (MsgDeleteFailed src (exn_str e)))
    else
      if 0 <? days then print (MsgTooRecent src) else ret tt
  else ret tt.

(** The body of [for fut in as_completed(futures)]; [fut.result()] is the
    worker's run of the task, taken at the point where the result is
    read. *)
Definition handle_future (cfg : config) (task : string * string) : M unit :=
  let '(src, dst) := task in
  try_except is_Exception
    (let* '(nbytes, used_codec) :=
       convert_fits_to_xisf src dst (codec cfg) (shuffle cfg) (level cfg) (creator cfg) in
     print (MsgConverted src dst nbytes used_codec) ;;
     retire cfg src)
    (fun e => print (MsgFailed src (exn_str e))).

Definition run_pool (cfg : config) (fits_tasks : list (string * string)) : M unit :=
  if workers cfg <=? 0 then
    raise (Exn OtherException "max_workers must be greater than 0")
  else
    forM_ (fun task => emit (EvSubmit (fst task) (snd task))) fits_tasks ;;
    forM_ (handle_future cfg) (as_completed fits_tasks).

Definition main (cfg : config) (t : tree) : M unit :=
  let* ok := os_path_isdir (input_dir cfg) in
  if negb ok then
    print (MsgNotAFolder (input_dir cfg)) ;;
    raise (Exn SystemExit "1")
  else
    os_makedirs (output_dir cfg) ;;
    let* fits_tasks := enumerate cfg t in
    print (MsgConverting (length fits_tasks) (workers cfg)) ;;
    run_pool cfg fits_tasks.

End Program.

Arguments keyword_of {header hvalue}.
Arguments build_fits_keywords {header hvalue}.
Arguments fits_getheader {header}.
Arguments convert_fits_to_xisf {header hvalue}.
Arguments handle_future {header hvalue}.
Arguments run_pool {header hvalue}.
Arguments main {header hvalue}.

(** The text [sub] stands somewhere in [s]. *)
Definition occurs_in (sub s : string) : Prop :=
  exists before after, s = before ++ sub ++ after.

(** The check of line 44: the failure the worker answers by writing
    again without metadata. *)
Definition metadata_shape_rejected (e : exn) : bool :=
  is_Exception e && PyStr.contains "tuple index out of range" (exn_str e).

Definition is_write (ev : event) : bool :=
  match ev with EvXisfWrite _ => true | _ => false end.

Definition is_remove (ev : event) : bool :=
  match ev with EvRemove _ => true | _ => false end.

Definition is_copy (ev : event) : bool :=
  match ev with EvCopy2 _ _ => true | _ => false end.

(** The events of the worker pool: a submission, or a call a worker makes. *)
Definition is_pool_event (ev : event) : bool :=
  match ev with
  | EvSubmit _ _ | EvGetdata _ | EvGetheader _ | EvXisfWrite _ => true
  | _ => false
  end.

(** The two lines that report the outcome of a task. *)
Definition is_outcome (ev : event) : bool :=
  match ev with
  | EvPrint (MsgConverted _ _ _ _) | EvPrint (MsgFailed _ _) => true
  | _ => false
  end.

Definition with_fs (w : world) (fs : gmap Fs.path Fs.node) : world :=
  {| w_fs := fs; w_tick := w_tick w; w_protected := w_protected w |}.

(** The arguments of the first call of [XISF.write] and of the fallback. *)
Definition args_with_metadata (xisf_path : string) (data : Numpy.ndarray)
    (fits_keywords : PyDict.t (list keyword))
    (codec : string) (shuffle : bool) (level : Z) (creator_app : string) : xisf_args :=
  {| xa_path := xisf_path; xa_data := data; xa_creator_app := creator_app;
     xa_image_metadata := Some (PyDict.set "FITSKeywords" fits_keywords PyDict.empty);
     xa_xisf_metadata := Some PyDict.empty;
     xa_codec := codec; xa_shuffle := shuffle; xa_level := level |}.

Definition args_without_metadata (xisf_path : string) (data : Numpy.ndarray)
    (codec : string) (shuffle : bool) (level : Z) (creator_app : string) : xisf_args :=
  {| xa_path := xisf_path; xa_data := data; xa_creator_app := creator_app;
     xa_image_metadata := None; xa_xisf_metadata := None;
     xa_codec := codec; xa_shuffle := shuffle; xa_level := level |}.

(** What the two writes of a conversion do, once the file is decoded:
    [pre] is the trace so far. *)
Definition write_with_fallback
    (XISF_write : xisf_args -> gmap Fs.path Fs.node -> res (Z * string) * gmap Fs.path Fs.node)
    (a1 a2 : xisf_args) (w : world) (pre : list event)
  : res (Z * string) * world * list event :=
  match XISF_write a1 (w_fs w) with
  | (Ret x, fs1) => (Ret x, with_fs w fs1, pre ++ [EvXisfWrite a1])
  | (Raise e, fs1) =>
      if metadata_shape_rejected e then
        let '(r2, fs2) := XISF_write a2 fs1 in
        (r2, with_fs w fs2, pre ++ [EvXisfWrite a1; EvXisfWrite a2])
      else (Raise e, with_fs w fs1, pre ++ [EvXisfWrite a1])
  end%list.

(** The store after a call of [os.remove] that the system let through. *)
Definition after_remove (fs : gmap Fs.path Fs.node) (p : string) : gmap Fs.path Fs.node :=
  match Fs.remove fs p with Some fs' => fs' | None => fs end.

(** What [os.remove(p)] does in [w]: the store it leaves when it goes
    through, [None] when it raises, which leaves the store as it was. *)
Definition unlink (w : world) (p : string) : option (gmap Fs.path Fs.node) :=
  match Fs.remove (w_fs w) p with
  | Some fs' => if bool_decide (Fs.resolve p ∈ w_protected w) then None else Some fs'
  | None => None
  end.

(** The [OSError] of a call of [os.remove] that raises. *)
Definition remove_error (w : world) (p : string) : exn :=
  match Fs.remove (w_fs w) p with
  | Some _ => os_error "[Errno 13] Permission denied" p
  | None => os_error "[Errno 2] No such file or directory" p
  end.

(** What [os.remove(src)] inside its [try] does, and what is printed. *)
Definition remove_step (src : string) (w : world) (pre : list event)
  : res unit * world * list event :=
  match unlink w src with
  | Some fs' => (Ret tt, with_fs w fs', pre ++ [EvRemove src; EvPrint (MsgDeleted src)])
  | None =>
      (Ret tt, w,
       pre ++ [EvRemove src; EvPrint (MsgDeleteFailed src (exn_str (remove_error w src)))])
  end%list.

Definition tick (w : world) : world :=
  {| w_fs := w_fs w; w_tick := S (w_tick w); w_protected := w_protected w |}.

(** [os.remove(p)] goes through in [w]: a regular file stands at [p] and
    the system does not refuse to unlink it. *)
Definition removable (w : world) (p : string) : bool :=
  Fs.isfile (w_fs w) p && negb (bool_decide (Fs.resolve p ∈ w_protected w)).

(** [os.remove(src)] was called between [w1] and [w2], with trace [tr].
    When the call goes through, the file is gone from the store and the
    deletion is reported; when it raises, the store is as it was and the
    failure of the deletion is reported. *)
Definition remove_called (src : string) (w1 w2 : world) (tr : list event) : Prop :=
  In (EvRemove src) tr
  /\ if removable w1 src
     then w_fs w2 = base.delete (Fs.resolve src) (w_fs w1)
          /\ Fs.isfile (w_fs w2) src = false
          /\ In (EvPrint (MsgDeleted src)) tr
     else w_fs w2 = w_fs w1
          /\ exists err, In (EvPrint (MsgDeleteFailed src err)) tr.

(** Every call of [os.remove] in a trace comes after the line that reports
    the conversion of that very source. *)
Definition removes_follow_success (tr : list event) : Prop :=
  forall tr1 p tr2,
    tr = (tr1 ++ EvRemove p :: tr2)%list ->
    exists dst nbytes used_codec, In (EvPrint (MsgConverted p dst nbytes used_codec)) tr1.

(** The events of the enumeration. *)
Definition is_enum_event (ev : event) : bool :=
  match ev with
  | EvMakedirs _ | EvExists _ | EvCopy2 _ _ | EvPrint (MsgSkipping _) => true
  | _ => false
  end.

(** [fs'] has everything [fs] has: no entry is gone, and a directory is
    still a directory. *)
Definition grows (fs fs' : gmap Fs.path Fs.node) : Prop :=
  forall r,
    match fs !! r with
    | Some (Fs.Dir _) => exists m, fs' !! r = Some (Fs.Dir m)
    | Some (Fs.File _ _) => is_Some (fs' !! r)
    | None => True
    end.

(** The directory into which the files of [root] are mirrored. *)
Definition dest_root_of (cfg : config) (root : string) : string :=
  PyStr.join (output_dir cfg) (Fs.relpath root (input_dir cfg)).

(** [ev] is a step the enumeration takes for the file [fn] of [root]. *)
Definition file_event (cfg : config) (root fn : string) (ev : event) : Prop :=
  ev = EvExists (xisf_name (PyStr.join (dest_root_of cfg root) fn))
  \/ ev = EvPrint (MsgSkipping (PyStr.join root fn))
  \/ ev = EvCopy2 (PyStr.join root fn) (PyStr.join (dest_root_of cfg root) fn).

(** In a trace of the enumeration over [entries], whatever is done for a
    file comes after the [os.makedirs] of the mirror of its directory. *)
Definition mirror_made_first (cfg : config)
    (entries : list (string * list string * list string)) (tr : list event) : Prop :=
  forall tr1 ev tr2,
    tr = (tr1 ++ ev :: tr2)%list ->
    (forall p, ev <> EvMakedirs p) ->
    exists root dirs files fn,
      In (root, dirs, files) entries /\ In fn files
      /\ file_event cfg root fn ev
      /\ In (EvMakedirs (dest_root_of cfg root)) tr1.

(** The events of the retirement of one source. *)
Definition is_retire_event (ev : event) : bool :=
  match ev with
  | EvGetmtime _ | EvTime _ | EvRemove _ => true
  | EvPrint (MsgAgeCheckFailed _ _) | EvPrint (MsgDeleted _)
  | EvPrint (MsgDeleteFailed _ _) | EvPrint (MsgTooRecent _) => true
  | _ => false
  end.

(** The events of the parallel phase. *)
Definition is_result_event (ev : event) : bool :=
  is_pool_event ev || is_retire_event ev || is_outcome ev.

(** ** Names and trees as a file system has them *)

(** [c in s] for a character. *)
Fixpoint has_char (c : ascii) (s : string) : bool :=
  match s with
  | EmptyString => false
  | String a s' => Ascii.eqb a c || has_char c s'
  end.

(** A name a directory can hold: not empty, not [.] or [..], no slash. *)
Definition valid_name (n : string) : bool :=
  negb (has_char "/" n) && negb (String.eqb n "") && negb (String.eqb n ".")
  && negb (String.eqb n "..").

(** What [posixpath.join(a, b)] puts before [b] when [b] is relative. *)
Definition join_prefix (a : string) : string :=
  if String.eqb a "" || PyStr.endswith a "/" then a else a ++ "/".

(** The names of a directory are valid, no two files and no two
    subdirectories have the same name, and so on below. *)
Fixpoint tree_wf (t : tree) : Prop :=
  match t with
  | Node files dirs =>
      Forall (fun fn => valid_name fn = true) files
      /\ NoDup files
      /\ Forall (fun d => valid_name (fst d) = true) dirs
      /\ NoDup (map fst dirs)
      /\ (fix all (l : list (string * tree)) : Prop :=
            match l with
            | [] => True
            | d :: l' => tree_wf (snd d) /\ all l'
            end) dirs
  end.

(** No directory holds two convertible files that [xisf_name] sends to
    the same name. *)
Fixpoint stems_distinct (t : tree) : Prop :=
  match t with
  | Node files dirs =>
      NoDup (map xisf_name (filter is_fits files))
      /\ (fix all (l : list (string * tree)) : Prop :=
            match l with
            | [] => True
            | d :: l' => stems_distinct (snd d) /\ all l'
            end) dirs
  end.

(** [os.walk] by the names below the top: for each directory the list of
    directory names that leads to it, and its files. *)
Fixpoint walk_rel (rel : list string) (t : tree) : list (list string * list string) :=
  match t with
  | Node files dirs =>
      (rel, files) :: flat_map (fun d => walk_rel (rel ++ [fst d]) (snd d)) dirs
  end.

(** Every task the enumeration can make from what [os.walk] reported. *)
Definition all_tasks (cfg : config) (entries : list (string * list string * list string))
  : list (string * string) :=
  flat_map
    (fun entry =>
       map (fun fn => (PyStr.join (fst (fst entry)) fn,
                       xisf_name (PyStr.join (dest_root_of cfg (fst (fst entry))) fn)))
           (filter is_fits (snd entry)))
    entries.

(** The resolved destinations of the tasks of [ers], directories given
    by their names below the top, under the resolved output directory
    [base]. *)
Definition keys_of (base : list string) (ers : list (list string * list string))
  : list (list string) :=
  flat_map
    (fun er => map (fun fn => (base ++ fst er ++ [xisf_name fn])%list)
                   (filter is_fits (snd er)))
    ers.

(** Resolved paths whose last name is the name of a destination, and of
    a convertible source. *)
Definition xisf_key (r : list string) : Prop :=
  exists pre fn, r = (pre ++ [xisf_name fn])%list.

Definition fits_key (r : list string) : Prop :=
  exists pre fn, is_fits fn = true /\ r = (pre ++ [fn])%list.

(** No destination is lost from [fs] to [fs']. *)
Definition keeps_xisf (fs fs' : gmap Fs.path Fs.node) : Prop :=
  forall r, xisf_key r -> is_Some (fs !! r) -> is_Some (fs' !! r).


(** The float is a number, or infinite, and is not below zero. *)
Definition float_nonneg (f : float) : bool :=
  match Prim2SF f with
  | S754_nan => false
  | S754_infinity neg => negb neg
  | S754_zero _ => true
  | S754_finite neg _ _ => negb neg
  end.


(** The line that reports a convertible file as skipped. *)
Definition is_skip (ev : event) : bool :=
  match ev with EvPrint (MsgSkipping _) => true | _ => false end.

(** Whatever stands in [fs] under a convertible name stands in [fs'],
    unchanged. *)
Definition keeps_convertible (fs fs' : gmap Fs.path Fs.node) : Prop :=
  forall r n, fits_key r -> fs !! r = Some n -> fs' !! r = Some n.



(** A call of the encoder carries the codec, the shuffle flag, the level
    and the creator of the settings, and writes to one of [dsts]. *)
Definition write_as_configured (cfg : config) (dsts : list string) (ev : event) : Prop :=
  match ev with
  | EvXisfWrite a =>
      xa_codec a = codec cfg /\ xa_shuffle a = shuffle cfg /\ xa_level a = level cfg
      /\ xa_creator_app a = creator cfg /\ In (xa_path a) dsts
  | _ => True
  end.

(** A call of the encoder carries the values the settings take when
    nothing is said: [zlib], shuffling, level 6, the name of the script. *)
Definition write_with_defaults (script_name : string) (ev : event) : Prop :=
  match ev with
  | EvXisfWrite a =>
      xa_codec a = "zlib" /\ xa_shuffle a = true /\ xa_level a = 6
      /\ xa_creator_app a = script_name
  | _ => True
  end.

(** ** The program when a line may fail to print

    [print] raises when standard output refuses the line: the pipe is
    closed, or the terminal cannot encode a character of it.
    [stdout_error m] is then the exception, [None] when the line is
    printed.  What follows are the definitions of [main] above, line by
    line, with this [print]; with a standard output that takes every line
    they are the same. *)

Module Stdout.

Section Program.

Context {header hvalue : Type}.
Variable fits_decode_data : string -> res Numpy.ndarray.
Variable fits_decode_header : string -> res header.
Variable header_keys : header -> list string.
Variable header_getitem : header -> string -> hvalue.
Variable py_str : hvalue -> string.
Variable comments_contains : header -> string -> bool.
Variable comments_getitem : header -> string -> string.
Variable XISF_write :
  xisf_args -> gmap Fs.path Fs.node -> res (Z * string) * gmap Fs.path Fs.node.
Variable time_at : nat -> float.
Variable as_completed : list (string * string) -> list (string * string).
Variable stdout_error : message -> option exn.

Definition print (m : message) : M unit :=
  fun w =>
    match stdout_error m with
    | None => (Ret tt, w, [EvPrint m])
    | Some e => (Raise e, w, [])
    end.

(** The body of [for fn in files]. *)
Definition enumerate_file (cfg : config) (root dest_root : string)
    (fits_tasks : list (string * string)) (fn : string) : M (list (string * string)) :=
  let src := PyStr.join root fn in
  if is_fits fn then
    let dst := xisf_name (PyStr.join dest_root fn) in
    let* ex := os_path_exists dst in
    if ex && skip_existing cfg then
      print (MsgSkipping src) ;;
      ret fits_tasks
    else ret (fits_tasks ++ [(src, dst)])%list
  else
    (* copy everything else *)
    shutil_copy2 src (PyStr.join dest_root fn) ;;
    ret fits_tasks.

(** The body of [for root, dirs, files in os.walk(input_dir)]. *)
Definition enumerate_dir (cfg : config) (fits_tasks : list (string * string))
    (entry : string * list string * list string) : M (list (string * string)) :=
  let '(root, _, files) := entry in
  let rel := Fs.relpath root (input_dir cfg) in
  let dest_root := PyStr.join (output_dir cfg) rel in
  os_makedirs time_at dest_root ;;
  foldM (enumerate_file cfg root dest_root) fits_tasks files.

Definition enumerate (cfg : config) (t : tree) : M (list (string * string)) :=
  foldM (enumerate_dir cfg) [] (walk (input_dir cfg) t).

(** Delete original FITS file if configured to do so. *)
Definition retire (cfg : config) (src : string) : M unit :=
  let days := delete_older_than_days cfg in
  if negb (days =? -1) then
    let* should_delete :=
      if days =? 0 then ret true
      else
        try_except is_OSError
          (let* file_mtime := os_path_getmtime src in
           let* now := time_time time_at in
           let file_age_days := file_age_days now file_mtime in
           ret (float_ge_int file_age_days days))
          (fun e =>
             print (MsgAgeCheckFailed src (exn_str e)) ;;
             ret false) in
    if should_delete then
      try_except is_OSError
        (os_remove src ;;
         print (MsgDeleted src))
        (fun e => print (MsgDeleteFailed src (exn_str e)))
    else
      if 0 <? days then print (MsgTooRecent src) else ret tt
  else ret tt.

(** The body of [for fut in as_completed(futures)]. *)
Definition handle_future (cfg : config) (task : string * string) : M unit :=
  let '(src, dst) := task in
  try_except is_Exception
    (let* '(nbytes, used_codec) :=
       convert_fits_to_xisf fits_decode_data fits_decode_header header_keys header_getitem
         py_str comments_contains comments_getitem XISF_write
         src dst (codec cfg) (shuffle cfg) (level cfg) (creator cfg) in
     print (MsgConverted src dst nbytes used_codec) ;;
     retire cfg src)
    (fun e => print (MsgFailed src (exn_str e))).

Definition run_pool (cfg : config) (fits_tasks : list (string * string)) : M unit :=
  if workers cfg <=? 0 then
    raise (Exn OtherException "max_workers must be greater than 0")
  else
    forM_ (fun task => emit (EvSubmit (fst task) (snd task))) fits_tasks ;;
    forM_ (handle_future cfg) (as_completed fits_tasks).

Definition main (cfg : config) (t : tree) : M unit :=
  let* ok := os_path_isdir (input_dir cfg) in
  if negb ok then
    print (MsgNotAFolder (input_dir cfg)) ;;
    raise (Exn SystemExit "1")
  else
    os_makedirs time_at (output_dir cfg) ;;
    let* fits_tasks := enumerate cfg t in
    print (MsgConverting (length fits_tasks) (workers cfg)) ;;
    run_pool cfg fits_tasks.

End Program.

End Stdout.

(** ** A small environment to run the program in *)

Module Toy.

(** Header cards: keyword, value, comment. *)
Definition header : Type := list (string * string * string).

Definition pixels : Numpy.ndarray :=
  {| Numpy.shape := [2%nat; 3%nat];
     Numpy.buffer := map Numpy.PxInt [10; 11; 12; 20; 21; 22] |}.

Definition valid (c : string) : bool := PyStr.startswith c "SIMPLE".

Definition not_fits : exn :=
  Exn OSError "No SIMPLE card found, this file does not appear to be a valid FITS file.".

Definition decode_data (c : string) : res Numpy.ndarray :=
  if valid c then Ret pixels else Raise not_fits.

Definition decode_header (c : string) : res header :=
  if valid c then
    Ret ([("SIMPLE", "True", "conforms to FITS standard");
          ("NAXIS", "2", EmptyString);
          ("HISTORY", "dark subtracted", EmptyString);
          ("HISTORY", "flat fielded", EmptyString)]
         ++ (if PyStr.contains "ODD" c then [("ODD", "()", EmptyString)] else []))%list
  else Raise not_fits.

Definition header_keys (h : header) : list string := map (fun c => fst (fst c)) h.

Definition find_card (h : header) (key : string) : option (string * string * string) :=
  find (fun c => String.eqb (fst (fst c)) key) h.

(** [HISTORY], [COMMENT] and the blank keyword. *)
Definition is_commentary (key : string) : bool :=
  String.eqb key "HISTORY" || String.eqb key "COMMENT" || String.eqb key EmptyString.

Definition newline : string := String (ascii_of_nat 10) EmptyString.

Fixpoint join_lines (l : list string) : string :=
  match l with
  | [] => EmptyString
  | [x] => x
  | x :: l' => x ++ newline ++ join_lines l'
  end.

(** [str(header[key])] the way [astropy] looks a keyword up: the first
    card of that keyword, and for a commentary keyword the values of all
    its cards, one per line. *)
Definition header_getitem (h : header) (key : string) : string :=
  if is_commentary key then
    join_lines (map (fun c => snd (fst c))
                    (List.filter (fun c => String.eqb (fst (fst c)) key) h))
  else
    match find_card h key with Some c => snd (fst c) | None => EmptyString end.

(** [key in header.comments]: the comments of a header have no
    [__contains__], so the test walks what iterating them yields, the
    comment strings of the cards, and asks whether one of them equals
    [key]. *)
Definition comments_contains (h : header) (key : string) : bool :=
  existsb (fun c => String.eqb (snd c) key) h.

(** [header.comments[key]]: the comment of the first card of the keyword. *)

Definition comments_getitem (h : header) (key : string) : string :=
  match find_card h key with Some c => snd c | None => EmptyString end.

(** A header with a keyword given twice, two [HISTORY] cards, and a card
    whose comment is the name of a keyword. *)
Definition header_twice : header :=
  [("GAIN", "1.0", "first"); ("GAIN", "2.5", "second");
   ("HISTORY", "dark subtracted", EmptyString);
   ("HISTORY", "flat fielded", EmptyString);
   ("EXPTIME", "30.0", "EXPTIME")].

Definition has_odd_keyword (md : option (PyDict.t (PyDict.t (list keyword)))) : bool :=
  match md with
  | Some d =>
      match PyDict.get "FITSKeywords" d with
      | Some kws => match PyDict.get "ODD" kws with Some _ => true | None => false end
      | None => false
      end
  | None => false
  end.

(** An encoder that rejects the keyword [ODD], cannot write where a
    directory stands or where no directory holds the file, and otherwise
    writes the file. *)
Definition XISF_write (a : xisf_args) (fs : gmap Fs.path Fs.node)
  : res (Z * string) * gmap Fs.path Fs.node :=
  if has_odd_keyword (xa_image_metadata a) then
    (Raise (Exn OtherException "tuple index out of range"), fs)
  else if Fs.isdir fs (xa_path a) || String.eqb (xa_path a) EmptyString
          || negb (Fs.parent_is_dir fs (Fs.resolve (xa_path a))) then
    (Raise (os_error "[Errno 2] No such file or directory" (xa_path a)), fs)
  else
    (Ret (Z.of_nat (length (Numpy.buffer (xa_data a))), xa_codec a),
     <[Fs.resolve (xa_path a) := Fs.File "XISF0100" 2000000%float]> fs).



(** A standard output whose encoding has the characters of the Basic
    Multilingual Plane only: it cannot encode the wastebasket at the head
    of the line that reports a deletion, and takes every other line. *)
Definition stdout_bmp (m : message) : option exn :=
  match m with
  | MsgDeleted _ =>
      Some (Exn OtherException
              "'ucs2' codec can't encode character in position 1: character maps to <undefined>")
  | _ => None
  end.

Definition time_at (n : nat) : float := 1000000%float.

Definition as_completed (l : list (string * string)) : list (string * string) := l.

Definition cfg (days : Z) : config :=
  {| input_dir := "in"; output_dir := "out"; codec := "zlib"; shuffle := true;
     level := 6; creator := "fits_to_xisf_batch.py"; workers := 4;
     skip_existing := true; delete_older_than_days := days |}.

(** [in/m31.fits], [in/notes.txt], [in/dark/d1.FITS], [in/empty/]:
    the first is 432000 s (five days) old, the last 1000 s. *)
Definition tree0 : tree :=
  Node ["m31.fits"; "notes.txt"]
       [("dark", Node ["d1.FITS"] []); ("empty", Node [] [])].

Definition fs0 : gmap Fs.path Fs.node :=
  list_to_map
    [(["in"], Fs.Dir 0%float);
     (["in"; "m31.fits"], Fs.File "SIMPLE m31" 568000%float);
     (["in"; "notes.txt"], Fs.File "seeing 1.2" 500000%float);
     (["in"; "dark"], Fs.Dir 0%float);
     (["in"; "dark"; "d1.FITS"], Fs.File "SIMPLE dark" 999000%float);
     (["in"; "empty"], Fs.Dir 0%float)].

Definition world0 : world := {| w_fs := fs0; w_tick := 0; w_protected := ∅ |}.

(** [world0] with [out/] made and a file whose header has the keyword
    [ODD]. *)
Definition world_odd : world :=
  {| w_fs := <[["in"; "odd.fits"] := Fs.File "SIMPLE ODD" 100000%float]>
               (<[["out"] := Fs.Dir 0%float]> fs0);
     w_tick := 0; w_protected := ∅ |}.




Definition convert (src dst : string) : M (Z * string) :=
  convert_fits_to_xisf decode_data decode_header header_keys header_getitem
    (fun v => v) comments_contains comments_getitem XISF_write
    src dst "zlib" true 6 "fits_to_xisf_batch.py".

Definition handle (cfg : config) (task : string * string) : M unit :=
  handle_future decode_data decode_header header_keys header_getitem
    (fun v => v) comments_contains comments_getitem XISF_write time_at cfg task.

Definition pool (cfg : config) (fits_tasks : list (string * string)) : M unit :=
  run_pool decode_data decode_header header_keys header_getitem
    (fun v => v) comments_contains comments_getitem XISF_write time_at as_completed
    cfg fits_tasks.

Definition main (cfg : config) (t : tree) : M unit :=
  main decode_data decode_header header_keys header_getitem
    (fun v => v) comments_contains comments_getitem XISF_write time_at as_completed cfg t.



Definition main_with
    (XISF_write : xisf_args -> gmap Fs.path Fs.node -> res (Z * string) * gmap Fs.path Fs.node)
    (stdout_error : message -> option exn) (cfg : config) (t : tree) : M unit :=
  Stdout.main decode_data decode_header header_keys header_getitem
    (fun v => v) comments_contains comments_getitem XISF_write time_at as_completed
    stdout_error cfg t.

(** [max_workers = 0]. *)
Definition cfg_no_workers : config :=
  {| input_dir := "in"; output_dir := "out"; codec := "zlib"; shuffle := true;
     level := 6; creator := "fits_to_xisf_batch.py"; workers := 0;
     skip_existing := true; delete_older_than_days := -1 |}.

(** A store with nothing in it. *)
Definition world_empty : world := {| w_fs := ∅; w_tick := 0; w_protected := ∅ |}.

End Toy.

(** ** The settings *)

(** [str2bool]: [str(s).lower() in ('1','yes','true','on')].  No character
    outside A-Z lowers to a letter of these four words. *)
Definition str2bool (s : string) : bool :=
  existsb (String.eqb (PyStr.lower s)) ["1"; "yes"; "true"; "on"].

(** The capital of a letter a-z; any other character is left alone. *)
Definition upper_char (c : ascii) : ascii :=
  let n := nat_of_ascii c in
  if ((97 <=? n) && (n <=? 122))%nat then ascii_of_nat (n - 32) else c.

(** The spellings of a word, each letter small or capital. *)
Fixpoint case_variants (word : string) : list string :=
  match word with
  | EmptyString => [EmptyString]
  | String c word' =>
      flat_map
        (fun rest =>
           if Ascii.eqb (upper_char c) c then [String c rest]
           else [String c rest; String (upper_char c) rest])
        (case_variants word')
  end.

(** [sec.get(key, fallback)] on the options of the section. *)
Definition sec_get (sec : PyDict.t string) (key fallback : string) : string :=
  match PyDict.get key sec with
  | Some v => v
  | None => fallback
  end.

(** The header keys in the order of their first occurrence, those in
    [seen] left out. *)
Fixpoint first_occurrences (seen l : list string) : list string :=
  match l with
  | [] => []
  | k :: l' =>
      if existsb (String.eqb k) seen then first_occurrences seen l'
      else k :: first_occurrences (seen ++ [k]) l'
  end.

Section Script.

Context {header hvalue : Type}.
Variable fits_decode_data : string -> res Numpy.ndarray.
Variable fits_decode_header : string -> res header.
Variable header_keys : header -> list string.
Variable header_getitem : header -> string -> hvalue.
Variable py_str : hvalue -> string.
Variable comments_contains : header -> string -> bool.
Variable comments_getitem : header -> string -> string.
Variable XISF_write :
  xisf_args -> gmap Fs.path Fs.node -> res (Z * string) * gmap Fs.path Fs.node.
Variable time_at : nat -> float.
Variable as_completed : list (string * string) -> list (string * string).

(** [int(s)]; [None] is a [ValueError]. *)
Variable py_int : string -> option Z.

(** [os.path.basename(__file__)] *)
Variable script_name : string.

(** [sec.getint(key, fallback)] *)
Definition sec_getint (sec : PyDict.t string) (key : string) (fallback : Z) : res Z :=
  match PyDict.get key sec with
  | Some v =>
      match py_int v with
      | Some z => Ret z
      | None => Raise (Exn OtherException ("invalid literal for int() with base 10: '" ++ v ++ "'"))
      end
  | None => Ret fallback
  end.

(** [main] from its first line: [settings] is the section [settings] of
    [config.ini], its options with the values [get] returns for them,
    [None] when the file has no such section (a [KeyError]).  A missing
    [input_dir] or [output_dir] is [None], which [os.path.isdir] and
    [os.makedirs] refuse with a [TypeError]. *)
Definition main_script (settings : option (PyDict.t string)) (t : tree) : M unit :=
  match settings with
  | None => raise (Exn OtherException "'settings'")
  | Some sec =>
      let input_dir := PyDict.get "input_dir" sec in
      let output_dir := PyDict.get "output_dir" sec in
      let codec := sec_get sec "codec" "zlib" in
      let shuffle := str2bool (sec_get sec "shuffle" "yes") in
      let* level := lift_res (sec_getint sec "level" 6) in
      let creator := sec_get sec "creator_app" script_name in
      let* workers := lift_res (sec_getint sec "workers" 4) in
      let skip_existing := str2bool (sec_get sec "skip_existing" "yes") in
      let* delete_older_than_days := lift_res (sec_getint sec "delete_older_than_days" (-1)) in
      match input_dir, output_dir with
      | None, _ =>
          raise (Exn OtherException
                   "stat: path should be string, bytes, os.PathLike or integer, not NoneType")
      | Some input_dir, None =>
          let* ok := os_path_isdir input_dir in
          if negb ok then
            print (MsgNotAFolder input_dir) ;;
            raise (Exn SystemExit "1")
          else
            raise (Exn OtherException
                     "expected str, bytes or os.PathLike object, not NoneType")
      | Some input_dir, Some output_dir =>
          main fits_decode_data fits_decode_header header_keys header_getitem py_str
            comments_contains comments_getitem XISF_write time_at as_completed
            {| input_dir := input_dir; output_dir := output_dir; codec := codec;
               shuffle := shuffle; level := level; creator := creator;
               workers := workers; skip_existing := skip_existing;
               delete_older_than_days := delete_older_than_days |}
            t
      end
  end.

End Script.

Arguments main_script {header hvalue}.

(** The settings run in the small environment, with a reader of decimal
    integers for [int]. *)
Module ToySettings.

Definition digit (c : ascii) : option Z :=
  let n := Z.of_nat (nat_of_ascii c) in
  if (48 <=? n) && (n <=? 57) then Some (n - 48) else None.

(** The digits of a literal; one underscore may stand between two
    digits.  [after_digit] says that the character before was a digit. *)
Fixpoint digits (acc : Z) (after_digit : bool) (s : string) : option Z :=
  match s with
  | EmptyString => if after_digit then Some acc else None
  | String c s' =>
      match digit c with
      | Some d => digits (10 * acc + d) true s'
      | None =>
          if after_digit && Ascii.eqb c "_" then digits acc false s' else None
      end
  end.

(** The blanks [int] drops around a literal. *)
Definition is_space (c : ascii) : bool :=
  let n := Z.of_nat (nat_of_ascii c) in
  (n =? 32) || ((9 <=? n) && (n <=? 13)) || ((28 <=? n) && (n <=? 31)).

Fixpoint lstrip (s : string) : string :=
  match s with
  | String c s' => if is_space c then lstrip s' else s
  | EmptyString => EmptyString
  end.

Fixpoint rstrip (s : string) : string :=
  match s with
  | String c s' =>
      let r := rstrip s' in
      if is_space c && String.eqb r EmptyString then EmptyString else String c r
  | EmptyString => EmptyString
  end.

(** [int(s)] in base ten: blanks around the literal, then a sign or
    none, then the digits. *)
Definition py_int (s : string) : option Z :=
  match lstrip (rstrip s) with
  | String "-" s' => option_map Z.opp (digits 0 false s')
  | String "+" s' => digits 0 false s'
  | s' => digits 0 false s'
  end.

Definition main_script (settings : option (PyDict.t string)) (t : tree) : M unit :=
  main_script Toy.decode_data Toy.decode_header Toy.header_keys Toy.header_getitem
    (fun v => v) Toy.comments_contains Toy.comments_getitem Toy.XISF_write Toy.time_at
    Toy.as_completed py_int "fits_to_xisf_batch.py" settings t.

End ToySettings.

(** * Properties *)

(** ** Strings and paths *)

Example py_int_ex :
  map ToySettings.py_int ["6"; "-1"; " +12 "; "1_000"; "007"; EmptyString; "-"; "1__0"; "_1"; "1_"; "3.5"; "1 2"; "0x10"]
  = [Some 6; Some (-1); Some 12; Some 1000; Some 7; None; None; None; None; None; None; None; None].
Proof. reflexivity. Qed.

Example lower_ex : PyStr.lower "M31.FiTs" = "m31.fits".
Proof. reflexivity. Qed.

Example splitext_ex1 : PyStr.splitext "out/./m31.FITS" = ("out/./m31", ".FITS").
Proof. reflexivity. Qed.

Example splitext_ex2 : PyStr.splitext "out/a.b/.fits" = ("out/a.b/.fits", "").
Proof. reflexivity. Qed.

Example splitext_ex3 : PyStr.splitext "out/..x.tar.gz" = ("out/..x.tar", ".gz").
Proof. reflexivity. Qed.

Example join_ex : PyStr.join "out" "." = "out/." /\ PyStr.join "out/" "a/b" = "out/a/b"
                  /\ PyStr.join "" "x" = "x" /\ PyStr.join "a" "/x" = "/x".
Proof. repeat split. Qed.

Example contains_ex :
  PyStr.contains "tuple index out of range" "IndexError: tuple index out of range" = true
  /\ PyStr.contains "tuple index out of range" "[Errno 28] No space left on device" = false.
Proof. split; reflexivity. Qed.

(** A source four days old stays with a threshold of five days, one six
    days old goes. *)
Example age_four_days : float_ge_int (file_age_days 1000000%float 654400%float) 5 = false.
Proof. vm_compute. reflexivity. Qed.

Example age_six_days : float_ge_int (file_age_days 1000000%float 481600%float) 5 = true.
Proof. vm_compute. reflexivity. Qed.

Example age_not_a_number : float_ge_int (file_age_days nan 481600%float) 5 = false.
Proof. vm_compute. reflexivity. Qed.

(** ** Arrays *)



(** ** Dictionaries *)

Lemma dict_get_set_eq {V} (k : string) (v : V) (d : PyDict.t V) :
  PyDict.get k (PyDict.set k v d) = Some v.
Proof.
  induction d as [|[k' v'] d IH]; simpl.
  - now rewrite String.eqb_refl.
  - destruct (String.eqb k' k) eqn:E; simpl; rewrite E; [reflexivity | exact IH].
Qed.

Lemma dict_get_set_ne {V} (k k0 : string) (v : V) (d : PyDict.t V) :
  k0 <> k -> PyDict.get k (PyDict.set k0 v d) = PyDict.get k d.
Proof.
  intros Hne. induction d as [|[k' v'] d IH]; simpl.
  - destruct (String.eqb_spec k0 k); [contradiction | reflexivity].
  - destruct (String.eqb_spec k' k0) as [->|Hk]; simpl.
    + destruct (String.eqb_spec k0 k); [contradiction | reflexivity].
    + destruct (String.eqb_spec k' k); [reflexivity | exact IH].
Qed.

Lemma dict_keys_set {V} (k : string) (v : V) (d : PyDict.t V) :
  PyDict.keys (PyDict.set k v d) =
  if existsb (String.eqb k) (PyDict.keys d) then PyDict.keys d
  else (PyDict.keys d ++ [k])%list.
Proof.
  induction d as [|[k' v'] d IH]; simpl; [reflexivity|].
  rewrite (String.eqb_sym k k').
  destruct (String.eqb k' k) eqn:E; simpl; [reflexivity|].
  rewrite IH. now destruct (existsb (String.eqb k) (PyDict.keys d)).
Qed.

Lemma dict_keys_set_NoDup {V} (k : string) (v : V) (d : PyDict.t V) :
  NoDup (PyDict.keys d) -> NoDup (PyDict.keys (PyDict.set k v d)).
Proof.
  intros Hnd. rewrite dict_keys_set.
  destruct (existsb (String.eqb k) (PyDict.keys d)) eqn:E; [exact Hnd|].
  apply NoDup_app. split; [exact Hnd|]. split.
  - intros x Hx Hk. apply list_elem_of_singleton in Hk. subst x.
    assert (existsb (String.eqb k) (PyDict.keys d) = true); [|congruence].
    apply existsb_exists. exists k. split; [now apply list_elem_of_In | apply String.eqb_refl].
  - apply NoDup_singleton.
Qed.

Section Keywords.

Context {header hvalue : Type}.
Variable header_getitem : header -> string -> hvalue.
Variable py_str : hvalue -> string.
Variable comments_contains : header -> string -> bool.
Variable comments_getitem : header -> string -> string.

Local Abbreviation keyword_of := (keyword_of header_getitem py_str comments_contains comments_getitem).
Local Abbreviation step h := (fun d key => PyDict.set key [keyword_of h key] d).

Lemma fold_keywords_get (h : header) (l : list string) (d : PyDict.t (list keyword)) (key : string) :
  PyDict.get key (fold_left (step h) l d) =
  if existsb (String.eqb key) l then Some [keyword_of h key] else PyDict.get key d.
Proof.
  revert d. induction l as [|k l IH]; intros d; simpl; [reflexivity|].
  rewrite IH. destruct (existsb (String.eqb key) l); [now rewrite orb_true_r|].
  rewrite orb_false_r.
  destruct (String.eqb_spec key k) as [->|Hne].
  - apply dict_get_set_eq.
  - apply dict_get_set_ne. congruence.
Qed.

Lemma fold_keywords_NoDup (h : header) (l : list string) (d : PyDict.t (list keyword)) :
  NoDup (PyDict.keys d) -> NoDup (PyDict.keys (fold_left (step h) l d)).
Proof.
  revert d. induction l as [|k l IH]; intros d Hd; simpl; [exact Hd|].
  apply IH. now apply dict_keys_set_NoDup.
Qed.

Lemma fold_keywords_keys (h : header) (l : list string) (d : PyDict.t (list keyword)) (key : string) :
  In key (PyDict.keys (fold_left (step h) l d)) <-> In key l \/ In key (PyDict.keys d).
Proof.
  revert d. induction l as [|k l IH]; intros d; simpl; [tauto|].
  rewrite IH. rewrite dict_keys_set.
  destruct (existsb (String.eqb k) (PyDict.keys d)) eqn:E.
  - apply existsb_exists in E as (x & Hx & Hk). apply String.eqb_eq in Hk. subst x.
    intuition (subst; auto).
  - rewrite in_app_iff. simpl. intuition.
Qed.

(** C10.  In the record the worker builds, a key of the header maps to a
    list of exactly one entry, whose value is the stringified [header[key]]
    and whose comment is [header.comments[key]] or the empty string; a key
    the header lists several times has one entry all the same, the one
    built from what the header answers for that key (each assignment
    replaces the one before it), and nothing else is in the record. *)
Theorem fits_keywords_one_entry_per_key (header_keys : header -> list string) (h : header) :
  let record := build_fits_keywords header_keys header_getitem py_str
                  comments_contains comments_getitem h in
  (forall key, PyDict.get key record =
     if existsb (String.eqb key) (header_keys h)
     then Some [ {| value := py_str (header_getitem h key);
                    comment := if comments_contains h key
                               then comments_getitem h key else EmptyString |} ]
     else None)
  /\ NoDup (PyDict.keys record)
  /\ (forall key, In key (PyDict.keys record) <-> In key (header_keys h))
  /\ (forall before key after v,
        header_keys h = (before ++ key :: after)%list ->
        PyDict.get key (fold_left (step h) before PyDict.empty) = Some v ->
        PyDict.get key (fold_left (step h) (before ++ [key]) PyDict.empty)
          = Some [keyword_of h key]
        /\ PyDict.get key record = Some [keyword_of h key]).
Proof.
  cbv zeta. unfold build_fits_keywords. repeat split.
  - intros key. rewrite (fold_keywords_get h). reflexivity.
  - apply (fold_keywords_NoDup h). constructor.
  - intros Hin. apply (fold_keywords_keys h) in Hin as [Hin|[]]. exact Hin.
  - intros Hin. apply (fold_keywords_keys h). now left.
  - rewrite (fold_keywords_get h). rewrite existsb_app. simpl.
    now rewrite String.eqb_refl, orb_true_r.
  - rewrite (fold_keywords_get h), H, existsb_app. simpl.
    now rewrite String.eqb_refl, orb_true_r.
Qed.

End Keywords.


(** ** The conversion worker *)

Lemma startswith_spec (pre s : string) :
  PyStr.startswith s pre = true <-> exists post, s = pre ++ post.
Proof.
  revert s. induction pre as [|a pre IH]; intros s.
  - split; [intros _; now exists s | intros _; now destruct s].
  - destruct s as [|b s]; cbn [PyStr.startswith].
    + split; [discriminate | intros [post H]; discriminate H].
    + rewrite andb_true_iff, IH. split.
      * intros [Hab [post ->]]. apply Ascii.eqb_eq in Hab. subst b. now exists post.
      * intros [post H]. change (String a pre ++ post) with (String a (pre ++ post)) in H.
        inversion H; subst. split; [apply Ascii.eqb_refl | now exists post].
Qed.

(** [sub in s] holds exactly when [sub] stands somewhere in [s]. *)
Lemma contains_spec (sub s : string) :
  PyStr.contains sub s = true <-> occurs_in sub s.
Proof.
  unfold occurs_in. induction s as [|c s IH]; cbn [PyStr.contains].
  - rewrite orb_false_r, startswith_spec. split.
    + intros [post H]. now exists "", post.
    + intros (before & after & H). destruct before as [|b before]; [|discriminate H].
      now exists after.
  - rewrite orb_true_iff, startswith_spec, IH. split.
    + intros [[post H]|(before & after & H)].
      * now exists "", post.
      * exists (String c before), after. now rewrite H.
    + intros (before & after & H). destruct before as [|b before].
      * left. now exists after.
      * right. change (String b before ++ sub ++ after)
          with (String b (before ++ sub ++ after)) in H.
        inversion H; subst. now exists before, after.
Qed.

Lemma metadata_shape_rejected_spec (e : exn) :
  metadata_shape_rejected e = true
  <-> is_Exception e = true /\ occurs_in "tuple index out of range" (exn_str e).
Proof. unfold metadata_shape_rejected. now rewrite andb_true_iff, contains_spec. Qed.

Section Worker.

Context {header hvalue : Type}.
Variable fits_decode_data : string -> res Numpy.ndarray.
Variable fits_decode_header : string -> res header.
Variable header_keys : header -> list string.
Variable header_getitem : header -> string -> hvalue.
Variable py_str : hvalue -> string.
Variable comments_contains : header -> string -> bool.
Variable comments_getitem : header -> string -> string.
Variable XISF_write :
  xisf_args -> gmap Fs.path Fs.node -> res (Z * string) * gmap Fs.path Fs.node.

Local Abbreviation convert :=
  (convert_fits_to_xisf fits_decode_data fits_decode_header header_keys header_getitem
     py_str comments_contains comments_getitem XISF_write).
Local Abbreviation keywords :=
  (build_fits_keywords header_keys header_getitem py_str comments_contains comments_getitem).

(** The worker, run step by step. *)
Lemma convert_run (fits_path xisf_path codec : string) (shuffle : bool) (level : Z)
    (creator_app : string) (w : world) :
  convert fits_path xisf_path codec shuffle level creator_app w =
  match Fs.stat (w_fs w) fits_path with
  | Some (Fs.File c _) =>
      match fits_decode_data c with
      | Ret d =>
          match fits_decode_header c with
          | Ret h =>
              write_with_fallback XISF_write
                (args_with_metadata xisf_path (add_channel_axis d) (keywords h)
                   codec shuffle level creator_app)
                (args_without_metadata xisf_path (add_channel_axis d)
                   codec shuffle level creator_app)
                w [EvGetdata fits_path; EvGetheader fits_path]
          | Raise e => (Raise e, w, [EvGetdata fits_path; EvGetheader fits_path])
          end
      | Raise e => (Raise e, w, [EvGetdata fits_path])
      end
  | _ => (Raise (os_error "[Errno 2] No such file or directory" fits_path), w,
          [EvGetdata fits_path])
  end.
Proof.
  unfold convert_fits_to_xisf, fits_getdata, fits_getheader, bind, emit, read_file,
    lift_res, try_except, XISF_write_call, raise, write_with_fallback,
    args_with_metadata, args_without_metadata, metadata_shape_rejected, with_fs.
  destruct (Fs.stat (w_fs w) fits_path) as [[c m|m]|] eqn:Hst; simpl; try reflexivity.
  destruct (fits_decode_data c) as [d|e]; simpl; [|reflexivity].
  rewrite Hst.
  destruct (fits_decode_header c) as [h|e]; simpl; [|reflexivity].
  destruct (XISF_write _ (w_fs w)) as [[x|e] fs1]; simpl; [reflexivity|].
  destruct (is_Exception e); simpl; [|reflexivity].
  destruct (PyStr.contains _ (exn_str e)); simpl.
  - destruct (XISF_write _ fs1) as [r2 fs2]. reflexivity.
  - reflexivity.
Qed.

(** C3.  Once the file is decoded, the worker calls the encoder with the
    metadata; it calls it a second time, without metadata, exactly when the
    first call raised an [Exception] in whose text the words
    [tuple index out of range] stand somewhere, whatever kind of failure
    it is; there is never a third call; any other failure of the first
    call is the failure of the worker. *)
Theorem fallback_retried_once_on_shape_rejection
    (fits_path xisf_path codec : string) (shuffle : bool) (level : Z)
    (creator_app : string) (w : world) (c : string) (m : float)
    (d : Numpy.ndarray) (h : header) :
  Fs.stat (w_fs w) fits_path = Some (Fs.File c m) ->
  fits_decode_data c = Ret d ->
  fits_decode_header c = Ret h ->
  let a1 := args_with_metadata xisf_path (add_channel_axis d) (keywords h)
              codec shuffle level creator_app in
  let a2 := args_without_metadata xisf_path (add_channel_axis d)
              codec shuffle level creator_app in
  let first := XISF_write a1 (w_fs w) in
  let run := convert fits_path xisf_path codec shuffle level creator_app w in
  let calls := filter is_write (snd run) in
  (calls = [EvXisfWrite a1; EvXisfWrite a2]
     <-> exists e, fst first = Raise e /\ is_Exception e = true
                   /\ occurs_in "tuple index out of range" (exn_str e))
  /\ (calls = [EvXisfWrite a1] \/ calls = [EvXisfWrite a1; EvXisfWrite a2])
  /\ (forall e, fst first = Raise e ->
        is_Exception e = false \/ ~ occurs_in "tuple index out of range" (exn_str e) ->
        fst (fst run) = Raise e /\ calls = [EvXisfWrite a1])
  /\ (forall x, fst first = Ret x -> fst (fst run) = Ret x /\ calls = [EvXisfWrite a1])
  /\ (forall e, fst first = Raise e -> is_Exception e = true ->
        occurs_in "tuple index out of range" (exn_str e) ->
        fst (fst run) = fst (XISF_write a2 (snd first))).
Proof.
  intros Hst Hd Hh a1 a2 first run calls.
  subst run calls. rewrite convert_run, Hst, Hd, Hh. fold a1 a2.
  unfold write_with_fallback. subst first.
  destruct (XISF_write a1 (w_fs w)) as [[x|e] fs1]; simpl.
  - split; [split; [discriminate | intros (e & He & _); discriminate]|].
    split; [now left|]. split; [discriminate|]. split; [|discriminate].
    intros x' Hx. inversion Hx. now split.
  - pose proof (metadata_shape_rejected_spec e) as Hspec.
    destruct (metadata_shape_rejected e) eqn:Hrej.
    + destruct (proj1 Hspec eq_refl) as [Hexc Hocc].
      destruct (XISF_write a2 fs1) as [r2 fs2]; simpl.
      split; [split; [intros _; now exists e | reflexivity]|].
      split; [now right|]. split.
      { intros e' He' [Hne|Hno]; inversion He'; subst; [congruence | contradiction]. }
      split; [discriminate|]. reflexivity.
    + simpl.
      assert (Hnot : ~ (is_Exception e = true
                        /\ occurs_in "tuple index out of range" (exn_str e))).
      { intros H. apply Hspec in H. discriminate H. }
      split; [split; [discriminate|]|].
      { intros (e' & He' & Hexc & Hocc). inversion He'; subst. now destruct Hnot. }
      split; [now left|]. split; [intros e' He' _; inversion He'; now split|].
      split; [discriminate|].
      intros e' He' Hexc Hocc. inversion He'; subst. now destruct Hnot.
Qed.


End Worker.

Lemma fallback_retried_once_witness :
  (let run := Toy.convert "in/odd.fits" "out/odd.xisf" Toy.world_odd in
   fst (fst run) = Ret (6, "zlib") /\ length (filter is_write (snd run)) = 2%nat)
  /\ (let run := Toy.convert "in/m31.fits" "nowhere/m31.xisf" Toy.world_odd in
      fst (fst run)
      = Raise (os_error "[Errno 2] No such file or directory" "nowhere/m31.xisf")
      /\ length (filter is_write (snd run)) = 1%nat).
Proof.
  split.
  - destruct (fallback_retried_once_on_shape_rejection
                Toy.decode_data Toy.decode_header Toy.header_keys Toy.header_getitem
                (fun v => v) Toy.comments_contains Toy.comments_getitem Toy.XISF_write
                "in/odd.fits" "out/odd.xisf" "zlib" true 6 "fits_to_xisf_batch.py"
                Toy.world_odd "SIMPLE ODD" 100000%float Toy.pixels
                [("SIMPLE", "True", "conforms to FITS standard");
                 ("NAXIS", "2", EmptyString);
                 ("HISTORY", "dark subtracted", EmptyString);
                 ("HISTORY", "flat fielded", EmptyString);
                 ("ODD", "()", EmptyString)]
                eq_refl eq_refl eq_refl) as (Hiff & _ & _ & _ & Hres).
    assert (Hocc : occurs_in "tuple index out of range" "tuple index out of range")
      by (exists "", ""; reflexivity).
    split.
    + unfold Toy.convert. rewrite (Hres _ eq_refl eq_refl Hocc). reflexivity.
    + unfold Toy.convert. destruct Hiff as [_ Hcalls]. rewrite Hcalls; [reflexivity|].
      eexists. split; [reflexivity|]. split; [reflexivity | exact Hocc].
  - destruct (fallback_retried_once_on_shape_rejection
                Toy.decode_data Toy.decode_header Toy.header_keys Toy.header_getitem
                (fun v => v) Toy.comments_contains Toy.comments_getitem Toy.XISF_write
                "in/m31.fits" "nowhere/m31.xisf" "zlib" true 6 "fits_to_xisf_batch.py"
                Toy.world_odd "SIMPLE m31" 568000%float Toy.pixels
                [("SIMPLE", "True", "conforms to FITS standard");
                 ("NAXIS", "2", EmptyString);
                 ("HISTORY", "dark subtracted", EmptyString);
                 ("HISTORY", "flat fielded", EmptyString)]
                eq_refl eq_refl eq_refl) as (_ & _ & Hother & _).
    unfold Toy.convert.
    destruct (Hother (os_error "[Errno 2] No such file or directory" "nowhere/m31.xisf")
                eq_refl) as [Hr Hc].
    + right. intros Hocc. apply contains_spec in Hocc. discriminate Hocc.
    + rewrite Hr, Hc. now split.
Defined.

(** C3 as the specification states it fails: the retry is not kept for
    the rejection of the metadata.  The encoder here accepts the metadata
    and fails on the disk, no directory being there to write in; the
    path it could not open has the words in it, so the worker writes a
    second time, without metadata. *)
Lemma disk_failure_naming_the_words_is_retried :
  let dst := "out/tuple index out of range/m31.xisf" in
  let run := Toy.convert "in/m31.fits" dst Toy.world_odd in
  match snd run with
  | [EvGetdata _; EvGetheader _; EvXisfWrite a1; EvXisfWrite a2] =>
      Toy.has_odd_keyword (xa_image_metadata a1) = false
      /\ fst (Toy.XISF_write a1 (w_fs Toy.world_odd))
         = Raise (Exn OSError "[Errno 2] No such file or directory: 'out/tuple index out of range/m31.xisf'")
      /\ xa_image_metadata a2 = None
  | _ => False
  end
  /\ fst (fst run)
     = Raise (Exn OSError "[Errno 2] No such file or directory: 'out/tuple index out of range/m31.xisf'").
Proof. vm_compute. repeat split. Qed.

(** ** The retirement of a converted source *)

Lemma isfile_after_remove (fs : gmap Fs.path Fs.node) (p : string) :
  Fs.isfile (after_remove fs p) p = false.
Proof.
  unfold after_remove, Fs.remove, Fs.isfile.
  destruct (Fs.stat fs p) as [[c m|m]|] eqn:Hst; try now rewrite Hst.
  unfold Fs.stat in *. destruct (String.eqb p ""); [discriminate|].
  destruct (Fs.resolve p) as [|x r]; [discriminate|].
  now rewrite lookup_delete_eq.
Qed.

Section Retire.

Variable time_at : nat -> float.

Lemma retire_run (cfg : config) (src : string) (w : world) :
  retire time_at cfg src w =
  let days := delete_older_than_days cfg in
  let too_recent := if 0 <? days then [EvPrint (MsgTooRecent src)] else [] in
  if days =? -1 then (Ret tt, w, [])
  else if days =? 0 then remove_step src w []
  else
    match Fs.getmtime (w_fs w) src with
    | Some mtime =>
        let now := time_at (w_tick w) in
        if float_ge_int (file_age_days now mtime) days
        then remove_step src (tick w) [EvGetmtime src; EvTime now]
        else (Ret tt, tick w, [EvGetmtime src; EvTime now] ++ too_recent)
    | None =>
        (Ret tt, w,
         [EvGetmtime src;
          EvPrint (MsgAgeCheckFailed src
                     (exn_str (os_error "[Errno 2] No such file or directory" src)))]
           ++ too_recent)
    end%list.
Proof.
  unfold retire, remove_step, unlink, remove_error, bind, try_except, os_remove,
    os_path_getmtime, time_time, print, emit, ret, tick, with_fs.
  cbv zeta.
  destruct (delete_older_than_days cfg =? -1); simpl; [reflexivity|].
  destruct (delete_older_than_days cfg =? 0); simpl.
  - destruct (Fs.remove (w_fs w) src); [destruct (bool_decide _)|]; reflexivity.
  - destruct (Fs.getmtime (w_fs w) src) as [mtime|]; simpl.
    + destruct (float_ge_int _ _); simpl.
      * destruct (Fs.remove (w_fs w) src); [destruct (bool_decide _)|]; reflexivity.
      * destruct (0 <? delete_older_than_days cfg); reflexivity.
    + destruct (0 <? delete_older_than_days cfg); reflexivity.
Qed.

Lemma remove_step_returns (src : string) (w : world) (pre : list event) :
  fst (fst (remove_step src w pre)) = Ret tt.
Proof. unfold remove_step. now destruct (unlink w src). Qed.

Lemma retire_returns (cfg : config) (src : string) (w : world) :
  fst (fst (retire time_at cfg src w)) = Ret tt.
Proof.
  rewrite retire_run. cbv zeta.
  destruct (_ =? -1); [reflexivity|]. destruct (_ =? 0); [apply remove_step_returns|].
  destruct (Fs.getmtime _ _); [|reflexivity].
  destruct (float_ge_int _ _); [apply remove_step_returns | reflexivity].
Qed.

Lemma remove_step_spec (src : string) (w : world) (pre : list event) :
  let '(_, w2, tr) := remove_step src w pre in
  In (EvRemove src) tr
  /\ (w_fs w2 = w_fs w \/ w_fs w2 = after_remove (w_fs w) src)
  /\ w_tick w2 = w_tick w
  /\ if removable w src
     then w_fs w2 = base.delete (Fs.resolve src) (w_fs w)
          /\ Fs.isfile (w_fs w2) src = false
          /\ tr = (pre ++ [EvRemove src; EvPrint (MsgDeleted src)])%list
     else w_fs w2 = w_fs w
          /\ tr = (pre ++ [EvRemove src;
                            EvPrint (MsgDeleteFailed src (exn_str (remove_error w src)))])%list.
Proof.
  pose proof (isfile_after_remove (w_fs w) src) as Hgone.
  unfold remove_step, unlink, removable, after_remove, Fs.remove, Fs.isfile in *.
  destruct (Fs.stat (w_fs w) src) as [[c m|m]|] eqn:Hst; cbn [andb].
  - destruct (bool_decide _); cbn [negb fst snd w_fs w_tick with_fs].
    + split; [apply in_or_app; right; now left|]. now repeat split; try left.
    + split; [apply in_or_app; right; now left|].
      split; [now right|]. now repeat split.
  - split; [apply in_or_app; right; now left|]. now repeat split; try left.
  - split; [apply in_or_app; right; now left|]. now repeat split; try left.
Qed.

Lemma remove_step_called (src : string) (w w0 : world) (pre : list event) :
  w_fs w = w_fs w0 -> w_protected w = w_protected w0 ->
  remove_called src w0 (snd (fst (remove_step src w pre))) (snd (remove_step src w pre)).
Proof.
  intros Hfs Hp. pose proof (remove_step_spec src w pre) as H.
  destruct (remove_step src w pre) as [[r w2] tr]. cbn [fst snd].
  destruct H as (Hin & _ & _ & H). unfold remove_called.
  replace (removable w0 src) with (removable w src)
    by (unfold removable; now rewrite Hfs, Hp).
  rewrite <- Hfs. split; [exact Hin|].
  destruct (removable w src).
  - destruct H as (H1 & H2 & ->). repeat split; try assumption.
    apply in_or_app. right. right. now left.
  - destruct H as (H1 & ->). split; [exact H1|]. eexists.
    apply in_or_app. right. right. now left.
Qed.

End Retire.

(** ** Loops and traces *)

Lemma bind_run {A B} (m : M A) (k : A -> M B) (w : world) :
  bind m k w =
  match m w with
  | (Ret a, w1, t1) => (fst (fst (k a w1)), snd (fst (k a w1)), (t1 ++ snd (k a w1))%list)
  | (Raise e, w1, t1) => (Raise e, w1, t1)
  end.
Proof.
  unfold bind. destruct (m w) as [[[a|e] w1] t1]; [|reflexivity].
  now destruct (k a w1) as [[r w2] t2].
Qed.

Section Loops.

Context {A : Type}.
Variable P : list event -> Prop.
Hypothesis P_nil : P [].
Hypothesis P_app : forall t1 t2, P t1 -> P t2 -> P (t1 ++ t2)%list.

Lemma forM_trace (body : A -> M unit) (l : list A) :
  (forall x w, In x l -> P (snd (body x w))) ->
  forall w, P (snd (forM_ body l w)).
Proof.
  induction l as [|x l IH]; intros Hb w; simpl; [exact P_nil|].
  rewrite bind_run. pose proof (Hb x w (or_introl eq_refl)) as Hx.
  destruct (body x w) as [[[[]|e] w1] t1]; simpl in *; [|exact Hx].
  apply P_app; [exact Hx|]. apply IH. intros y w' Hy. apply Hb. now right.
Qed.

Lemma foldM_trace {B} (body : B -> A -> M B) (l : list A) :
  (forall acc x w, In x l -> P (snd (body acc x w))) ->
  forall acc w, P (snd (foldM body acc l w)).
Proof.
  induction l as [|x l IH]; intros Hb acc w; simpl; [exact P_nil|].
  rewrite bind_run. pose proof (Hb acc x w (or_introl eq_refl)) as Hx.
  destruct (body acc x w) as [[[acc'|e] w1] t1]; simpl in *; [|exact Hx].
  apply P_app; [exact Hx|]. apply IH. intros a y w' Hy. apply Hb. now right.
Qed.

End Loops.

Lemma forM_returns {A} (body : A -> M unit) (l : list A) :
  (forall x w, fst (fst (body x w)) = Ret tt) ->
  forall w, fst (fst (forM_ body l w)) = Ret tt.
Proof.
  intros Hb. induction l as [|x l IH]; intros w; simpl; [reflexivity|].
  rewrite bind_run. specialize (Hb x w).
  destruct (body x w) as [[[[]|e] w1] t1]; simpl in *; [apply IH | discriminate].
Qed.


Lemma removes_follow_success_nil : removes_follow_success [].
Proof. intros [|? ?] p tr2 H; discriminate. Qed.

Lemma removes_follow_success_app (t1 t2 : list event) :
  removes_follow_success t1 -> removes_follow_success t2 ->
  removes_follow_success (t1 ++ t2).
Proof.
  intros H1 H2 tr1 p tr2 Heq.
  apply app_eq_app in Heq as [l [[-> Heq]|[-> Heq]]].
  - destruct l as [|ev l].
    + simpl in Heq. destruct (H2 [] p tr2 (eq_sym Heq)) as (dst & n & c & []).
    + simpl in Heq. inversion Heq; subst.
      destruct (H1 tr1 p l eq_refl) as (dst & n & c & Hin). now exists dst, n, c.
  - destruct (H2 l p tr2 Heq) as (dst & n & c & Hin).
    exists dst, n, c. apply in_or_app. now right.
Qed.

Lemma removes_follow_success_none (tr : list event) :
  (forall ev, In ev tr -> is_remove ev = false) -> removes_follow_success tr.
Proof.
  intros Hno tr1 p tr2 ->.
  specialize (Hno (EvRemove p)). rewrite in_app_iff in Hno. simpl in Hno.
  discriminate Hno. now right; left.
Qed.

(** ** The enumeration *)

Section Enumeration.

Variable time_at : nat -> float.

Lemma enumerate_file_run (cfg : config) (root dest_root : string)
    (fits_tasks : list (string * string)) (fn : string) (w : world) :
  enumerate_file cfg root dest_root fits_tasks fn w =
  let src := PyStr.join root fn in
  if is_fits fn then
    let dst := xisf_name (PyStr.join dest_root fn) in
    if Fs.exists_ (w_fs w) dst && skip_existing cfg
    then (Ret fits_tasks, w, [EvExists dst; EvPrint (MsgSkipping src)])
    else (Ret (fits_tasks ++ [(src, dst)])%list, w, [EvExists dst])
  else
    match Fs.copy2 (w_fs w) src (PyStr.join dest_root fn) with
    | Some fs' => (Ret fits_tasks, with_fs w fs', [EvCopy2 src (PyStr.join dest_root fn)])
    | None => (Raise (os_error "[Errno 2] No such file or directory" src), w,
               [EvCopy2 src (PyStr.join dest_root fn)])
    end.
Proof.
  unfold enumerate_file, bind, os_path_exists, shutil_copy2, print, emit, ret, with_fs.
  cbv zeta. destruct (is_fits fn).
  - destruct (Fs.exists_ _ _ && skip_existing cfg); reflexivity.
  - destruct (Fs.copy2 _ _ _); reflexivity.
Qed.

Lemma enumerate_file_events (cfg : config) (root dest_root : string)
    (fits_tasks : list (string * string)) (fn : string) (w : world) :
  Forall (fun ev => is_enum_event ev = true)
         (snd (enumerate_file cfg root dest_root fits_tasks fn w)).
Proof.
  rewrite enumerate_file_run. cbv zeta. destruct (is_fits fn).
  - destruct (_ && _); simpl; repeat constructor.
  - destruct (Fs.copy2 _ _ _); simpl; repeat constructor.
Qed.

Lemma os_makedirs_events (p : string) (w : world) :
  snd (os_makedirs time_at p w) = [EvMakedirs p].
Proof.
  unfold os_makedirs. destruct (String.eqb p ""); [reflexivity|].
  destruct (Fs.mkdir_p _ _ _ _) as [fs' ok]. now destruct ok.
Qed.

Lemma enumerate_dir_events (cfg : config) (fits_tasks : list (string * string))
    (entry : string * list string * list string) (w : world) :
  Forall (fun ev => is_enum_event ev = true)
         (snd (enumerate_dir time_at cfg fits_tasks entry w)).
Proof.
  destruct entry as [[root dirs] files]. unfold enumerate_dir. rewrite bind_run.
  pose proof (os_makedirs_events
                (PyStr.join (output_dir cfg) (Fs.relpath root (input_dir cfg))) w) as Hm.
  destruct (os_makedirs _ _ w) as [[[[]|e] w1] t1]; simpl in *; subst t1.
  - constructor; [reflexivity|].
    apply (foldM_trace (fun tr => Forall (fun ev => is_enum_event ev = true) tr)).
    + constructor.
    + intros t1 t2 H1 H2. apply Forall_app; now split.
    + intros acc fn w' _. apply enumerate_file_events.
  - repeat constructor.
Qed.

Lemma enumerate_events (cfg : config) (t : tree) (w : world) :
  Forall (fun ev => is_enum_event ev = true) (snd (enumerate time_at cfg t w)).
Proof.
  unfold enumerate.
  apply (foldM_trace (fun tr => Forall (fun ev => is_enum_event ev = true) tr)).
  - constructor.
  - intros t1 t2 H1 H2. apply Forall_app; now split.
  - intros acc entry w' _. apply enumerate_dir_events.
Qed.

End Enumeration.

(** ** The result loop *)

Section Scheduler.

Context {header hvalue : Type}.
Variable fits_decode_data : string -> res Numpy.ndarray.
Variable fits_decode_header : string -> res header.
Variable header_keys : header -> list string.
Variable header_getitem : header -> string -> hvalue.
Variable py_str : hvalue -> string.
Variable comments_contains : header -> string -> bool.
Variable comments_getitem : header -> string -> string.
Variable XISF_write :
  xisf_args -> gmap Fs.path Fs.node -> res (Z * string) * gmap Fs.path Fs.node.
Variable time_at : nat -> float.
Variable as_completed : list (string * string) -> list (string * string).

Local Abbreviation convert :=
  (convert_fits_to_xisf fits_decode_data fits_decode_header header_keys header_getitem
     py_str comments_contains comments_getitem XISF_write).
Local Abbreviation handle :=
  (handle_future fits_decode_data fits_decode_header header_keys header_getitem
     py_str comments_contains comments_getitem XISF_write time_at).
Local Abbreviation pool :=
  (run_pool fits_decode_data fits_decode_header header_keys header_getitem
     py_str comments_contains comments_getitem XISF_write time_at as_completed).
Local Abbreviation program :=
  (main fits_decode_data fits_decode_header header_keys header_getitem
     py_str comments_contains comments_getitem XISF_write time_at as_completed).

(** The body of the result loop, by the outcome of the worker. *)
Lemma handle_future_run (cfg : config) (src dst : string) (w : world) :
  handle cfg (src, dst) w =
  match convert src dst (codec cfg) (shuffle cfg) (level cfg) (creator cfg) w with
  | (Ret (nbytes, used_codec), w1, tr1) =>
      (Ret tt, snd (fst (retire time_at cfg src w1)),
       tr1 ++ EvPrint (MsgConverted src dst nbytes used_codec)
           :: snd (retire time_at cfg src w1))
  | (Raise e, w1, tr1) =>
      if is_Exception e
      then (Ret tt, w1, tr1 ++ [EvPrint (MsgFailed src (exn_str e))])
      else (Raise e, w1, tr1)
  end%list.
Proof.
  unfold handle_future, try_except, bind, print, emit.
  destruct (convert _ _ _ _ _ _ w) as [[[[nbytes used_codec]|e] w1] tr1]; simpl.
  - pose proof (retire_returns time_at cfg src w1) as Hr.
    destruct (retire time_at cfg src w1) as [[r w2] tr2]. simpl in *. now subst r.
  - destruct (is_Exception e); reflexivity.
Qed.

Lemma convert_no_remove (src dst codec : string) (shuffle : bool) (level : Z)
    (creator_app : string) (w : world) (ev : event) :
  In ev (snd (convert src dst codec shuffle level creator_app w)) -> is_remove ev = false.
Proof.
  rewrite convert_run.
  destruct (Fs.stat _ _) as [[c m|m]|]; simpl;
    try (intros [<-|[]]; reflexivity).
  destruct (fits_decode_data c); simpl; [|intros [<-|[]]; reflexivity].
  destruct (fits_decode_header c); simpl; [|intros [<-|[<-|[]]]; reflexivity].
  unfold write_with_fallback.
  destruct (XISF_write _ _) as [[x|e] fs1]; simpl.
  - intros [<-|[<-|[<-|[]]]]; reflexivity.
  - destruct (metadata_shape_rejected e).
    + destruct (XISF_write _ fs1). simpl. intros [<-|[<-|[<-|[<-|[]]]]]; reflexivity.
    + simpl. intros [<-|[<-|[<-|[]]]]; reflexivity.
Qed.

Lemma convert_no_outcome (src dst codec : string) (shuffle : bool) (level : Z)
    (creator_app : string) (w : world) :
  filter is_outcome (snd (convert src dst codec shuffle level creator_app w)) = [].
Proof.
  rewrite convert_run.
  destruct (Fs.stat _ _) as [[c m|m]|]; simpl; try reflexivity.
  destruct (fits_decode_data c); simpl; [|reflexivity].
  destruct (fits_decode_header c); simpl; [|reflexivity].
  unfold write_with_fallback.
  destruct (XISF_write _ _) as [[x|e] fs1]; simpl; [reflexivity|].
  destruct (metadata_shape_rejected e); [|reflexivity].
  now destruct (XISF_write _ fs1).
Qed.

Lemma retire_removes_src (cfg : config) (src : string) (w : world) (ev : event) :
  In ev (snd (retire time_at cfg src w)) -> is_remove ev = true -> ev = EvRemove src.
Proof.
  rewrite retire_run. cbv zeta. unfold remove_step.
  destruct (_ =? -1); [intros []|].
  destruct (_ =? 0).
  { destruct (unlink _ _); simpl; intros [<-|[<-|[]]]; (reflexivity || discriminate). }
  destruct (Fs.getmtime _ _).
  - destruct (float_ge_int _ _).
    + destruct (unlink _ _); simpl; intros [<-|[<-|[<-|[<-|[]]]]];
        (reflexivity || discriminate).
    + destruct (0 <? _); simpl; intros H; decompose [or] H; subst;
        (contradiction || discriminate).
  - destruct (0 <? _); simpl; intros H; decompose [or] H; subst;
      (contradiction || discriminate).
Qed.


Lemma handle_future_removes (cfg : config) (task : string * string) (w : world) :
  removes_follow_success (snd (handle cfg task w)).
Proof.
  destruct task as [src dst]. rewrite handle_future_run.
  pose proof (convert_no_remove src dst (codec cfg) (shuffle cfg) (level cfg) (creator cfg) w)
    as Hconv.
  destruct (convert _ _ _ _ _ _ w) as [[[[nbytes used_codec]|e] w1] tr1]; simpl in *.
  - intros tr0 p tr2 Heq.
    assert (Hin : In (EvRemove p)
                     (tr1 ++ EvPrint (MsgConverted src dst nbytes used_codec)
                          :: snd (retire time_at cfg src w1))).
    { rewrite Heq. apply in_or_app. right. now left. }
    apply in_app_or in Hin as [Hin|[Hin|Hin]].
    + apply Hconv in Hin. discriminate.
    + discriminate.
    + apply retire_removes_src in Hin; [|reflexivity]. inversion Hin; subst p.
      exists dst, nbytes, used_codec.
      apply app_eq_app in Heq as [l [[-> Heq]|[-> Heq]]].
      * destruct l as [|ev l]; [discriminate|]. simpl in Heq. inversion Heq; subst.
        specialize (Hconv (EvRemove src)). rewrite in_app_iff in Hconv.
        discriminate Hconv. right. now left.
      * apply in_or_app. right. destruct l as [|ev l]; [discriminate|].
        inversion Heq. now left.
  - destruct (is_Exception e); simpl.
    + apply removes_follow_success_none. intros ev Hin.
      apply in_app_or in Hin as [Hin|[<-|[]]]; [now apply Hconv | reflexivity].
    + apply removes_follow_success_none. exact Hconv.
Qed.

Lemma main_run (cfg : config) (t : tree) (w : world) :
  program cfg t w =
  if Fs.isdir (w_fs w) (input_dir cfg) then
    match os_makedirs time_at (output_dir cfg) w with
    | (Ret _, w1, t1) =>
        match enumerate time_at cfg t w1 with
        | (Ret fits_tasks, w2, t2) =>
            (fst (fst (pool cfg fits_tasks w2)), snd (fst (pool cfg fits_tasks w2)),
             EvIsdir (input_dir cfg)
               :: t1 ++ t2 ++ EvPrint (MsgConverting (length fits_tasks) (workers cfg))
               :: snd (pool cfg fits_tasks w2))
        | (Raise e, w2, t2) => (Raise e, w2, EvIsdir (input_dir cfg) :: t1 ++ t2)
        end
    | (Raise e, w1, t1) => (Raise e, w1, EvIsdir (input_dir cfg) :: t1)
    end
  else (Raise (Exn SystemExit "1"), w,
        [EvIsdir (input_dir cfg); EvPrint (MsgNotAFolder (input_dir cfg))])%list.
Proof.
  unfold main, bind, os_path_isdir, print, emit, raise.
  destruct (Fs.isdir (w_fs w) (input_dir cfg)); simpl; [|reflexivity].
  destruct (os_makedirs _ _ w) as [[[[]|e] w1] t1]; [|reflexivity].
  destruct (enumerate _ _ _ w1) as [[[fits_tasks|e] w2] t2]; simpl.
  - now destruct (pool cfg fits_tasks w2) as [[r w3] t3].
  - reflexivity.
Qed.

Lemma run_pool_removes (cfg : config) (fits_tasks : list (string * string)) (w : world) :
  removes_follow_success (snd (pool cfg fits_tasks w)).
Proof.
  unfold run_pool. destruct (workers cfg <=? 0); [apply removes_follow_success_nil|].
  rewrite bind_run.
  assert (Hsub : forall w0, removes_follow_success
            (snd (forM_ (fun task => emit (EvSubmit (fst task) (snd task))) fits_tasks w0))).
  { apply (forM_trace removes_follow_success removes_follow_success_nil
             removes_follow_success_app).
    intros x w0 _. apply removes_follow_success_none. intros ev [<-|[]]. reflexivity. }
  specialize (Hsub w).
  destruct (forM_ _ fits_tasks w) as [[[[]|e] w1] t1]; simpl in *; [|exact Hsub].
  apply removes_follow_success_app; [exact Hsub|].
  apply (forM_trace removes_follow_success removes_follow_success_nil
           removes_follow_success_app).
  intros task w0 _. apply handle_future_removes.
Qed.

Lemma main_removes (cfg : config) (t : tree) (w : world) :
  removes_follow_success (snd (program cfg t w)).
Proof.
  assert (Hone : forall ev, is_remove ev = false -> removes_follow_success [ev]).
  { intros ev Hev. apply removes_follow_success_none. now intros ? [<-|[]]. }
  assert (Henum : forall tr, Forall (fun ev => is_enum_event ev = true) tr ->
                             removes_follow_success tr).
  { intros tr Hall. apply removes_follow_success_none. intros ev Hin.
    rewrite Forall_forall in Hall. apply list_elem_of_In, Hall in Hin. now destruct ev. }
  rewrite main_run.
  destruct (Fs.isdir _ _); [|apply removes_follow_success_none;
    intros ev [<-|[<-|[]]]; reflexivity].
  pose proof (os_makedirs_events time_at (output_dir cfg) w) as Hm.
  destruct (os_makedirs _ _ w) as [[[[]|e] w1] t1]; simpl in Hm; subst t1.
  - pose proof (enumerate_events time_at cfg t w1) as He.
    destruct (enumerate _ _ _ w1) as [[[fits_tasks|e] w2] t2]; simpl in *.
    + apply (removes_follow_success_app [_; _]);
        [apply (removes_follow_success_app [_] [_]); now apply Hone|].
      apply removes_follow_success_app; [now apply Henum|].
      apply (removes_follow_success_app [_]); [now apply Hone|].
      apply run_pool_removes.
    + apply (removes_follow_success_app [_; _]);
        [apply (removes_follow_success_app [_] [_]); now apply Hone|].
      now apply Henum.
  - simpl. apply (removes_follow_success_app [_] [_]); now apply Hone.
Qed.


(** C2.  When the conversion of a task fails, the loop prints the failure
    and does nothing else: it leaves the world as the worker left it and
    calls [os.remove] on nothing.  In a whole run every call of
    [os.remove] comes after the report of a successful conversion of that
    source, so a source that no task converted is not removed. *)
Theorem failed_conversion_never_retires :
  (forall cfg src dst w e w1 tr1,
      convert src dst (codec cfg) (shuffle cfg) (level cfg) (creator cfg) w
        = (Raise e, w1, tr1) ->
      snd (fst (handle cfg (src, dst) w)) = w1
      /\ (forall ev, In ev (snd (handle cfg (src, dst) w)) -> is_remove ev = false)
      /\ (is_Exception e = true ->
          handle cfg (src, dst) w
            = (Ret tt, w1, (tr1 ++ [EvPrint (MsgFailed src (exn_str e))])%list)))
  /\ (forall cfg t w, removes_follow_success (snd (program cfg t w)))
  /\ (forall cfg t w src,
        (forall dst nbytes used_codec,
            ~ In (EvPrint (MsgConverted src dst nbytes used_codec)) (snd (program cfg t w))) ->
        ~ In (EvRemove src) (snd (program cfg t w))).
Proof.
  split; [|split].
  - intros cfg src dst w e w1 tr1 Hconv.
    pose proof (convert_no_remove src dst (codec cfg) (shuffle cfg) (level cfg)
                  (creator cfg) w) as Hnr.
    rewrite handle_future_run, Hconv. rewrite Hconv in Hnr. simpl in Hnr.
    destruct (is_Exception e); simpl.
    + split; [reflexivity|]. split; [|reflexivity].
      intros ev Hin. apply in_app_or in Hin as [Hin|[<-|[]]]; [now apply Hnr | reflexivity].
    + split; [reflexivity|]. split; [exact Hnr | discriminate].
  - apply main_removes.
  - intros cfg t w src Hnone Hin.
    apply in_split in Hin as (tr1 & tr2 & Heq).
    destruct (main_removes cfg t w tr1 src tr2 Heq) as (dst & n & c & Hc).
    apply (Hnone dst n c). rewrite Heq. apply in_or_app. now left.
Qed.

Section Caught.

(** The decoder and the encoder fail with exceptions, not with a
    [SystemExit] or a [KeyboardInterrupt]. *)
Hypothesis data_errors : forall c e, fits_decode_data c = Raise e -> is_Exception e = true.
Hypothesis header_errors : forall c e, fits_decode_header c = Raise e -> is_Exception e = true.
Hypothesis write_errors : forall a fs e, fst (XISF_write a fs) = Raise e -> is_Exception e = true.
Hypothesis as_completed_all : forall l, Permutation (as_completed l) l.

Lemma convert_raises_Exception (src dst codec : string) (shuffle : bool) (level : Z)
    (creator_app : string) (w : world) (e : exn) :
  fst (fst (convert src dst codec shuffle level creator_app w)) = Raise e ->
  is_Exception e = true.
Proof.
  rewrite convert_run.
  destruct (Fs.stat _ _) as [[c m|m]|]; simpl;
    try (intros H; inversion H; reflexivity).
  destruct (fits_decode_data c) eqn:Hd; simpl;
    [|intros H; inversion H; subst; eapply data_errors; eassumption].
  destruct (fits_decode_header c) eqn:Hh; simpl;
    [|intros H; inversion H; subst; eapply header_errors; eassumption].
  unfold write_with_fallback.
  destruct (XISF_write _ (w_fs w)) as [[x|e1] fs1] eqn:H1; simpl; [discriminate|].
  destruct (metadata_shape_rejected e1).
  - destruct (XISF_write _ fs1) as [r2 fs2] eqn:H2. simpl. intros ->.
    eapply write_errors. rewrite H2. reflexivity.
  - simpl. intros H; inversion H; subst. eapply write_errors. rewrite H1. reflexivity.
Qed.



End Caught.

End Scheduler.

Lemma toy_data_errors (c : string) (e : exn) :
  Toy.decode_data c = Raise e -> is_Exception e = true.
Proof. unfold Toy.decode_data. destruct (Toy.valid c); intros H; inversion H; reflexivity. Qed.

Lemma toy_header_errors (c : string) (e : exn) :
  Toy.decode_header c = Raise e -> is_Exception e = true.
Proof. unfold Toy.decode_header. destruct (Toy.valid c); intros H; inversion H; reflexivity. Qed.

Lemma toy_write_errors (a : xisf_args) (fs : gmap Fs.path Fs.node) (e : exn) :
  fst (Toy.XISF_write a fs) = Raise e -> is_Exception e = true.
Proof.
  unfold Toy.XISF_write. destruct (Toy.has_odd_keyword _); simpl.
  - intros H; inversion H; reflexivity.
  - destruct (_ || _); simpl; intros H; inversion H; reflexivity.
Qed.

(** ** The store only grows during the enumeration *)

Lemma grows_refl (fs : gmap Fs.path Fs.node) : grows fs fs.
Proof. intros r. destruct (fs !! r) as [[c m|m]|] eqn:E; eauto. Qed.

Lemma grows_trans (fs1 fs2 fs3 : gmap Fs.path Fs.node) :
  grows fs1 fs2 -> grows fs2 fs3 -> grows fs1 fs3.
Proof.
  intros H12 H23 r. specialize (H12 r). specialize (H23 r).
  destruct (fs1 !! r) as [[c m|m]|]; [| |exact I].
  - destruct H12 as [n Hn]. rewrite Hn in H23. destruct n; [exact H23|].
    destruct H23 as [m' ->]. eauto.
  - destruct H12 as [m' Hm]. now rewrite Hm in H23.
Qed.

Lemma grows_insert_dir (fs : gmap Fs.path Fs.node) (r : Fs.path) (now : float) :
  fs !! r = None -> grows fs (<[r := Fs.Dir now]> fs).
Proof.
  intros Hr q. destruct (decide (r = q)) as [->|Hne].
  - now rewrite Hr.
  - rewrite lookup_insert_ne by exact Hne. apply grows_refl.
Qed.

Lemma grows_insert_file (fs : gmap Fs.path Fs.node) (r : Fs.path) (c : string) (m : float) :
  (forall m', fs !! r <> Some (Fs.Dir m')) -> grows fs (<[r := Fs.File c m]> fs).
Proof.
  intros Hr q. destruct (decide (r = q)) as [->|Hne].
  - destruct (fs !! q) as [[c' m'|m']|] eqn:E; [|now destruct (Hr m')|exact I].
    rewrite lookup_insert_eq. eauto.
  - rewrite lookup_insert_ne by exact Hne. apply grows_refl.
Qed.

Lemma grows_stat (fs fs' : gmap Fs.path Fs.node) (p : string) :
  grows fs fs' ->
  match Fs.stat fs p with
  | Some (Fs.Dir _) => exists m, Fs.stat fs' p = Some (Fs.Dir m)
  | Some (Fs.File _ _) => is_Some (Fs.stat fs' p)
  | None => True
  end.
Proof.
  intros Hg. unfold Fs.stat. destruct (String.eqb p ""); [exact I|].
  destruct (Fs.resolve p) as [|x r]; [eauto|]. apply Hg.
Qed.


Lemma grows_isdir (fs fs' : gmap Fs.path Fs.node) (p : string) :
  grows fs fs' -> Fs.isdir fs p = true -> Fs.isdir fs' p = true.
Proof.
  intros Hg. pose proof (grows_stat fs fs' p Hg) as H. unfold Fs.isdir.
  destruct (Fs.stat fs p) as [[c m|m]|]; try discriminate.
  destruct H as [m' ->]. reflexivity.
Qed.

Lemma mkdir_p_grows (now : float) (rest pre : Fs.path) (fs : gmap Fs.path Fs.node) :
  grows fs (fst (Fs.mkdir_p now pre rest fs)).
Proof.
  revert pre fs. induction rest as [|c rest IH]; intros pre fs; simpl; [apply grows_refl|].
  destruct (fs !! (pre ++ [c])%list) as [[c' m|m]|] eqn:E; simpl.
  - apply grows_refl.
  - apply IH.
  - eapply grows_trans; [apply grows_insert_dir; exact E | apply IH].
Qed.

Lemma mkdir_p_makes (now : float) (rest pre : Fs.path) (fs : gmap Fs.path Fs.node) :
  snd (Fs.mkdir_p now pre rest fs) = true ->
  rest <> [] ->
  exists m, fst (Fs.mkdir_p now pre rest fs) !! (pre ++ rest)%list = Some (Fs.Dir m).
Proof.
  revert pre fs. induction rest as [|c rest IH]; intros pre fs Hok Hne; [contradiction|].
  simpl in *.
  assert (Hstep : forall fs1, (exists m, fs1 !! (pre ++ [c])%list = Some (Fs.Dir m)) ->
            snd (Fs.mkdir_p now (pre ++ [c])%list rest fs1) = true ->
            exists m, fst (Fs.mkdir_p now (pre ++ [c])%list rest fs1) !! (pre ++ c :: rest)%list
                      = Some (Fs.Dir m)).
  { intros fs1 [m Hm] Hok1. destruct rest as [|c2 rest].
    - simpl. exists m. exact Hm.
    - replace (pre ++ c :: c2 :: rest)%list with ((pre ++ [c]) ++ c2 :: rest)%list
        by now rewrite <- app_assoc.
      apply IH; [exact Hok1 | discriminate]. }
  destruct (fs !! (pre ++ [c])%list) as [[c' m|m]|] eqn:E; simpl in *.
  - discriminate.
  - apply Hstep; eauto.
  - apply Hstep; [|exact Hok]. exists now. apply lookup_insert_eq.
Qed.

Lemma copy2_grows (fs fs' : gmap Fs.path Fs.node) (src dst : string) :
  Fs.copy2 fs src dst = Some fs' -> grows fs fs'.
Proof.
  unfold Fs.copy2. destruct (Fs.stat fs src) as [[c m|m]|]; try discriminate.
  destruct (bool_decide _); [discriminate|].
  destruct (Fs.isdir fs (Fs.copy_target fs src dst)) eqn:Hd; [discriminate|].
  destruct (String.eqb (Fs.copy_target fs src dst) "") eqn:He; [discriminate|].
  destruct (Fs.parent_is_dir _ _); [|discriminate].
  intros H; inversion H; subst fs'. apply grows_insert_file.
  intros m' Hm. unfold Fs.isdir, Fs.stat in Hd. rewrite He in Hd.
  destruct (Fs.resolve (Fs.copy_target fs src dst)); [discriminate|].
  simpl in Hd. rewrite Hm in Hd. discriminate.
Qed.

(** The bytes and the modification time of the source are at the target
    after [shutil.copy2]. *)
Lemma copy2_copies (fs fs' : gmap Fs.path Fs.node) (src dst : string) :
  Fs.copy2 fs src dst = Some fs' ->
  exists c m,
    Fs.stat fs src = Some (Fs.File c m)
    /\ Fs.stat fs' (Fs.copy_target fs src dst) = Some (Fs.File c m).
Proof.
  unfold Fs.copy2. destruct (Fs.stat fs src) as [[c m|m]|]; try discriminate.
  destruct (bool_decide _); [discriminate|].
  destruct (Fs.isdir fs (Fs.copy_target fs src dst)) eqn:Hd; [discriminate|].
  destruct (String.eqb (Fs.copy_target fs src dst) "") eqn:He; [discriminate|].
  destruct (Fs.parent_is_dir _ _); [|discriminate].
  intros H; inversion H; subst fs'. exists c, m. split; [reflexivity|].
  unfold Fs.stat. rewrite He. unfold Fs.isdir, Fs.stat in Hd. rewrite He in Hd.
  destruct (Fs.resolve (Fs.copy_target fs src dst)) as [|x r]; [discriminate|].
  apply lookup_insert_eq.
Qed.

(** ** The state along a loop *)

Lemma foldM_grows {A B} (body : B -> A -> M B) (l : list A) :
  (forall acc x w, grows (w_fs w) (w_fs (snd (fst (body acc x w))))) ->
  forall acc w, grows (w_fs w) (w_fs (snd (fst (foldM body acc l w)))).
Proof.
  intros Hb. induction l as [|x l IH]; intros acc w; simpl; [apply grows_refl|].
  rewrite bind_run. specialize (Hb acc x w).
  destruct (body acc x w) as [[[acc'|e] w1] t1]; simpl in *; [|exact Hb].
  eapply grows_trans; [exact Hb | apply IH].
Qed.

Lemma foldM_keep {A B} (body : B -> A -> M B) (Q : world -> Prop) (l : list A) :
  (forall acc x w, Q w -> Q (snd (fst (body acc x w)))) ->
  forall acc w, Q w -> Q (snd (fst (foldM body acc l w))).
Proof.
  intros Hb. induction l as [|x l IH]; intros acc w Hq; simpl; [exact Hq|].
  rewrite bind_run. specialize (Hb acc x w Hq).
  destruct (body acc x w) as [[[acc'|e] w1] t1]; simpl in *; [|exact Hb].
  now apply IH.
Qed.

Lemma foldM_establish {A B} (body : B -> A -> M B) (Q : A -> world -> Prop) (l : list A) :
  (forall acc x w r w' tr, body acc x w = (Ret r, w', tr) -> Q x w') ->
  (forall acc x w y, Q y w -> Q y (snd (fst (body acc x w)))) ->
  forall acc w r w' tr,
    foldM body acc l w = (Ret r, w', tr) -> forall x, In x l -> Q x w'.
Proof.
  intros Hest Hkeep. induction l as [|x l IH]; intros acc w r w' tr Hrun y Hy; [destruct Hy|].
  simpl in Hrun. rewrite bind_run in Hrun.
  destruct (body acc x w) as [[[acc'|e] w1] t1] eqn:Hb; [|discriminate].
  simpl in Hrun.
  pose proof (foldM_keep body (Q x) l (fun a z w0 => Hkeep a z w0 x) acc' w1) as Hk.
  destruct (foldM body acc' l w1) as [[r2 w2] t2] eqn:Hf. simpl in Hrun, Hk.
  inversion Hrun; subst. destruct Hy as [<-|Hy].
  - apply Hk. eapply Hest. exact Hb.
  - eapply IH; eassumption.
Qed.

Lemma foldM_trace_In {A B} (body : B -> A -> M B) (l : list A) (x : A) :
  forall acc w r w' tr,
    foldM body acc l w = (Ret r, w', tr) -> In x l ->
    exists acc0 w0 r0 w1 t0,
      body acc0 x w0 = (Ret r0, w1, t0) /\ forall ev, In ev t0 -> In ev tr.
Proof.
  induction l as [|y l IH]; intros acc w r w' tr Hrun Hx; [destruct Hx|].
  simpl in Hrun. rewrite bind_run in Hrun.
  destruct (body acc y w) as [[[acc'|e] w1] t1] eqn:Hb; [|discriminate].
  simpl in Hrun. destruct (foldM body acc' l w1) as [[r2 w2] t2] eqn:Hf. simpl in Hrun.
  inversion Hrun; subst. destruct Hx as [->|Hx].
  - exists acc, w, acc', w1, t1. split; [exact Hb|].
    intros ev Hev. apply in_or_app. now left.
  - destruct (IH acc' w1 r w' t2 Hf Hx) as (acc0 & w0 & r0 & w3 & t0 & Hb0 & H).
    exists acc0, w0, r0, w3, t0. split; [exact Hb0|].
    intros ev Hev. apply in_or_app. right. now apply H.
Qed.

(** ** The mirror of the tree *)

Lemma mirror_made_first_nil (cfg : config)
    (entries : list (string * list string * list string)) :
  mirror_made_first cfg entries [].
Proof. intros [|? ?] ev tr2 H; discriminate. Qed.

Lemma mirror_made_first_app (cfg : config)
    (entries : list (string * list string * list string)) (t1 t2 : list event) :
  mirror_made_first cfg entries t1 -> mirror_made_first cfg entries t2 ->
  mirror_made_first cfg entries (t1 ++ t2).
Proof.
  intros H1 H2 tr1 ev tr2 Heq Hev.
  apply app_eq_app in Heq as [l [[-> Heq]|[-> Heq]]].
  - destruct l as [|ev' l]; simpl in Heq.
    + apply (H2 [] ev tr2 (eq_sym Heq)) in Hev
        as (root & dirs & files & fn & _ & _ & _ & []).
    + inversion Heq; subst. eapply H1; [reflexivity | assumption].
  - destruct (H2 l ev tr2 Heq Hev) as (root & dirs & files & fn & He & Hf & Hfe & Hin).
    exists root, dirs, files, fn. repeat split; try assumption.
    apply in_or_app. now right.
Qed.

Section Mirror.

Variable time_at : nat -> float.

Lemma os_makedirs_spec (p : string) (w : world) :
  grows (w_fs w) (w_fs (snd (fst (os_makedirs time_at p w))))
  /\ (fst (fst (os_makedirs time_at p w)) = Ret tt ->
      Fs.isdir (w_fs (snd (fst (os_makedirs time_at p w)))) p = true).
Proof.
  unfold os_makedirs. destruct (String.eqb p "") eqn:Hp; simpl.
  { split; [apply grows_refl | discriminate]. }
  pose proof (mkdir_p_grows (time_at (w_tick w)) (Fs.resolve p) [] (w_fs w)) as Hg.
  pose proof (mkdir_p_makes (time_at (w_tick w)) (Fs.resolve p) [] (w_fs w)) as Hm.
  destruct (Fs.mkdir_p _ _ _ _) as [fs' ok]. simpl in *.
  destruct ok; simpl; (split; [exact Hg|]); [|discriminate].
  intros _. unfold Fs.isdir, Fs.stat. rewrite Hp.
  destruct (Fs.resolve p) as [|x r]; [reflexivity|].
  destruct (Hm eq_refl) as [m ->]; [discriminate | reflexivity].
Qed.

Lemma enumerate_file_grows (cfg : config) (root dest_root : string)
    (fits_tasks : list (string * string)) (fn : string) (w : world) :
  grows (w_fs w) (w_fs (snd (fst (enumerate_file cfg root dest_root fits_tasks fn w)))).
Proof.
  rewrite enumerate_file_run. cbv zeta. destruct (is_fits fn).
  - destruct (_ && _); apply grows_refl.
  - destruct (Fs.copy2 _ _ _) eqn:Hc; simpl; [|apply grows_refl].
    eapply copy2_grows. exact Hc.
Qed.

Lemma enumerate_dir_grows (cfg : config) (fits_tasks : list (string * string))
    (entry : string * list string * list string) (w : world) :
  grows (w_fs w) (w_fs (snd (fst (enumerate_dir time_at cfg fits_tasks entry w)))).
Proof.
  destruct entry as [[root dirs] files]. unfold enumerate_dir. rewrite bind_run.
  destruct (os_makedirs_spec (PyStr.join (output_dir cfg) (Fs.relpath root (input_dir cfg))) w)
    as [Hg _].
  destruct (os_makedirs _ _ w) as [[[[]|e] w1] t1]; simpl in *; [|exact Hg].
  eapply grows_trans; [exact Hg|].
  apply foldM_grows. intros. apply enumerate_file_grows.
Qed.

Lemma enumerate_grows (cfg : config) (t : tree) (w : world) :
  grows (w_fs w) (w_fs (snd (fst (enumerate time_at cfg t w)))).
Proof. unfold enumerate. apply foldM_grows. intros. apply enumerate_dir_grows. Qed.

Lemma enumerate_files_events (cfg : config) (root : string) (files : list string)
    (fits_tasks : list (string * string)) (w : world) :
  Forall (fun ev => exists fn, In fn files /\ file_event cfg root fn ev)
         (snd (foldM (enumerate_file cfg root (dest_root_of cfg root)) fits_tasks files w)).
Proof.
  apply (foldM_trace (fun tr =>
           Forall (fun ev => exists fn, In fn files /\ file_event cfg root fn ev) tr)).
  - constructor.
  - intros t1 t2 H1 H2. apply Forall_app; now split.
  - intros acc fn w' Hfn. rewrite enumerate_file_run. cbv zeta. unfold file_event.
    destruct (is_fits fn).
    + destruct (_ && _); simpl; repeat constructor; exists fn; auto.
    + destruct (Fs.copy2 _ _ _); simpl; repeat constructor; exists fn; auto.
Qed.

Lemma enumerate_dir_mirror (cfg : config)
    (entries : list (string * list string * list string))
    (fits_tasks : list (string * string))
    (entry : string * list string * list string) (w : world) :
  In entry entries ->
  mirror_made_first cfg entries (snd (enumerate_dir time_at cfg fits_tasks entry w)).
Proof.
  destruct entry as [[root dirs] files]. intros Hin. unfold enumerate_dir.
  rewrite bind_run. fold (dest_root_of cfg root).
  pose proof (os_makedirs_events time_at (dest_root_of cfg root) w) as Hm.
  destruct (os_makedirs _ _ w) as [[[[]|e] w1] t1]; simpl in Hm; subst t1.
  - pose proof (enumerate_files_events cfg root files fits_tasks w1) as Hall.
    simpl. intros tr1 ev tr2 Heq Hev.
    destruct tr1 as [|ev0 tr1]; simpl in Heq; inversion Heq; subst.
    { now destruct (Hev (dest_root_of cfg root)). }
    rewrite H1 in Hall. rewrite Forall_forall in Hall.
    destruct (Hall ev) as (fn & Hfn & Hfe).
    { apply list_elem_of_In, in_or_app. right. now left. }
    exists root, dirs, files, fn. repeat split; try assumption. now left.
  - intros tr1 ev tr2 Heq Hev. simpl in Heq.
    destruct tr1 as [|ev0 [|? ?]]; simpl in Heq; inversion Heq; subst.
    now destruct (Hev (dest_root_of cfg root)).
Qed.

End Mirror.

(** ** The two phases of a run *)

Lemma result_event_not_copy (ev : event) : is_result_event ev = true -> is_copy ev = false.
Proof. now destruct ev. Qed.

Lemma enum_event_not_pool (ev : event) : is_enum_event ev = true -> is_pool_event ev = false.
Proof. now destruct ev. Qed.

(** In a trace made of a part without pool events and a part without
    copies, no copy comes after a pool event. *)
Lemma phases_split (a b : list event) :
  Forall (fun ev => is_pool_event ev = false) a ->
  Forall (fun ev => is_copy ev = false) b ->
  forall tr1 ev tr2,
    (a ++ b)%list = (tr1 ++ ev :: tr2)%list -> is_pool_event ev = true ->
    forall ev', In ev' tr2 -> is_copy ev' = false.
Proof.
  intros Ha Hb tr1 ev tr2 Heq Hev ev' Hin.
  rewrite Forall_forall in Ha, Hb.
  apply app_eq_app in Heq as [l [[-> Heq]|[-> Heq]]].
  - destruct l as [|ev0 l]; simpl in Heq.
    + apply Hb. rewrite <- Heq. apply list_elem_of_In. now right.
    + inversion Heq; subst.
      match goal with
      | H : is_pool_event ?e = true |- _ => rewrite (Ha e) in H; [discriminate|]
      end.
      apply list_elem_of_In, in_or_app. right. now left.
  - apply Hb. rewrite Heq. apply list_elem_of_In, in_or_app. right. now right.
Qed.

Section Phases.

Context {header hvalue : Type}.
Variable fits_decode_data : string -> res Numpy.ndarray.
Variable fits_decode_header : string -> res header.
Variable header_keys : header -> list string.
Variable header_getitem : header -> string -> hvalue.
Variable py_str : hvalue -> string.
Variable comments_contains : header -> string -> bool.
Variable comments_getitem : header -> string -> string.
Variable XISF_write :
  xisf_args -> gmap Fs.path Fs.node -> res (Z * string) * gmap Fs.path Fs.node.
Variable time_at : nat -> float.
Variable as_completed : list (string * string) -> list (string * string).

Local Abbreviation convert :=
  (convert_fits_to_xisf fits_decode_data fits_decode_header header_keys header_getitem
     py_str comments_contains comments_getitem XISF_write).
Local Abbreviation handle :=
  (handle_future fits_decode_data fits_decode_header header_keys header_getitem
     py_str comments_contains comments_getitem XISF_write time_at).
Local Abbreviation pool :=
  (run_pool fits_decode_data fits_decode_header header_keys header_getitem
     py_str comments_contains comments_getitem XISF_write time_at as_completed).
Local Abbreviation program :=
  (main fits_decode_data fits_decode_header header_keys header_getitem
     py_str comments_contains comments_getitem XISF_write time_at as_completed).

Lemma convert_events (src dst codec : string) (shuffle : bool) (level : Z)
    (creator_app : string) (w : world) :
  Forall (fun ev => is_result_event ev = true)
         (snd (convert src dst codec shuffle level creator_app w)).
Proof.
  rewrite convert_run.
  destruct (Fs.stat _ _) as [[c m|m]|]; simpl; try (repeat constructor).
  destruct (fits_decode_data c); simpl; [|repeat constructor].
  destruct (fits_decode_header c); simpl; [|repeat constructor].
  unfold write_with_fallback.
  destruct (XISF_write _ _) as [[x|e] fs1]; simpl; [repeat constructor|].
  destruct (metadata_shape_rejected e); [|repeat constructor].
  destruct (XISF_write _ fs1). repeat constructor.
Qed.

Lemma retire_events (cfg : config) (src : string) (w : world) :
  Forall (fun ev => is_result_event ev = true) (snd (retire time_at cfg src w)).
Proof.
  rewrite retire_run. cbv zeta. unfold remove_step.
  destruct (_ =? -1); [constructor|].
  destruct (_ =? 0); [destruct (unlink _ _); repeat constructor|].
  destruct (Fs.getmtime _ _).
  - destruct (float_ge_int _ _); [destruct (unlink _ _); repeat constructor|].
    destruct (0 <? _); repeat constructor.
  - destruct (0 <? _); repeat constructor.
Qed.

Lemma handle_future_events (cfg : config) (task : string * string) (w : world) :
  Forall (fun ev => is_result_event ev = true) (snd (handle cfg task w)).
Proof.
  destruct task as [src dst]. rewrite handle_future_run.
  pose proof (convert_events src dst (codec cfg) (shuffle cfg) (level cfg) (creator cfg) w)
    as Hc.
  destruct (convert _ _ _ _ _ _ w) as [[[[nbytes used_codec]|e] w1] tr1]; simpl in *.
  - apply Forall_app. split; [exact Hc|]. constructor; [reflexivity|]. apply retire_events.
  - destruct (is_Exception e); simpl; [|exact Hc].
    apply Forall_app. split; [exact Hc|]. repeat constructor.
Qed.

Lemma run_pool_events (cfg : config) (fits_tasks : list (string * string)) (w : world) :
  Forall (fun ev => is_result_event ev = true) (snd (pool cfg fits_tasks w)).
Proof.
  assert (Happ : forall t1 t2 : list event,
             Forall (fun ev => is_result_event ev = true) t1 ->
             Forall (fun ev => is_result_event ev = true) t2 ->
             Forall (fun ev => is_result_event ev = true) (t1 ++ t2)).
  { intros t1 t2 H1 H2. apply Forall_app. now split. }
  assert (Hnil : Forall (fun ev => is_result_event ev = true) []) by constructor.
  unfold run_pool. destruct (workers cfg <=? 0); [constructor|].
  rewrite bind_run.
  assert (Hs : Forall (fun ev => is_result_event ev = true)
                 (snd (forM_ (fun task => emit (EvSubmit (fst task) (snd task)))
                         fits_tasks w))).
  { apply (forM_trace (fun tr => Forall (fun ev => is_result_event ev = true) tr) Hnil Happ).
    intros x w0 _. simpl. repeat constructor. }
  destruct (forM_ _ fits_tasks w) as [[[[]|e] w1] t1]; simpl in *; [|exact Hs].
  apply Happ; [exact Hs|].
  apply (forM_trace (fun tr => Forall (fun ev => is_result_event ev = true) tr) Hnil Happ).
  intros task w0 _. apply handle_future_events.
Qed.

(** C9.  A file whose name does not end in [.fits] is passed to
    [shutil.copy2] with the same name under the mirror of its directory,
    in the very step of the enumeration that meets it.  When that step
    returns, the bytes and the modification time of the source are at
    that path, unless a directory stands there: then they are inside that
    directory, under the name of the source, and the path is still the
    directory.  A copy that fails ends the step with its [OSError].  When
    the enumeration ends every such file has had its call, and in a run
    no copy comes after the first task is submitted to the pool. *)
Theorem pass_through_copied_during_enumeration (cfg : config) (t : tree) (w : world) :
  (forall fits_tasks w' tr,
      enumerate time_at cfg t w = (Ret fits_tasks, w', tr) ->
      forall root dirs files fn,
        In (root, dirs, files) (walk (input_dir cfg) t) -> In fn files ->
        is_fits fn = false ->
        In (EvCopy2 (PyStr.join root fn) (PyStr.join (dest_root_of cfg root) fn)) tr)
  /\ (forall root fits_tasks fn w0 r w1 tr,
        is_fits fn = false ->
        enumerate_file cfg root (dest_root_of cfg root) fits_tasks fn w0 = (Ret r, w1, tr) ->
        let src := PyStr.join root fn in
        let dst := PyStr.join (dest_root_of cfg root) fn in
        r = fits_tasks /\ tr = [EvCopy2 src dst]
        /\ exists c m,
             Fs.stat (w_fs w0) src = Some (Fs.File c m)
             /\ if Fs.isdir (w_fs w0) dst
                then Fs.isdir (w_fs w1) dst = true
                     /\ Fs.stat (w_fs w1) (PyStr.join dst (Fs.basename src))
                        = Some (Fs.File c m)
                else Fs.stat (w_fs w1) dst = Some (Fs.File c m))
  /\ (forall root fits_tasks fn w0 e w1 tr,
        is_fits fn = false ->
        enumerate_file cfg root (dest_root_of cfg root) fits_tasks fn w0 = (Raise e, w1, tr) ->
        exn_cls e = OSError /\ w1 = w0
        /\ tr = [EvCopy2 (PyStr.join root fn) (PyStr.join (dest_root_of cfg root) fn)])
  /\ (forall tr1 ev tr2,
        snd (program cfg t w) = (tr1 ++ ev :: tr2)%list ->
        is_pool_event ev = true ->
        forall ev', In ev' tr2 -> is_copy ev' = false).
Proof.
  split; [|split; [|split]].
  - intros fits_tasks w' tr Hrun root dirs files fn Hin Hfn Hnf. unfold enumerate in Hrun.
    destruct (foldM_trace_In _ _ (root, dirs, files) _ _ _ _ _ Hrun Hin)
      as (acc0 & w0 & r0 & w1 & t0 & Hb & Hsub).
    apply Hsub. unfold enumerate_dir in Hb. rewrite bind_run in Hb.
    fold (dest_root_of cfg root) in Hb.
    destruct (os_makedirs _ _ w0) as [[[[]|e] w2] t2]; simpl in Hb; [|discriminate].
    destruct (foldM _ acc0 files w2) as [[r3 w3] t3] eqn:Hf. simpl in Hb.
    inversion Hb; subst.
    destruct (foldM_trace_In _ _ fn _ _ _ _ _ Hf Hfn)
      as (acc1 & w4 & r4 & w5 & t4 & Hb4 & Hsub4).
    apply in_or_app. right. apply Hsub4.
    rewrite enumerate_file_run in Hb4. cbv zeta in Hb4. rewrite Hnf in Hb4.
    destruct (Fs.copy2 _ _ _); inversion Hb4; now left.
  - intros root fits_tasks fn w0 r w1 tr Hnf Hrun src dst.
    rewrite enumerate_file_run in Hrun. cbv zeta in Hrun. rewrite Hnf in Hrun.
    fold src dst in Hrun.
    destruct (Fs.copy2 (w_fs w0) src dst) as [fs'|] eqn:Hc; inversion Hrun; subst.
    split; [reflexivity|]. split; [reflexivity|].
    cbn [w_fs with_fs].
    destruct (copy2_copies _ _ _ _ Hc) as (c & m & Hsrc & Ht).
    exists c, m. split; [exact Hsrc|].
    unfold Fs.copy_target in Ht. destruct (Fs.isdir (w_fs w0) dst) eqn:Hd.
    + split; [|exact Ht]. eapply grows_isdir; [|exact Hd]. eapply copy2_grows. exact Hc.
    + exact Ht.
  - intros root fits_tasks fn w0 e w1 tr Hnf Hrun.
    rewrite enumerate_file_run in Hrun. cbv zeta in Hrun. rewrite Hnf in Hrun.
    destruct (Fs.copy2 _ _ _); inversion Hrun; subst. now repeat split.
  - rewrite main_run.
    destruct (Fs.isdir _ _).
    2:{ intros tr1 ev tr2 Heq Hev.
        destruct tr1 as [|? [|? [|? ?]]]; inversion Heq; subst; discriminate. }
    pose proof (os_makedirs_events time_at (output_dir cfg) w) as Hm.
    destruct (os_makedirs _ _ w) as [[[[]|e] w1] t1]; simpl in Hm; subst t1.
    + pose proof (enumerate_events time_at cfg t w1) as He.
      assert (He' : Forall (fun ev => is_pool_event ev = false)
                      (snd (enumerate time_at cfg t w1))).
      { eapply Forall_impl; [exact He|]. intros ev. apply enum_event_not_pool. }
      destruct (enumerate _ _ _ w1) as [[[fits_tasks|e] w2] t2]; simpl in *.
      * pose proof (run_pool_events cfg fits_tasks w2) as Hp.
        apply (phases_split (EvIsdir (input_dir cfg) :: EvMakedirs (output_dir cfg) :: t2)
                 (EvPrint (MsgConverting (length fits_tasks) (workers cfg))
                    :: snd (pool cfg fits_tasks w2))).
        -- repeat (constructor; [reflexivity|]). exact He'.
        -- constructor; [reflexivity|].
           eapply Forall_impl; [exact Hp|]. intros ev. apply result_event_not_copy.
      * intros tr1 ev tr2 Heq Hev.
        assert (Hin : In ev (EvIsdir (input_dir cfg) :: EvMakedirs (output_dir cfg) :: t2)).
        { rewrite Heq. apply in_or_app. right. now left. }
        rewrite Forall_forall in He'.
        destruct Hin as [<-|[<-|Hin]]; try discriminate.
        apply list_elem_of_In, He' in Hin. congruence.
    + intros tr1 ev tr2 Heq Hev. simpl in Heq.
      destruct tr1 as [|? [|? [|? ?]]]; inversion Heq; subst; discriminate.
Qed.

End Phases.

(** C9 as the specification states it fails: where a directory stands at
    the mirrored path of a file, [shutil.copy2] copies into that
    directory.  When the enumeration ends, the mirrored path
    [out/./notes.txt] is still the directory, and the bytes of the source
    are at [out/./notes.txt/notes.txt]. *)
Lemma copy_into_a_directory_at_the_mirrored_path :
  let w := {| w_fs := list_to_map
                        [(["in"], Fs.Dir 0%float);
                         (["in"; "notes.txt"], Fs.File "seeing 1.2" 500000%float);
                         (["out"], Fs.Dir 0%float);
                         (["out"; "notes.txt"], Fs.Dir 0%float)];
              w_tick := 0; w_protected := ∅ |} in
  let run := enumerate Toy.time_at (Toy.cfg 5) (Node ["notes.txt"] []) w in
  is_fits "notes.txt" = false
  /\ PyStr.join (dest_root_of (Toy.cfg 5) "in") "notes.txt" = "out/./notes.txt"
  /\ fst (fst run) = Ret []
  /\ snd run = [EvMakedirs "out/."; EvCopy2 "in/notes.txt" "out/./notes.txt"]
  /\ Fs.stat (w_fs (snd (fst run))) "out/./notes.txt" = Some (Fs.Dir 0%float)
  /\ Fs.stat (w_fs (snd (fst run))) "out/./notes.txt/notes.txt"
     = Some (Fs.File "seeing 1.2" 500000%float).
Proof. vm_compute. repeat split. Qed.

(** ** Strings *)

Local Arguments String.append !s1 s2 : simpl nomatch.

Lemma str_app_nil_r (s : string) : s ++ "" = s.
Proof. induction s as [|a s IH]; simpl; [reflexivity | now rewrite IH]. Qed.

Lemma str_app_assoc (a b c : string) : (a ++ b) ++ c = a ++ (b ++ c).
Proof. induction a as [|x a IH]; simpl; [reflexivity | now rewrite IH]. Qed.

Lemma str_length_app (a b : string) :
  String.length (a ++ b) = (String.length a + String.length b)%nat.
Proof. induction a as [|x a IH]; simpl; [reflexivity | now rewrite IH]. Qed.

Lemma str_app_inv_tail (a c b d : string) :
  a ++ b = c ++ d -> String.length b = String.length d -> a = c /\ b = d.
Proof.
  revert c. induction a as [|x a IH]; intros [|y c] Heq Hlen; simpl in *.
  - now split.
  - subst b. simpl in Hlen. rewrite str_length_app in Hlen. lia.
  - subst d. simpl in Hlen. rewrite str_length_app in Hlen. lia.
  - inversion Heq; subst. destruct (IH c H1 Hlen) as [-> ->]. now split.
Qed.

Lemma rfind_ge (c : ascii) (s : string) : -1 <= PyStr.rfind c s.
Proof.
  induction s as [|a s IH]; simpl; [lia|].
  destruct (Z.leb_spec 0 (PyStr.rfind c s)); [lia|]. destruct (Ascii.eqb a c); lia.
Qed.

Lemma rfind_lt (c : ascii) (s : string) : PyStr.rfind c s < Z.of_nat (String.length s).
Proof.
  induction s as [|a s IH]; simpl String.length; simpl PyStr.rfind; [lia|].
  destruct (Z.leb_spec 0 (PyStr.rfind c s)); [lia|]. destruct (Ascii.eqb a c); lia.
Qed.

Lemma rfind_none (c : ascii) (s : string) :
  has_char c s = false -> PyStr.rfind c s = -1.
Proof.
  induction s as [|a s IH]; simpl; [reflexivity|].
  intros H. apply orb_false_iff in H as [Ha Hs]. rewrite (IH Hs), Ha. reflexivity.
Qed.

Lemma rfind_app (c : ascii) (a b : string) :
  PyStr.rfind c (a ++ b) =
  if 0 <=? PyStr.rfind c b then Z.of_nat (String.length a) + PyStr.rfind c b
  else PyStr.rfind c a.
Proof.
  induction a as [|x a IH]; simpl String.length; simpl PyStr.rfind.
  - destruct (Z.leb_spec 0 (PyStr.rfind c b)); [lia|]. pose proof (rfind_ge c b). lia.
  - rewrite IH. destruct (Z.leb_spec 0 (PyStr.rfind c b)).
    + destruct (Z.leb_spec 0 (Z.of_nat (String.length a) + PyStr.rfind c b)); lia.
    + reflexivity.
Qed.

Lemma take_app_length (a b : string) (n : nat) :
  PyStr.take (String.length a + n) (a ++ b) = a ++ PyStr.take n b.
Proof. induction a as [|x a IH]; simpl; [reflexivity | now rewrite IH]. Qed.

Lemma drop_app_length (a b : string) (n : nat) :
  PyStr.drop (String.length a + n) (a ++ b) = PyStr.drop n b.
Proof. induction a as [|x a IH]; simpl; [reflexivity | exact IH]. Qed.

Lemma take_drop (n : nat) (s : string) : PyStr.take n s ++ PyStr.drop n s = s.
Proof.
  revert s. induction n as [|n IH]; intros [|a s]; simpl; try reflexivity.
  now rewrite IH.
Qed.

Lemma has_char_app (c : ascii) (a b : string) :
  has_char c (a ++ b) = has_char c a || has_char c b.
Proof.
  induction a as [|x a IH]; simpl; [reflexivity|]. now rewrite IH, orb_assoc.
Qed.

Lemma has_char_take (c : ascii) (n : nat) (s : string) :
  has_char c s = false -> has_char c (PyStr.take n s) = false.
Proof.
  intros H. rewrite <- (take_drop n s), has_char_app in H.
  now apply orb_false_iff in H as [H _].
Qed.

Lemma endswith_app (p suf : string) : PyStr.endswith (p ++ suf) suf = true.
Proof.
  induction p as [|a p IH]; simpl.
  - destruct suf; simpl; rewrite ?Ascii.eqb_refl, ?String.eqb_refl; reflexivity.
  - rewrite IH. apply orb_true_r.
Qed.

Lemma endswith_spec (s suf : string) :
  PyStr.endswith s suf = true -> exists p, s = p ++ suf.
Proof.
  induction s as [|a s IH]; cbn [PyStr.endswith].
  - rewrite orb_false_r. intros H. apply String.eqb_eq in H. subst suf. now exists "".
  - intros H. apply orb_true_iff in H as [H|H].
    + apply String.eqb_eq in H. subst suf. now exists "".
    + destruct (IH H) as [p ->]. now exists (String a p).
Qed.

Lemma lower_app (a b : string) : PyStr.lower (a ++ b) = PyStr.lower a ++ PyStr.lower b.
Proof. induction a as [|x a IH]; simpl; [reflexivity | now rewrite IH]. Qed.

Lemma lower_length (s : string) : String.length (PyStr.lower s) = String.length s.
Proof. induction s as [|x s IH]; simpl; [reflexivity | now rewrite IH]. Qed.

Lemma startswith_slash (b : string) : has_char "/" b = false -> PyStr.startswith b "/" = false.
Proof.
  destruct b as [|x b]; cbn [PyStr.startswith has_char]; [reflexivity|].
  intros H. apply orb_false_iff in H as [H _].
  rewrite Ascii.eqb_sym, H. reflexivity.
Qed.

(** ** Paths *)

Lemma split_on_nonempty (c : ascii) (s : string) : PyStr.split_on c s <> [].
Proof.
  destruct s as [|a s]; cbn [PyStr.split_on]; [discriminate|].
  destruct (Ascii.eqb a c); [discriminate|].
  destruct (PyStr.split_on c s); discriminate.
Qed.

Lemma split_on_no_char (c : ascii) (s : string) :
  has_char c s = false -> PyStr.split_on c s = [s].
Proof.
  induction s as [|a s IH]; cbn [PyStr.split_on has_char]; [reflexivity|].
  intros H. apply orb_false_iff in H as [Ha Hs]. rewrite Ha, (IH Hs). reflexivity.
Qed.

Lemma split_on_app (c : ascii) (a b : string) :
  PyStr.split_on c (a ++ String c b) = (PyStr.split_on c a ++ PyStr.split_on c b)%list.
Proof.
  induction a as [|x a IH]; cbn [String.append PyStr.split_on].
  - now rewrite Ascii.eqb_refl.
  - rewrite IH. destruct (Ascii.eqb x c); [reflexivity|].
    pose proof (split_on_nonempty c a) as Hne.
    destruct (PyStr.split_on c a) as [|w ws]; [contradiction | reflexivity].
Qed.

Lemma resolve_empty : Fs.resolve "" = [].
Proof. reflexivity. Qed.

Lemma resolve_app_slash (a b : string) :
  Fs.resolve (a ++ String "/" b)
  = fold_left Fs.resolve_step (PyStr.split_on "/" b) (Fs.resolve a).
Proof. unfold Fs.resolve. now rewrite split_on_app, fold_left_app. Qed.

Lemma join_prefix_cases (a : string) :
  join_prefix a = "" \/ exists a', join_prefix a = a' ++ "/".
Proof.
  unfold join_prefix. destruct (String.eqb_spec a "") as [->|Hne]; cbn [orb]; [now left|].
  destruct (PyStr.endswith a "/") eqn:He.
  - right. now apply endswith_spec.
  - right. now exists a.
Qed.

Lemma join_relative (a b : string) :
  PyStr.startswith b "/" = false -> PyStr.join a b = join_prefix a ++ b.
Proof.
  intros Hb. unfold PyStr.join, join_prefix. rewrite Hb.
  destruct (String.eqb a "" || PyStr.endswith a "/"); [reflexivity|].
  now rewrite str_app_assoc.
Qed.

Lemma resolve_slash_end (a : string) : Fs.resolve (a ++ "/") = Fs.resolve a.
Proof. now rewrite (resolve_app_slash a ""). Qed.

Lemma resolve_join_prefix (a : string) : Fs.resolve (join_prefix a) = Fs.resolve a.
Proof.
  unfold join_prefix. destruct (String.eqb a "" || PyStr.endswith a "/"); [reflexivity|].
  apply resolve_slash_end.
Qed.

Lemma resolve_prefix_app (p b : string) :
  p = "" \/ (exists a', p = a' ++ "/") ->
  Fs.resolve (p ++ b) = fold_left Fs.resolve_step (PyStr.split_on "/" b) (Fs.resolve p).
Proof.
  intros [->|[a' ->]]; [reflexivity|].
  rewrite resolve_slash_end, str_app_assoc. apply resolve_app_slash.
Qed.

Lemma resolve_join (a b : string) :
  PyStr.startswith b "/" = false ->
  Fs.resolve (PyStr.join a b)
  = fold_left Fs.resolve_step (PyStr.split_on "/" b) (Fs.resolve a).
Proof.
  intros Hb. rewrite (join_relative a b Hb).
  rewrite (resolve_prefix_app _ _ (join_prefix_cases a)). now rewrite resolve_join_prefix.
Qed.

Lemma valid_name_inv (n : string) :
  valid_name n = true ->
  has_char "/" n = false /\ n <> "" /\ n <> "." /\ n <> "..".
Proof.
  unfold valid_name. intros H.
  apply andb_true_iff in H as [H H4]. apply andb_true_iff in H as [H H3].
  apply andb_true_iff in H as [H1 H2].
  apply negb_true_iff in H1, H2, H3, H4.
  apply String.eqb_neq in H2, H3, H4. now repeat split.
Qed.

Lemma resolve_step_name (stk : list string) (n : string) :
  valid_name n = true -> Fs.resolve_step stk n = (stk ++ [n])%list.
Proof.
  intros H. apply valid_name_inv in H as (_ & H1 & H2 & H3).
  unfold Fs.resolve_step.
  apply String.eqb_neq in H1, H2, H3. now rewrite H1, H2, H3.
Qed.

Lemma resolve_join_name (a n : string) :
  valid_name n = true -> Fs.resolve (PyStr.join a n) = (Fs.resolve a ++ [n])%list.
Proof.
  intros H. pose proof (valid_name_inv n H) as (Hs & _).
  rewrite resolve_join by now apply startswith_slash.
  rewrite split_on_no_char by exact Hs. cbn [fold_left]. now apply resolve_step_name.
Qed.

Lemma resolve_join_dot (a : string) : Fs.resolve (PyStr.join a ".") = Fs.resolve a.
Proof. now rewrite resolve_join. Qed.

Lemma rfind_slash_prefix (p fn : string) :
  p = "" \/ (exists a', p = a' ++ "/") ->
  has_char "/" fn = false ->
  PyStr.rfind "/" (p ++ fn) = Z.of_nat (String.length p) - 1.
Proof.
  intros Hp Hfn. rewrite rfind_app, (rfind_none _ _ Hfn). cbn [Z.leb Z.compare].
  destruct Hp as [->|[a' ->]]; [reflexivity|].
  rewrite rfind_app, str_length_app. cbn. lia.
Qed.

Lemma splitext_prefix (p fn : string) :
  p = "" \/ (exists a', p = a' ++ "/") ->
  has_char "/" fn = false ->
  PyStr.splitext (p ++ fn) = (p ++ fst (PyStr.splitext fn), snd (PyStr.splitext fn)).
Proof.
  intros Hp Hfn. unfold PyStr.splitext.
  rewrite (rfind_slash_prefix p fn Hp Hfn), (rfind_none _ _ Hfn).
  rewrite (rfind_app "." p fn).
  pose proof (rfind_ge "." fn) as Hge. pose proof (rfind_lt "." p) as Hlt.
  destruct (Z.leb_spec 0 (PyStr.rfind "." fn)) as [Hd|Hd].
  - destruct (Z.ltb_spec (Z.of_nat (String.length p) - 1)
                (Z.of_nat (String.length p) + PyStr.rfind "." fn)); [|lia].
    destruct (Z.ltb_spec (-1) (PyStr.rfind "." fn)); [|lia].
    replace (Z.to_nat (Z.of_nat (String.length p) - 1 + 1)) with (String.length p) by lia.
    replace (Z.to_nat (Z.of_nat (String.length p) + PyStr.rfind "." fn))
      with (String.length p + Z.to_nat (PyStr.rfind "." fn))%nat by lia.
    replace (String.length p + Z.to_nat (PyStr.rfind "." fn) - String.length p)%nat
      with (Z.to_nat (PyStr.rfind "." fn)) by lia.
    replace (String.length p) with (String.length p + 0)%nat at 1 by lia.
    rewrite drop_app_length. cbn [PyStr.drop Z.add Z.to_nat Z.opp].
    rewrite Nat.sub_0_r.
    destruct (PyStr.all_dots _); cbn [fst snd]; [reflexivity|].
    now rewrite take_app_length, drop_app_length.
  - destruct (Z.ltb_spec (Z.of_nat (String.length p) - 1) (PyStr.rfind "." p)); [lia|].
    destruct (Z.ltb_spec (-1) (PyStr.rfind "." fn)); [lia|]. reflexivity.
Qed.

Lemma xisf_name_prefix (p fn : string) :
  p = "" \/ (exists a', p = a' ++ "/") ->
  has_char "/" fn = false ->
  xisf_name (p ++ fn) = p ++ xisf_name fn.
Proof.
  intros Hp Hfn. unfold xisf_name. rewrite (splitext_prefix p fn Hp Hfn). cbn [fst].
  apply str_app_assoc.
Qed.

Lemma splitext_no_slash (fn : string) :
  has_char "/" fn = false -> has_char "/" (fst (PyStr.splitext fn)) = false.
Proof.
  intros H. unfold PyStr.splitext.
  destruct (_ <? _); [|exact H]. destruct (PyStr.all_dots _); [exact H|].
  cbn [fst]. now apply has_char_take.
Qed.

Lemma xisf_name_no_slash (fn : string) :
  has_char "/" fn = false -> has_char "/" (xisf_name fn) = false.
Proof.
  intros H. unfold xisf_name. rewrite has_char_app, (splitext_no_slash fn H). reflexivity.
Qed.

Lemma long_name_valid (n : string) :
  has_char "/" n = false -> (3 <= String.length n)%nat -> valid_name n = true.
Proof.
  intros Hs Hlen. unfold valid_name. rewrite Hs. cbn [negb andb].
  destruct n as [|a [|b [|c n]]]; cbn [String.length] in Hlen; try lia.
  assert (H1 : String.eqb (String a (String b (String c n))) "" = false)
    by now apply String.eqb_neq.
  assert (H2 : String.eqb (String a (String b (String c n))) "." = false)
    by (apply String.eqb_neq; intros H; inversion H).
  assert (H3 : String.eqb (String a (String b (String c n))) ".." = false)
    by (apply String.eqb_neq; intros H; inversion H).
  now rewrite H1, H2, H3.
Qed.

Lemma xisf_name_valid (fn : string) :
  has_char "/" fn = false -> valid_name (xisf_name fn) = true.
Proof.
  intros H. apply long_name_valid; [now apply xisf_name_no_slash|].
  unfold xisf_name. rewrite str_length_app. cbn [String.length]. lia.
Qed.

Lemma xisf_name_join (dr fn : string) :
  has_char "/" fn = false ->
  xisf_name (PyStr.join dr fn) = PyStr.join dr (xisf_name fn).
Proof.
  intros H.
  rewrite (join_relative dr fn) by now apply startswith_slash.
  rewrite (join_relative dr (xisf_name fn))
    by now apply startswith_slash, xisf_name_no_slash.
  apply xisf_name_prefix; [apply join_prefix_cases | exact H].
Qed.

Lemma resolve_xisf_name (dr fn : string) :
  has_char "/" fn = false ->
  Fs.resolve (xisf_name (PyStr.join dr fn)) = (Fs.resolve dr ++ [xisf_name fn])%list.
Proof.
  intros H. rewrite (xisf_name_join dr fn H).
  apply resolve_join_name. now apply xisf_name_valid.
Qed.

Lemma is_fits_long (fn : string) : is_fits fn = true -> (5 <= String.length fn)%nat.
Proof.
  unfold is_fits. intros H. apply endswith_spec in H as [p Hp].
  rewrite <- (lower_length fn), Hp, str_length_app. cbn [String.length]. lia.
Qed.

Lemma is_fits_valid (fn : string) :
  has_char "/" fn = false -> is_fits fn = true -> valid_name fn = true.
Proof.
  intros Hs Hf. apply long_name_valid; [exact Hs|]. apply is_fits_long in Hf. lia.
Qed.

Lemma is_fits_not_xisf (fn fn' : string) : is_fits fn = true -> fn <> xisf_name fn'.
Proof.
  unfold is_fits, xisf_name. intros Hf ->.
  apply endswith_spec in Hf as [p Hp]. rewrite lower_app in Hp.
  apply str_app_inv_tail in Hp as [_ Hp]; [discriminate Hp | reflexivity].
Qed.

(** ** The tasks of an enumeration *)

Lemma sublist_map {A B} (f : A -> B) (l1 l2 : list A) :
  sublist l1 l2 -> sublist (map f l1) (map f l2).
Proof. induction 1; simpl; now constructor. Qed.

Lemma sublist_In {A} (l1 l2 : list A) (x : A) : sublist l1 l2 -> In x l1 -> In x l2.
Proof.
  induction 1 as [|y l1 l2 _ IH|y l1 l2 _ IH]; simpl; [tauto| |]; intros Hx.
  - destruct Hx as [->|Hx]; [now left | right; now apply IH].
  - right. now apply IH.
Qed.

Lemma sublist_NoDup {A} (l1 l2 : list A) : sublist l1 l2 -> NoDup l2 -> NoDup l1.
Proof.
  induction 1 as [|y l1 l2 Hs IH|y l1 l2 Hs IH]; intros Hnd; [constructor| |].
  - apply NoDup_cons in Hnd as [Hy Hnd]. apply NoDup_cons. split; [|now apply IH].
    intros Hin. apply Hy. apply list_elem_of_In. apply list_elem_of_In in Hin.
    eapply sublist_In; eassumption.
  - apply NoDup_cons in Hnd as [_ Hnd]. now apply IH.
Qed.

(** The task of a convertible file [fn] of the directory [root]. *)
Lemma enumerate_file_task (cfg : config) (root : string)
    (fits_tasks : list (string * string)) (fn : string) (w : world)
    (r : list (string * string)) (w' : world) (tr : list event) :
  enumerate_file cfg root (dest_root_of cfg root) fits_tasks fn w = (Ret r, w', tr) ->
  exists l,
    r = (fits_tasks ++ l)%list
    /\ sublist l (map (fun fn => (PyStr.join root fn,
                                  xisf_name (PyStr.join (dest_root_of cfg root) fn)))
                      (filter is_fits [fn])).
Proof.
  rewrite enumerate_file_run. cbv zeta. rewrite filter_cons, filter_nil.
  destruct (is_fits fn) eqn:Hf; cbn [decide decide_rel Is_true_dec bool_decide].
  - destruct (_ && _); intros H; inversion H; subst.
    + exists []. split; [now rewrite app_nil_r | apply sublist_nil_l].
    + eexists. split; [reflexivity|]. simpl. apply sublist_skip, sublist_nil.
  - destruct (Fs.copy2 _ _ _); intros H; inversion H; subst.
    exists []. split; [now rewrite app_nil_r | apply sublist_nil].
Qed.

Lemma enumerate_files_tasks (cfg : config) (root : string) (files : list string) :
  forall (fits_tasks : list (string * string)) (w : world)
         (r : list (string * string)) (w' : world) (tr : list event),
    foldM (enumerate_file cfg root (dest_root_of cfg root)) fits_tasks files w
      = (Ret r, w', tr) ->
    exists l,
      r = (fits_tasks ++ l)%list
      /\ sublist l (map (fun fn => (PyStr.join root fn,
                                    xisf_name (PyStr.join (dest_root_of cfg root) fn)))
                        (filter is_fits files)).
Proof.
  induction files as [|fn files IH]; intros fits_tasks w r w' tr Hrun; simpl in Hrun.
  - inversion Hrun; subst. exists []. split; [now rewrite app_nil_r | constructor].
  - rewrite bind_run in Hrun.
    destruct (enumerate_file cfg root _ fits_tasks fn w) as [[[acc|e] w1] t1] eqn:Hb;
      [|discriminate].
    simpl in Hrun.
    destruct (foldM _ acc files w1) as [[r2 w2] t2] eqn:Hf. simpl in Hrun.
    inversion Hrun; subst.
    destruct (enumerate_file_task _ _ _ _ _ _ _ _ Hb) as (l1 & -> & Hl1).
    destruct (IH _ _ _ _ _ Hf) as (l2 & -> & Hl2).
    exists (l1 ++ l2)%list. split; [now rewrite <- List.app_assoc|].
    change (fn :: files) with ([fn] ++ files)%list.
    rewrite filter_app, map_app. now apply sublist_app.
Qed.

Section Tasks.

Variable time_at : nat -> float.

Lemma enumerate_entries_tasks (cfg : config)
    (entries : list (string * list string * list string)) :
  forall (fits_tasks : list (string * string)) (w : world)
         (r : list (string * string)) (w' : world) (tr : list event),
    foldM (enumerate_dir time_at cfg) fits_tasks entries w = (Ret r, w', tr) ->
    exists l, r = (fits_tasks ++ l)%list /\ sublist l (all_tasks cfg entries).
Proof.
  induction entries as [|[[root dirs] files] entries IH];
    intros fits_tasks w r w' tr Hrun; cbn [foldM] in Hrun.
  - inversion Hrun; subst. exists []. split; [now rewrite app_nil_r | constructor].
  - rewrite bind_run in Hrun.
    destruct (enumerate_dir time_at cfg fits_tasks (root, dirs, files) w)
      as [[[acc|e] w1] t1] eqn:Hb; [|discriminate].
    simpl in Hrun.
    destruct (foldM _ acc entries w1) as [[r2 w2] t2] eqn:Hf. simpl in Hrun.
    inversion Hrun; subst.
    unfold enumerate_dir in Hb. rewrite bind_run in Hb. fold (dest_root_of cfg root) in Hb.
    destruct (os_makedirs _ _ w) as [[[[]|e] w3] t3]; [|discriminate]. simpl in Hb.
    destruct (foldM _ fits_tasks files w3) as [[r4 w4] t4] eqn:Hfiles. simpl in Hb.
    inversion Hb; subst.
    destruct (enumerate_files_tasks _ _ _ _ _ _ _ _ Hfiles) as (l1 & -> & Hl1).
    destruct (IH _ _ _ _ _ Hf) as (l2 & -> & Hl2).
    exists (l1 ++ l2)%list. split; [now rewrite <- List.app_assoc|].
    unfold all_tasks. simpl. now apply sublist_app.
Qed.

Lemma enumerate_tasks (cfg : config) (t : tree) (w : world)
    (fits_tasks : list (string * string)) (w' : world) (tr : list event) :
  enumerate time_at cfg t w = (Ret fits_tasks, w', tr) ->
  sublist fits_tasks (all_tasks cfg (walk (input_dir cfg) t)).
Proof.
  intros Hrun. apply enumerate_entries_tasks in Hrun as (l & -> & Hl). exact Hl.
Qed.

End Tasks.

(** ** Trees *)

Lemma tree_induction (P : tree -> Prop) :
  (forall files dirs, Forall (fun d => P (snd d)) dirs -> P (Node files dirs)) ->
  forall t, P t.
Proof.
  intros H. fix IH 1. intros [files dirs]. apply H.
  induction dirs as [|d dirs IHd]; constructor; [apply IH | exact IHd].
Qed.

Lemma tree_wf_node (files : list string) (dirs : list (string * tree)) :
  tree_wf (Node files dirs) <->
  Forall (fun fn => valid_name fn = true) files
  /\ NoDup files
  /\ Forall (fun d => valid_name (fst d) = true) dirs
  /\ NoDup (map fst dirs)
  /\ Forall (fun d => tree_wf (snd d)) dirs.
Proof.
  cbn [tree_wf].
  assert (Hall : (fix all (l : list (string * tree)) : Prop :=
                    match l with
                    | [] => True
                    | d :: l' => tree_wf (snd d) /\ all l'
                    end) dirs <-> Forall (fun d => tree_wf (snd d)) dirs).
  { induction dirs as [|d dirs IH]; [split; [constructor | trivial]|].
    rewrite Forall_cons, IH. reflexivity. }
  rewrite Hall. reflexivity.
Qed.

Lemma stems_distinct_node (files : list string) (dirs : list (string * tree)) :
  stems_distinct (Node files dirs) <->
  NoDup (map xisf_name (filter is_fits files))
  /\ Forall (fun d => stems_distinct (snd d)) dirs.
Proof.
  cbn [stems_distinct].
  assert (Hall : (fix all (l : list (string * tree)) : Prop :=
                    match l with
                    | [] => True
                    | d :: l' => stems_distinct (snd d) /\ all l'
                    end) dirs <-> Forall (fun d => stems_distinct (snd d)) dirs).
  { induction dirs as [|d dirs IH]; [split; [constructor | trivial]|].
    rewrite Forall_cons, IH. reflexivity. }
  rewrite Hall. reflexivity.
Qed.

Lemma keys_of_app (base : list string) (l1 l2 : list (list string * list string)) :
  keys_of base (l1 ++ l2) = (keys_of base l1 ++ keys_of base l2)%list.
Proof. unfold keys_of. apply flat_map_app. Qed.

(** A destination below the directory [rel] is [base ++ rel] and more. *)
Lemma keys_of_shape (base : list string) (t : tree) :
  forall rel k,
    In k (keys_of base (walk_rel rel t)) ->
    exists s, s <> [] /\ k = (base ++ rel ++ s)%list.
Proof.
  induction t as [files dirs IH] using tree_induction. intros rel k.
  cbn [walk_rel]. change ((rel, files) :: ?l) with ([(rel, files)] ++ l)%list.
  rewrite keys_of_app, in_app_iff. intros [Hk|Hk].
  - unfold keys_of in Hk. cbn [flat_map fst snd] in Hk. rewrite app_nil_r in Hk.
    apply in_map_iff in Hk as (fn & <- & _). exists [xisf_name fn]. now split.
  - induction dirs as [|d dirs IHd]; [destruct Hk|].
    apply Forall_cons in IH as [IHt IH].
    cbn [flat_map] in Hk. rewrite keys_of_app, in_app_iff in Hk. destruct Hk as [Hk|Hk].
    + destruct (IHt _ _ Hk) as (s & Hs & ->). exists (fst d :: s).
      split; [discriminate|]. now rewrite <- List.app_assoc.
    + now apply IHd.
Qed.

Lemma NoDup_map_inj {A B} (f : A -> B) (l : list A) :
  (forall x y, f x = f y -> x = y) -> NoDup l -> NoDup (map f l).
Proof.
  intros Hinj. induction 1 as [|x l Hx Hnd IH]; simpl; constructor; [|exact IH].
  intros Hin. apply Hx. apply list_elem_of_In in Hin. apply list_elem_of_In.
  apply in_map_iff in Hin as (y & Hy & Hin). apply Hinj in Hy. now subst.
Qed.

Lemma keys_of_NoDup (base : list string) (t : tree) :
  forall rel, tree_wf t -> stems_distinct t -> NoDup (keys_of base (walk_rel rel t)).
Proof.
  induction t as [files dirs IH] using tree_induction. intros rel Hwf Hsd.
  apply tree_wf_node in Hwf as (_ & _ & _ & Hnames & Hsub).
  apply stems_distinct_node in Hsd as (Hstems & Hsd).
  cbn [walk_rel]. change ((rel, files) :: ?l) with ([(rel, files)] ++ l)%list.
  rewrite keys_of_app. apply NoDup_app. split; [|split].
  - unfold keys_of. cbn [flat_map fst snd]. rewrite app_nil_r.
    rewrite <- (map_map xisf_name (fun x => (base ++ rel ++ [x])%list)).
    apply NoDup_map_inj; [|exact Hstems].
    intros x y Heq. apply app_inv_head, app_inv_head in Heq. now inversion Heq.
  - intros k Hk1 Hk2. apply list_elem_of_In in Hk1, Hk2.
    unfold keys_of in Hk1. cbn [flat_map fst snd] in Hk1. rewrite app_nil_r in Hk1.
    apply in_map_iff in Hk1 as (fn & <- & _).
    clear -Hk2. induction dirs as [|d dirs IHd]; [destruct Hk2|].
    cbn [flat_map] in Hk2. rewrite keys_of_app, in_app_iff in Hk2.
    destruct Hk2 as [Hk2|Hk2]; [|now apply IHd].
    apply keys_of_shape in Hk2 as (s & Hs & Heq).
    rewrite <- List.app_assoc in Heq.
    apply app_inv_head, app_inv_head in Heq. simpl in Heq. inversion Heq. now subst.
  - induction dirs as [|d dirs IHd]; [constructor|].
    apply Forall_cons in IH as [IHt IH]. apply Forall_cons in Hsub as [Hwd Hsub].
    apply Forall_cons in Hsd as [Hsdd Hsd].
    cbn [map] in Hnames. apply NoDup_cons in Hnames as [Hd Hnames].
    cbn [flat_map]. rewrite keys_of_app. apply NoDup_app. split; [|split].
    + now apply IHt.
    + intros k Hk1 Hk2. apply list_elem_of_In in Hk1, Hk2.
      apply keys_of_shape in Hk1 as (s1 & _ & ->).
      apply Hd. apply list_elem_of_In. clear -Hk2.
      induction dirs as [|d' dirs IHd']; [destruct Hk2|].
      cbn [flat_map] in Hk2. rewrite keys_of_app, in_app_iff in Hk2.
      destruct Hk2 as [Hk2|Hk2]; [|right; now apply IHd'].
      apply keys_of_shape in Hk2 as (s2 & _ & Heq).
      rewrite <- !List.app_assoc in Heq.
      apply app_inv_head, app_inv_head in Heq. simpl in Heq. inversion Heq. now left.
    + now apply IHd.
Qed.

(** ** Where the mirror of a directory is *)

Lemma fold_resolve_names (names stk : list string) :
  Forall (fun n => valid_name n = true) names ->
  fold_left Fs.resolve_step names stk = (stk ++ names)%list.
Proof.
  revert stk. induction names as [|n names IH]; intros stk Hv; cbn [fold_left].
  - now rewrite app_nil_r.
  - apply Forall_cons in Hv as [Hn Hv]. rewrite resolve_step_name by exact Hn.
    rewrite IH by exact Hv. now rewrite <- List.app_assoc.
Qed.

Lemma slash_join_cons (n n2 : string) (names : list string) :
  PyStr.slash_join (n :: n2 :: names) = n ++ String "/" (PyStr.slash_join (n2 :: names)).
Proof. reflexivity. Qed.

Lemma split_slash_join (names : list string) :
  names <> [] -> Forall (fun n => valid_name n = true) names ->
  PyStr.split_on "/" (PyStr.slash_join names) = names.
Proof.
  induction names as [|n names IH]; intros Hne Hv; [contradiction|].
  apply Forall_cons in Hv as [Hn Hv]. apply valid_name_inv in Hn as (Hs & _).
  destruct names as [|n2 names].
  - now apply split_on_no_char.
  - rewrite slash_join_cons, split_on_app, (split_on_no_char _ _ Hs), IH;
      [reflexivity | discriminate | exact Hv].
Qed.

Lemma slash_join_relative (names : list string) :
  names <> [] -> Forall (fun n => valid_name n = true) names ->
  PyStr.startswith (PyStr.slash_join names) "/" = false.
Proof.
  destruct names as [|n names]; intros Hne Hv; [contradiction|].
  apply Forall_cons in Hv as [Hn _]. apply valid_name_inv in Hn as (Hs & Hn & _).
  destruct n as [|a n]; [contradiction|].
  cbn [has_char] in Hs. apply orb_false_iff in Hs as [Ha _].
  destruct names as [|n2 names]; [|rewrite slash_join_cons];
    cbn [PyStr.slash_join String.append PyStr.startswith];
    now rewrite Ascii.eqb_sym, Ha.
Qed.

Lemma strip_common_prefix (base rel : list string) :
  Fs.strip_common base (base ++ rel) = ([], rel).
Proof.
  induction base as [|x base IH]; cbn [Fs.strip_common app].
  - now destruct rel.
  - now rewrite String.eqb_refl.
Qed.

(** The mirror of the directory reached by the names [rel] below the input
    directory is reached by the same names below the output directory. *)
Lemma resolve_dest_root (cfg : config) (root : string) (rel : list string) :
  Fs.resolve root = (Fs.resolve (input_dir cfg) ++ rel)%list ->
  Forall (fun n => valid_name n = true) rel ->
  Fs.resolve (dest_root_of cfg root) = (Fs.resolve (output_dir cfg) ++ rel)%list.
Proof.
  intros Hroot Hv. unfold dest_root_of, Fs.relpath.
  rewrite Hroot, strip_common_prefix. cbn [length repeat app].
  destruct rel as [|n rel].
  - now rewrite resolve_join_dot, app_nil_r.
  - rewrite resolve_join by (apply slash_join_relative; [discriminate | exact Hv]).
    rewrite split_slash_join by (discriminate || exact Hv).
    now apply fold_resolve_names.
Qed.

(** [os.walk] and [walk_rel] go through the same directories. *)
Lemma walk_rel_match (base : list string) (t : tree) :
  forall top rel,
    tree_wf t ->
    Fs.resolve top = (base ++ rel)%list ->
    Forall (fun n => valid_name n = true) rel ->
    Forall2 (fun e er =>
               Fs.resolve (fst (fst e)) = (base ++ fst er)%list
               /\ snd e = snd er
               /\ Forall (fun n => valid_name n = true) (fst er)
               /\ Forall (fun fn => valid_name fn = true) (snd er))
            (walk top t) (walk_rel rel t).
Proof.
  induction t as [files dirs IH] using tree_induction. intros top rel Hwf Htop Hrel.
  apply tree_wf_node in Hwf as (Hfiles & _ & Hdirs & _ & Hsub).
  cbn [walk walk_rel]. constructor; [now repeat split|].
  induction dirs as [|d dirs IHd]; [constructor|].
  apply Forall_cons in IH as [IHt IH]. apply Forall_cons in Hsub as [Hwd Hsub].
  apply Forall_cons in Hdirs as [Hd Hdirs].
  cbn [flat_map]. apply Forall2_app; [|now apply IHd].
  apply IHt; [exact Hwd | |].
  - rewrite (resolve_join_name top (fst d) Hd), Htop. now rewrite <- List.app_assoc.
  - apply Forall_app. split; [exact Hrel|]. now constructor.
Qed.

Lemma all_tasks_keys (cfg : config)
    (entries : list (string * list string * list string))
    (ers : list (list string * list string)) :
  Forall2 (fun e er =>
             Fs.resolve (fst (fst e)) = (Fs.resolve (input_dir cfg) ++ fst er)%list
             /\ snd e = snd er
             /\ Forall (fun n => valid_name n = true) (fst er)
             /\ Forall (fun fn => valid_name fn = true) (snd er))
          entries ers ->
  map (fun task => Fs.resolve (snd task)) (all_tasks cfg entries)
  = keys_of (Fs.resolve (output_dir cfg)) ers.
Proof.
  induction 1 as [|[[root dirs] files] [rel files'] entries ers (Hroot & Hf & Hrel & Hv) _ IH].
  - reflexivity.
  - cbn [fst snd] in *. subst files'.
    unfold all_tasks, keys_of in *. cbn [flat_map fst snd].
    rewrite map_app, IH. f_equal. rewrite map_map. cbn [snd].
    apply map_ext_in. intros fn Hfn.
    apply list_elem_of_In, list_elem_of_filter in Hfn as [_ Hfn].
    rewrite Forall_forall in Hv. apply Hv, valid_name_inv in Hfn as (Hs & _).
    rewrite (resolve_xisf_name _ fn Hs), (resolve_dest_root cfg root rel Hroot Hrel).
    now rewrite <- List.app_assoc.
Qed.

Section Destinations.

Variable time_at : nat -> float.

(** C8, as the code has it.  In a tree as a file system holds it, where no
    directory holds two convertible files that differ only in what
    [os.path.splitext] drops (the letter case of [.fits], or a name that is
    dots alone before it), the tasks of one enumeration have destinations
    that are pairwise different files. *)
Theorem destinations_distinct_up_to_extension
    (cfg : config) (t : tree) (w : world)
    (fits_tasks : list (string * string)) (w' : world) (tr : list event) :
  tree_wf t ->
  stems_distinct t ->
  enumerate time_at cfg t w = (Ret fits_tasks, w', tr) ->
  NoDup (map (fun task => Fs.resolve (snd task)) fits_tasks)
  /\ NoDup (map snd fits_tasks).
Proof.
  intros Hwf Hsd Hrun.
  assert (Hres : NoDup (map (fun task => Fs.resolve (snd task)) fits_tasks)).
  { apply (sublist_NoDup _ (map (fun task => Fs.resolve (snd task))
                                (all_tasks cfg (walk (input_dir cfg) t)))).
    - apply sublist_map. eapply enumerate_tasks. exact Hrun.
    - rewrite (all_tasks_keys cfg _ (walk_rel [] t)).
      + now apply keys_of_NoDup.
      + apply walk_rel_match; [exact Hwf | now rewrite app_nil_r | constructor]. }
  split; [exact Hres|].
  rewrite <- (map_map snd Fs.resolve) in Hres.
  clear -Hres. induction (map snd fits_tasks) as [|d l IH]; [constructor|].
  cbn [map] in Hres. apply NoDup_cons in Hres as [Hd Hres].
  apply NoDup_cons. split; [|now apply IH].
  intros Hin. apply Hd. apply list_elem_of_In. apply list_elem_of_In in Hin.
  now apply in_map.
Qed.

End Destinations.

(** C8 as the specification states it fails: [a.fits] and [a.FITS] of one
    directory are two tasks with one destination. *)
Lemma destinations_collide_on_extension_case :
  tree_wf (Node ["a.fits"; "a.FITS"] [])
  /\ fst (fst (enumerate Toy.time_at (Toy.cfg (-1)) (Node ["a.fits"; "a.FITS"] [])
                 Toy.world0))
     = Ret [("in/a.fits", "out/./a.xisf"); ("in/a.FITS", "out/./a.xisf")]
  /\ ~ NoDup (map snd [("in/a.fits", "out/./a.xisf"); ("in/a.FITS", "out/./a.xisf")]).
Proof.
  split; [|split].
  - cbn [tree_wf]. repeat split; repeat constructor;
      (reflexivity || (intros H; apply list_elem_of_In in H; simpl in H;
                       intuition discriminate)).
  - vm_compute. reflexivity.
  - cbn [map snd]. intros H. apply NoDup_cons in H as [H _]. apply H. now left.
Qed.

Lemma destinations_distinct_witness :
  NoDup (map snd [("in/m31.fits", "out/./m31.xisf"); ("in/dark/d1.FITS", "out/dark/d1.xisf")]).
Proof.
  refine (proj2 (destinations_distinct_up_to_extension
                   Toy.time_at (Toy.cfg 5) Toy.tree0 Toy.world0
                   [("in/m31.fits", "out/./m31.xisf"); ("in/dark/d1.FITS", "out/dark/d1.xisf")]
                   (snd (fst (enumerate Toy.time_at (Toy.cfg 5) Toy.tree0 Toy.world0)))
                   (snd (enumerate Toy.time_at (Toy.cfg 5) Toy.tree0 Toy.world0))
                   _ _ _)).
  - cbn [Toy.tree0 tree_wf]. repeat split; repeat constructor;
      (reflexivity || (intros H; apply list_elem_of_In in H; simpl in H;
                       intuition discriminate)).
  - cbn [Toy.tree0 stems_distinct]. repeat split; vm_compute; repeat constructor;
      intros H; apply list_elem_of_In in H; simpl in H; intuition discriminate.
  - vm_compute. reflexivity.
Defined.

(** ** Destinations stay *)






Lemma grows_keeps_xisf (fs fs' : gmap Fs.path Fs.node) : grows fs fs' -> keeps_xisf fs fs'.
Proof.
  intros Hg r _ [n Hn]. specialize (Hg r). rewrite Hn in Hg.
  destruct n; [exact Hg|]. destruct Hg as [m ->]. eauto.
Qed.



Lemma walk_files_valid (t : tree) :
  forall top, tree_wf t ->
    Forall (fun e => Forall (fun fn => valid_name fn = true) (snd e)) (walk top t).
Proof.
  induction t as [files dirs IH] using tree_induction. intros top Hwf.
  apply tree_wf_node in Hwf as (Hfiles & _ & _ & _ & Hsub).
  cbn [walk]. constructor; [exact Hfiles|].
  induction dirs as [|d dirs IHd]; [constructor|].
  apply Forall_cons in IH as [IHt IH]. apply Forall_cons in Hsub as [Hwd Hsub].
  cbn [flat_map]. apply Forall_app. split; [now apply IHt | now apply IHd].
Qed.


(** ** What the enumeration enqueues *)


Section Enqueued.

Variable time_at : nat -> float.






End Enqueued.

(** ** A second run *)


Lemma forM_emit_run {A} (f : A -> event) (l : list A) (w : world) :
  forM_ (fun x => emit (f x)) l w = (Ret tt, w, map f l).
Proof.
  induction l as [|x l IH]; [reflexivity|].
  cbn [forM_]. rewrite bind_run. unfold emit at 1. simpl. now rewrite IH.
Qed.

Section SecondRun.

Context {header hvalue : Type}.
Variable fits_decode_data : string -> res Numpy.ndarray.
Variable fits_decode_header : string -> res header.
Variable header_keys : header -> list string.
Variable header_getitem : header -> string -> hvalue.
Variable py_str : hvalue -> string.
Variable comments_contains : header -> string -> bool.
Variable comments_getitem : header -> string -> string.
Variable XISF_write :
  xisf_args -> gmap Fs.path Fs.node -> res (Z * string) * gmap Fs.path Fs.node.
Variable time_at : nat -> float.
Variable as_completed : list (string * string) -> list (string * string).

(** The encoder removes nothing, and leaves a file where it wrote one. *)
Hypothesis write_keeps :
  forall a fs r, is_Some (fs !! r) -> is_Some (snd (XISF_write a fs) !! r).
Hypothesis write_makes :
  forall a fs x fs', XISF_write a fs = (Ret x, fs') -> Fs.exists_ fs' (xa_path a) = true.
Hypothesis as_completed_all : forall l, Permutation (as_completed l) l.

Local Abbreviation convert :=
  (convert_fits_to_xisf fits_decode_data fits_decode_header header_keys header_getitem
     py_str comments_contains comments_getitem XISF_write).
Local Abbreviation handle :=
  (handle_future fits_decode_data fits_decode_header header_keys header_getitem
     py_str comments_contains comments_getitem XISF_write time_at).
Local Abbreviation pool :=
  (run_pool fits_decode_data fits_decode_header header_keys header_getitem
     py_str comments_contains comments_getitem XISF_write time_at as_completed).
Local Abbreviation program :=
  (main fits_decode_data fits_decode_header header_keys header_getitem
     py_str comments_contains comments_getitem XISF_write time_at as_completed).








End SecondRun.





(** ** The mirror is made first *)

Section MirrorFirst.

Variable time_at : nat -> float.

(** C7.  In the enumeration, whatever is done for a file of a directory
    (the test for its destination, the skip line, the copy) comes after
    the [os.makedirs] of the mirror of that directory; the mirror of the
    directory reached by some names below the input directory is reached
    by the same names below the output directory; and when the
    enumeration ends, the mirror of every directory [os.walk] reported is
    a directory of the store, whether the directory holds a convertible
    file or not. *)
Theorem mirror_directory_made_before_files (cfg : config) (t : tree) (w : world) :
  mirror_made_first cfg (walk (input_dir cfg) t) (snd (enumerate time_at cfg t w))
  /\ (tree_wf t ->
      Forall2 (fun e er =>
                 Fs.resolve (fst (fst e)) = (Fs.resolve (input_dir cfg) ++ fst er)%list
                 /\ Fs.resolve (dest_root_of cfg (fst (fst e)))
                    = (Fs.resolve (output_dir cfg) ++ fst er)%list)
              (walk (input_dir cfg) t) (walk_rel [] t))
  /\ (forall fits_tasks w' tr,
        enumerate time_at cfg t w = (Ret fits_tasks, w', tr) ->
        forall root dirs files,
          In (root, dirs, files) (walk (input_dir cfg) t) ->
          In (EvMakedirs (dest_root_of cfg root)) tr
          /\ Fs.isdir (w_fs w') (dest_root_of cfg root) = true).
Proof.
  split; [|split].
  - unfold enumerate.
    apply (foldM_trace (mirror_made_first cfg (walk (input_dir cfg) t))
             (mirror_made_first_nil _ _) (mirror_made_first_app _ _)).
    intros acc entry w' Hin. now apply enumerate_dir_mirror.
  - intros Hwf.
    eapply Forall2_impl;
      [apply (walk_rel_match (Fs.resolve (input_dir cfg)) t (input_dir cfg) []);
       [exact Hwf | now rewrite app_nil_r | constructor]|].
    intros e er (Hroot & _ & Hrel & _). split; [exact Hroot|].
    now apply resolve_dest_root.
  - intros fits_tasks w' tr Hrun root dirs files Hin. unfold enumerate in Hrun. split.
    + destruct (foldM_trace_In _ _ (root, dirs, files) _ _ _ _ _ Hrun Hin)
        as (acc0 & w0 & r0 & w1 & t0 & Hb & Hsub).
      apply Hsub. unfold enumerate_dir in Hb. rewrite bind_run in Hb.
      fold (dest_root_of cfg root) in Hb.
      pose proof (os_makedirs_events time_at (dest_root_of cfg root) w0) as Hm.
      destruct (os_makedirs _ _ w0) as [[[[]|e] w2] t2]; simpl in *; subst t2;
        inversion Hb; now left.
    + apply (foldM_establish (enumerate_dir time_at cfg)
               (fun entry w0 => Fs.isdir (w_fs w0) (dest_root_of cfg (fst (fst entry))) = true)
               (walk (input_dir cfg) t)) with (acc := []) (w := w) (r := fits_tasks) (tr := tr)
               (x := (root, dirs, files)); try assumption.
      * intros acc [[root0 dirs0] files0] w0 r w1 tr0. unfold enumerate_dir.
        rewrite bind_run. fold (dest_root_of cfg root0).
        destruct (os_makedirs_spec time_at (dest_root_of cfg root0) w0) as [_ Hd].
        destruct (os_makedirs _ _ w0) as [[[[]|e] w2] t2]; simpl in *; [|discriminate].
        intros Hf.
        pose proof (foldM_grows (enumerate_file cfg root0 (dest_root_of cfg root0)) files0
                      (fun a x w3 => enumerate_file_grows cfg root0 _ a x w3) acc w2) as Hg.
        destruct (foldM _ acc files0 w2) as [[r3 w3] t3]. simpl in *.
        inversion Hf; subst. eapply grows_isdir; [exact Hg | now apply Hd].
      * intros acc entry w0 y Hy. eapply grows_isdir; [|exact Hy].
        apply enumerate_dir_grows.
Qed.

End MirrorFirst.

(** C10 as the specification states it fails: with a header that answers
    a keyword by its first card, and a commentary keyword by all its
    cards, the entry of a keyword given twice is not its last card.  The
    comment of the entry is empty although the card has one, because the
    test of line 30 compares the keyword with the comment strings; it is
    the comment of the card only when some card has the keyword itself
    as its comment. *)
Lemma record_entry_is_not_the_last_card :
  let record := build_fits_keywords Toy.header_keys Toy.header_getitem (fun v => v)
                  Toy.comments_contains Toy.comments_getitem Toy.header_twice in
  PyDict.get "GAIN" record = Some [ {| value := "1.0"; comment := EmptyString |} ]
  /\ PyDict.get "GAIN" record <> Some [ {| value := "2.5"; comment := "second" |} ]
  /\ PyDict.get "GAIN" record <> Some [ {| value := "2.5"; comment := EmptyString |} ]
  /\ PyDict.get "HISTORY" record
     = Some [ {| value := "dark subtracted" ++ Toy.newline ++ "flat fielded";
                 comment := EmptyString |} ]
  /\ PyDict.get "HISTORY" record
     <> Some [ {| value := "flat fielded"; comment := EmptyString |} ]
  /\ PyDict.get "EXPTIME" record = Some [ {| value := "30.0"; comment := "EXPTIME" |} ].
Proof. repeat split; (reflexivity || discriminate). Qed.

(** * The rest of the program *)

(** ** The truth values of the settings *)

Lemma lower_char_idem (c : ascii) :
  PyStr.lower_char (PyStr.lower_char c) = PyStr.lower_char c.
Proof. destruct c as [[] [] [] [] [] [] [] []]; reflexivity. Qed.

Lemma lower_idem (s : string) : PyStr.lower (PyStr.lower s) = PyStr.lower s.
Proof.
  induction s as [|c s IH]; cbn [PyStr.lower]; [reflexivity|].
  now rewrite lower_char_idem, IH.
Qed.

Lemma lower_char_cases (c : ascii) :
  c = PyStr.lower_char c
  \/ (c = upper_char (PyStr.lower_char c)
      /\ Ascii.eqb (upper_char (PyStr.lower_char c)) (PyStr.lower_char c) = false).
Proof.
  destruct c as [[] [] [] [] [] [] [] []]; vm_compute;
    ((left; reflexivity) || (right; split; reflexivity)).
Qed.

Lemma lower_in_case_variants (s : string) : In s (case_variants (PyStr.lower s)).
Proof.
  induction s as [|c s IH]; cbn [PyStr.lower case_variants]; [now left|].
  apply in_flat_map. exists s. split; [exact IH|].
  destruct (lower_char_cases c) as [Hc|[Hc Hne]].
  - rewrite <- Hc. destruct (Ascii.eqb (upper_char c) c); now left.
  - rewrite Hne. right. left. now rewrite <- Hc.
Qed.

(** X1.  [str2bool] reads as true the four words [1], [yes], [true] and
    [on], each letter small or capital, and nothing else: a string and
    its lower-case form are read alike, and a value with a blank in it,
    before, after or inside, is read as false, as is the empty string. *)
Theorem str2bool_ignores_case :
  (forall s, str2bool s = true
             <-> In s (flat_map case_variants ["1"; "yes"; "true"; "on"]))
  /\ (forall s, str2bool (PyStr.lower s) = str2bool s)
  /\ (forall s, has_char " " s = true -> str2bool s = false)
  /\ str2bool "" = false.
Proof.
  assert (Hvariants : forall s, str2bool s = true ->
                        In s (flat_map case_variants ["1"; "yes"; "true"; "on"])).
  { intros s. unfold str2bool. cbn [existsb].
    rewrite !orb_true_iff, !String.eqb_eq. intros H.
    apply in_flat_map. exists (PyStr.lower s). split; [|apply lower_in_case_variants].
    cbn [In]. intuition congruence. }
  split; [|split; [|split]].
  - intros s. split; [apply Hvariants|].
    intros H. vm_compute in H.
    repeat (destruct H as [<-|H]; [reflexivity|]). destruct H.
  - intros s. unfold str2bool. now rewrite lower_idem.
  - intros s Hblank. destruct (str2bool s) eqn:E; [|reflexivity].
    apply Hvariants in E. vm_compute in E.
    repeat (destruct E as [<-|E]; [discriminate Hblank|]). destruct E.
  - reflexivity.
Qed.

(** ** The order of the record *)

Section KeywordOrder.

Context {header hvalue : Type}.
Variable header_keys : header -> list string.
Variable header_getitem : header -> string -> hvalue.
Variable py_str : hvalue -> string.
Variable comments_contains : header -> string -> bool.
Variable comments_getitem : header -> string -> string.

Local Abbreviation keyword_of := (keyword_of header_getitem py_str comments_contains comments_getitem).
Local Abbreviation step h := (fun d key => PyDict.set key [keyword_of h key] d).

Lemma fold_keywords_order (h : header) (l : list string) (d : PyDict.t (list keyword)) :
  PyDict.keys (fold_left (step h) l d)
  = (PyDict.keys d ++ first_occurrences (PyDict.keys d) l)%list.
Proof.
  revert d. induction l as [|k l IH]; intros d; cbn [fold_left first_occurrences].
  - now rewrite app_nil_r.
  - rewrite IH, dict_keys_set.
    destruct (existsb (String.eqb k) (PyDict.keys d)); [reflexivity|].
    now rewrite <- List.app_assoc.
Qed.

(** X9.  The keys of the record the worker builds stand in the order in
    which the header first lists them: a keyword the header repeats keeps
    the place of its first card, and the later cards add no key. *)
Theorem fits_keywords_in_header_order (h : header) :
  PyDict.keys (build_fits_keywords header_keys header_getitem py_str
                 comments_contains comments_getitem h)
  = first_occurrences [] (header_keys h).
Proof. unfold build_fits_keywords. apply (fold_keywords_order h). Qed.

End KeywordOrder.

(** ** A whole run *)

Lemma bind_lift_res {A B} (r : res A) (k : A -> M B) (w : world) :
  bind (lift_res r) k w =
  match r with
  | Ret a => k a w
  | Raise e => (Raise e, w, [])
  end.
Proof.
  unfold bind, lift_res. destruct r as [a|e]; [|reflexivity].
  now destruct (k a w) as [[r' w'] tr'].
Qed.

Lemma foldM_raises {A B} (body : B -> A -> M B) (R : exn -> Prop) (l : list A) :
  (forall acc x w e, fst (fst (body acc x w)) = Raise e -> R e) ->
  forall acc w e, fst (fst (foldM body acc l w)) = Raise e -> R e.
Proof.
  intros Hb. induction l as [|x l IH]; intros acc w e; cbn [foldM].
  - discriminate.
  - rewrite bind_run. specialize (Hb acc x w).
    destruct (body acc x w) as [[[acc'|e'] w1] t1]; cbn [fst snd] in *.
    + apply IH.
    + intros H. apply Hb. exact H.
Qed.

Lemma enum_event_not_result (ev : event) :
  is_enum_event ev = true -> is_result_event ev = false.
Proof. destruct ev as [| | | | | | | | | | |m]; try (now intros); now destruct m. Qed.

Section Run.

Context {header hvalue : Type}.
Variable fits_decode_data : string -> res Numpy.ndarray.
Variable fits_decode_header : string -> res header.
Variable header_keys : header -> list string.
Variable header_getitem : header -> string -> hvalue.
Variable py_str : hvalue -> string.
Variable comments_contains : header -> string -> bool.
Variable comments_getitem : header -> string -> string.
Variable XISF_write :
  xisf_args -> gmap Fs.path Fs.node -> res (Z * string) * gmap Fs.path Fs.node.
Variable time_at : nat -> float.
Variable as_completed : list (string * string) -> list (string * string).

Local Abbreviation convert :=
  (convert_fits_to_xisf fits_decode_data fits_decode_header header_keys header_getitem
     py_str comments_contains comments_getitem XISF_write).
Local Abbreviation handle :=
  (handle_future fits_decode_data fits_decode_header header_keys header_getitem
     py_str comments_contains comments_getitem XISF_write time_at).
Local Abbreviation pool :=
  (run_pool fits_decode_data fits_decode_header header_keys header_getitem
     py_str comments_contains comments_getitem XISF_write time_at as_completed).
Local Abbreviation program :=
  (main fits_decode_data fits_decode_header header_keys header_getitem
     py_str comments_contains comments_getitem XISF_write time_at as_completed).

Lemma os_makedirs_raises (p : string) (w : world) (e : exn) :
  fst (fst (os_makedirs time_at p w)) = Raise e -> exn_cls e = OSError.
Proof.
  unfold os_makedirs. destruct (String.eqb p "").
  - intros H; inversion H; reflexivity.
  - destruct (Fs.mkdir_p _ _ _ _) as [fs' ok]. destruct ok; intros H; inversion H; reflexivity.
Qed.

Lemma enumerate_raises (cfg : config) (t : tree) (w : world) (e : exn) :
  fst (fst (enumerate time_at cfg t w)) = Raise e -> exn_cls e = OSError.
Proof.
  unfold enumerate. apply (foldM_raises _ (fun e => exn_cls e = OSError)).
  intros acc [[root dirs] files] w0 e0. unfold enumerate_dir. rewrite bind_run.
  pose proof (os_makedirs_raises
                (PyStr.join (output_dir cfg) (Fs.relpath root (input_dir cfg))) w0) as Hm.
  destruct (os_makedirs _ _ w0) as [[[[]|e1] w1] t1]; cbn [fst snd] in *.
  - apply (foldM_raises _ (fun e => exn_cls e = OSError)).
    intros acc1 fn w2 e2. rewrite enumerate_file_run. cbv zeta.
    destruct (is_fits fn).
    + destruct (_ && _); discriminate.
    + destruct (Fs.copy2 _ _ _); intros H; inversion H; reflexivity.
  - intros H. inversion H; subst. now apply Hm.
Qed.

Lemma convert_no_retire (src dst codec : string) (shuffle : bool) (level : Z)
    (creator_app : string) (w : world) :
  Forall (fun ev => is_retire_event ev = false)
         (snd (convert src dst codec shuffle level creator_app w)).
Proof.
  rewrite convert_run.
  destruct (Fs.stat _ _) as [[c m|m]|]; simpl; try (repeat constructor).
  destruct (fits_decode_data c); simpl; [|repeat constructor].
  destruct (fits_decode_header c); simpl; [|repeat constructor].
  unfold write_with_fallback.
  destruct (XISF_write _ _) as [[x|e] fs1]; simpl; [repeat constructor|].
  destruct (metadata_shape_rejected e); [|repeat constructor].
  destruct (XISF_write _ fs1). repeat constructor.
Qed.

(** The trace of the pool, from what holds of the trace of each task. *)
Lemma run_pool_trace (Q : event -> Prop) (cfg : config)
    (fits_tasks : list (string * string)) (w : world) :
  (forall src dst, Q (EvSubmit src dst)) ->
  (forall task w', Forall Q (snd (handle cfg task w'))) ->
  Forall Q (snd (pool cfg fits_tasks w)).
Proof.
  intros Hsub Hh.
  assert (Happ : forall t1 t2 : list event, Forall Q t1 -> Forall Q t2 -> Forall Q (t1 ++ t2)).
  { intros t1 t2 H1 H2. apply Forall_app. now split. }
  assert (Hnil : Forall Q []) by constructor.
  unfold run_pool. destruct (workers cfg <=? 0); [constructor|].
  rewrite bind_run.
  assert (Hs : Forall Q (snd (forM_ (fun task => emit (EvSubmit (fst task) (snd task)))
                                fits_tasks w))).
  { apply (forM_trace (fun tr => Forall Q tr) Hnil Happ).
    intros x w0 _. simpl. constructor; [apply Hsub | constructor]. }
  destruct (forM_ _ fits_tasks w) as [[[[]|e] w1] t1]; simpl in *; [|exact Hs].
  apply Happ; [exact Hs|].
  apply (forM_trace (fun tr => Forall Q tr) Hnil Happ).
  intros task w0 _. apply Hh.
Qed.

(** The trace of a run, from what holds of the trace of each task. *)
Lemma main_trace (Q : event -> Prop) (cfg : config) (t : tree) (w : world) :
  (forall ev, is_result_event ev = false -> Q ev) ->
  (forall src dst, Q (EvSubmit src dst)) ->
  (forall task w', Forall Q (snd (handle cfg task w'))) ->
  Forall Q (snd (program cfg t w)).
Proof.
  intros Hrest Hsub Hh.
  assert (Henum : forall tr, Forall (fun ev => is_enum_event ev = true) tr -> Forall Q tr).
  { intros tr Hall. eapply Forall_impl; [exact Hall|].
    intros ev Hev. cbv beta in Hev. now apply Hrest, enum_event_not_result. }
  rewrite main_run.
  destruct (Fs.isdir _ _); [|repeat constructor; now apply Hrest].
  pose proof (os_makedirs_events time_at (output_dir cfg) w) as Hm.
  destruct (os_makedirs _ _ w) as [[[[]|e] w1] t1]; simpl in Hm; subst t1.
  - pose proof (enumerate_events time_at cfg t w1) as He.
    destruct (enumerate _ _ _ w1) as [[[fits_tasks|e] w2] t2]; cbn [fst snd app] in *.
    + constructor; [now apply Hrest|]. constructor; [now apply Hrest|].
      apply Forall_app. split; [now apply Henum|].
      constructor; [now apply Hrest|]. now apply run_pool_trace.
    + constructor; [now apply Hrest|]. constructor; [now apply Hrest|]. now apply Henum.
  - cbn [fst snd app]. repeat constructor; now apply Hrest.
Qed.

Lemma handle_never_retires (cfg : config) (task : string * string) (w : world) :
  delete_older_than_days cfg = -1 ->
  Forall (fun ev => is_retire_event ev = false) (snd (handle cfg task w)).
Proof.
  intros Hd. destruct task as [src dst]. rewrite handle_future_run.
  pose proof (convert_no_retire src dst (codec cfg) (shuffle cfg) (level cfg) (creator cfg) w)
    as Hc.
  destruct (convert _ _ _ _ _ _ w) as [[[[nbytes used_codec]|e] w1] tr1]; cbn [fst snd] in *.
  - apply Forall_app. split; [exact Hc|]. constructor; [reflexivity|].
    rewrite retire_run, Hd. constructor.
  - destruct (is_Exception e); cbn [snd]; [|exact Hc].
    apply Forall_app. split; [exact Hc|]. repeat constructor.
Qed.

Lemma main_never_retires (cfg : config) (t : tree) (w : world) :
  delete_older_than_days cfg = -1 ->
  Forall (fun ev => is_retire_event ev = false) (snd (program cfg t w)).
Proof.
  intros Hd. apply main_trace.
  - intros ev. unfold is_result_event. rewrite !orb_false_iff. tauto.
  - reflexivity.
  - intros task w'. now apply handle_never_retires.
Qed.

Section Settings.

Variable py_int : string -> option Z.
Variable script_name : string.

Local Abbreviation script :=
  (main_script fits_decode_data fits_decode_header header_keys header_getitem
     py_str comments_contains comments_getitem XISF_write time_at as_completed
     py_int script_name).

Lemma sec_getint_raises (sec : PyDict.t string) (key : string) (fallback : Z) (e : exn) :
  sec_getint py_int sec key fallback = Raise e -> is_Exception e = true.
Proof.
  unfold sec_getint. destruct (PyDict.get key sec) as [v|]; [|discriminate].
  destruct (py_int v); [discriminate|]. intros H; inversion H; reflexivity.
Qed.

Lemma sec_getint_malformed (sec : PyDict.t string) (key v : string) (fallback : Z) :
  PyDict.get key sec = Some v -> py_int v = None ->
  exists e, sec_getint py_int sec key fallback = Raise e.
Proof. intros Hk Hv. unfold sec_getint. rewrite Hk, Hv. eauto. Qed.

(** The settings, read in the order of the source. *)
Lemma main_script_run (sec : PyDict.t string) (t : tree) (w : world) :
  script (Some sec) t w =
  match sec_getint py_int sec "level" 6 with
  | Raise e => (Raise e, w, [])
  | Ret level =>
      match sec_getint py_int sec "workers" 4 with
      | Raise e => (Raise e, w, [])
      | Ret workers =>
          match sec_getint py_int sec "delete_older_than_days" (-1) with
          | Raise e => (Raise e, w, [])
          | Ret days =>
              match PyDict.get "input_dir" sec, PyDict.get "output_dir" sec with
              | None, _ =>
                  (Raise (Exn OtherException
                            "stat: path should be string, bytes, os.PathLike or integer, not NoneType"),
                   w, [])
              | Some input_dir, None =>
                  if Fs.isdir (w_fs w) input_dir then
                    (Raise (Exn OtherException
                              "expected str, bytes or os.PathLike object, not NoneType"),
                     w, [EvIsdir input_dir])
                  else
                    (Raise (Exn SystemExit "1"), w,
                     [EvIsdir input_dir; EvPrint (MsgNotAFolder input_dir)])
              | Some input_dir, Some output_dir =>
                  program
                    {| input_dir := input_dir; output_dir := output_dir;
                       codec := sec_get sec "codec" "zlib";
                       shuffle := str2bool (sec_get sec "shuffle" "yes");
                       level := level;
                       creator := sec_get sec "creator_app" script_name;
                       workers := workers;
                       skip_existing := str2bool (sec_get sec "skip_existing" "yes");
                       delete_older_than_days := days |}
                    t w
              end
          end
      end
  end.
Proof.
  unfold main_script. rewrite bind_lift_res.
  destruct (sec_getint py_int sec "level" 6) as [lv|e]; [|reflexivity].
  rewrite bind_lift_res.
  destruct (sec_getint py_int sec "workers" 4) as [wk|e]; [|reflexivity].
  rewrite bind_lift_res.
  destruct (sec_getint py_int sec "delete_older_than_days" (-1)) as [dy|e]; [|reflexivity].
  destruct (PyDict.get "input_dir" sec) as [i|]; [|reflexivity].
  destruct (PyDict.get "output_dir" sec) as [o|]; [reflexivity|].
  unfold bind, os_path_isdir, print, emit, raise.
  destruct (Fs.isdir (w_fs w) i); reflexivity.
Qed.

(** X2.  The settings are read before anything is touched: when
    [config.ini] has no section [settings], when [level], [workers] or
    [delete_older_than_days] is given and is not an integer, or when
    [input_dir] is not given, the run ends with an exception (a
    [KeyError], a [ValueError], a [TypeError]) and has made no directory,
    copied no file and printed no line. *)
Theorem settings_read_before_any_effect
    (settings : option (PyDict.t string)) (t : tree) (w : world) :
  settings = None
  \/ (exists sec key v,
        settings = Some sec
        /\ In key ["level"; "workers"; "delete_older_than_days"]
        /\ PyDict.get key sec = Some v /\ py_int v = None)
  \/ (exists sec, settings = Some sec /\ PyDict.get "input_dir" sec = None) ->
  exists e, script settings t w = (Raise e, w, []) /\ is_Exception e = true.
Proof.
  intros [->|[(sec & key & v & -> & Hkey & Hget & Hint)|(sec & -> & Hin)]].
  - eexists. split; reflexivity.
  - rewrite main_script_run.
    pose proof (sec_getint_raises sec "level" 6) as H1.
    pose proof (sec_getint_raises sec "workers" 4) as H2.
    pose proof (sec_getint_raises sec "delete_older_than_days" (-1)) as H3.
    destruct (sec_getint py_int sec "level" 6) as [lv|e1] eqn:E1; [|eauto].
    destruct (sec_getint py_int sec "workers" 4) as [wk|e2] eqn:E2; [|eauto].
    destruct (sec_getint py_int sec "delete_older_than_days" (-1)) as [dy|e3] eqn:E3; [|eauto].
    exfalso.
    destruct Hkey as [<-|[<-|[<-|[]]]];
      match goal with
      | E : sec_getint py_int sec ?k ?fb = Ret _ |- _ =>
          destruct (sec_getint_malformed sec k v fb Hget Hint) as [e He];
          rewrite He in E; discriminate E
      end.
  - rewrite main_script_run, Hin.
    pose proof (sec_getint_raises sec "level" 6) as H1.
    pose proof (sec_getint_raises sec "workers" 4) as H2.
    pose proof (sec_getint_raises sec "delete_older_than_days" (-1)) as H3.
    destruct (sec_getint py_int sec "level" 6) as [lv|e1]; [|eauto].
    destruct (sec_getint py_int sec "workers" 4) as [wk|e2]; [|eauto].
    destruct (sec_getint py_int sec "delete_older_than_days" (-1)) as [dy|e3]; [|eauto].
    eexists. split; reflexivity.
Qed.

(** X3.  When the settings give no [delete_older_than_days], the run
    deletes nothing: it never calls [os.remove], never reads a
    modification time or the clock, and prints none of the lines of the
    retirement. *)
Theorem no_threshold_no_deletion (sec : PyDict.t string) (t : tree) (w : world) :
  PyDict.get "delete_older_than_days" sec = None ->
  Forall (fun ev => is_retire_event ev = false) (snd (script (Some sec) t w)).
Proof.
  intros Hd. rewrite main_script_run.
  destruct (sec_getint py_int sec "level" 6) as [lv|e1]; [|constructor].
  destruct (sec_getint py_int sec "workers" 4) as [wk|e2]; [|constructor].
  unfold sec_getint at 1. rewrite Hd.
  destruct (PyDict.get "input_dir" sec) as [i|]; [|constructor].
  destruct (PyDict.get "output_dir" sec) as [o|].
  - now apply main_never_retires.
  - destruct (Fs.isdir (w_fs w) i); repeat constructor.
Qed.

End Settings.

End Run.

Lemma settings_read_before_any_effect_witness :
  exists e,
    ToySettings.main_script
      (Some [("input_dir", "in"); ("output_dir", "out"); ("workers", "four")])
      Toy.tree0 Toy.world0
    = (Raise e, Toy.world0, [])
    /\ is_Exception e = true.
Proof.
  apply (settings_read_before_any_effect
           Toy.decode_data Toy.decode_header Toy.header_keys Toy.header_getitem
           (fun v => v) Toy.comments_contains Toy.comments_getitem Toy.XISF_write
           Toy.time_at Toy.as_completed ToySettings.py_int "fits_to_xisf_batch.py").
  right. left.
  exists [("input_dir", "in"); ("output_dir", "out"); ("workers", "four")], "workers", "four".
  split; [reflexivity|]. split; [right; now left|]. split; reflexivity.
Defined.

Lemma no_threshold_no_deletion_witness :
  Forall (fun ev => is_retire_event ev = false)
    (snd (ToySettings.main_script
            (Some [("input_dir", "in"); ("output_dir", "out")]) Toy.tree0 Toy.world0)).
Proof.
  apply (no_threshold_no_deletion
           Toy.decode_data Toy.decode_header Toy.header_keys Toy.header_getitem
           (fun v => v) Toy.comments_contains Toy.comments_getitem Toy.XISF_write
           Toy.time_at Toy.as_completed ToySettings.py_int "fits_to_xisf_batch.py").
  reflexivity.
Defined.

(** ** The results of the tasks *)

Lemma float_ge_int_negative (f : float) (n : Z) :
  n < 0 -> float_nonneg f = true -> float_ge_int f n = true.
Proof.
  intros Hn. unfold float_nonneg, float_ge_int.
  destruct (Prim2SF f) as [neg|neg| |neg m e]; try (intros H; exact H || discriminate H).
  - intros _. apply Z.leb_le. lia.
  - destruct neg; [discriminate|]. intros _.
    destruct (Z.leb_spec 0 e) as [He|He]; apply Z.leb_le.
    + pose proof (Z.pow_pos_nonneg 2 e ltac:(lia) He). nia.
    + pose proof (Z.pow_pos_nonneg 2 (- e) ltac:(lia) ltac:(lia)). nia.
Qed.

Section Results.

Context {header hvalue : Type}.
Variable fits_decode_data : string -> res Numpy.ndarray.
Variable fits_decode_header : string -> res header.
Variable header_keys : header -> list string.
Variable header_getitem : header -> string -> hvalue.
Variable py_str : hvalue -> string.
Variable comments_contains : header -> string -> bool.
Variable comments_getitem : header -> string -> string.
Variable XISF_write :
  xisf_args -> gmap Fs.path Fs.node -> res (Z * string) * gmap Fs.path Fs.node.
Variable time_at : nat -> float.

Local Abbreviation convert :=
  (convert_fits_to_xisf fits_decode_data fits_decode_header header_keys header_getitem
     py_str comments_contains comments_getitem XISF_write).
Local Abbreviation keywords :=
  (build_fits_keywords header_keys header_getitem py_str comments_contains comments_getitem).
Local Abbreviation handle :=
  (handle_future fits_decode_data fits_decode_header header_keys header_getitem
     py_str comments_contains comments_getitem XISF_write time_at).




(** X6.  A threshold below -1 is not taken as "keep": it is an age check
    like a positive one.  The modification time and the clock are read,
    and [os.remove] is called on every source whose age,
    [(now - mtime) / 86400], is not negative, since any such age is at
    least the threshold: the source is then gone, unless the call is
    refused, which is reported.  When the age is below the threshold, or
    cannot be read, the source is kept, and the too-recent line is never
    printed. *)
Theorem threshold_below_minus_one_is_an_age_check (cfg : config) (src : string) (w : world) :
  delete_older_than_days cfg < -1 ->
  let run := retire time_at cfg src w in
  ~ In (EvPrint (MsgTooRecent src)) (snd run)
  /\ match Fs.getmtime (w_fs w) src with
     | Some mtime =>
         let now := time_at (w_tick w) in
         let age := PrimFloat.div (PrimFloat.sub now mtime) 86400%float in
         (exists rest, snd run = EvGetmtime src :: EvTime now :: rest)
         /\ (float_nonneg age = true -> remove_called src w (snd (fst run)) (snd run))
         /\ (float_ge_int age (delete_older_than_days cfg) = false ->
             w_fs (snd (fst run)) = w_fs w /\ snd run = [EvGetmtime src; EvTime now])
     | None =>
         w_fs (snd (fst run)) = w_fs w
         /\ exists err, snd run = [EvGetmtime src; EvPrint (MsgAgeCheckFailed src err)]
     end.
Proof.
  intros Hd. cbv zeta. rewrite retire_run. cbv zeta.
  destruct (Z.eqb_spec (delete_older_than_days cfg) (-1)) as [|_]; [lia|].
  destruct (Z.eqb_spec (delete_older_than_days cfg) 0) as [|_]; [lia|].
  destruct (Z.ltb_spec 0 (delete_older_than_days cfg)) as [|_]; [lia|].
  destruct (Fs.getmtime (w_fs w) src) as [mtime|].
  - change (PrimFloat.div (PrimFloat.sub (time_at (w_tick w)) mtime) 86400%float)
      with (file_age_days (time_at (w_tick w)) mtime).
    destruct (float_ge_int _ (delete_older_than_days cfg)) eqn:Hge.
    + pose proof (remove_step_called src (tick w) w
                    [EvGetmtime src; EvTime (time_at (w_tick w))] eq_refl eq_refl) as Hc.
      pose proof (remove_step_spec src (tick w)
                    [EvGetmtime src; EvTime (time_at (w_tick w))]) as Hdel.
      destruct (remove_step src (tick w) _) as [[r w2] tr2]. cbn [fst snd] in *.
      destruct Hdel as (_ & _ & _ & Hdel).
      assert (Htr : exists rest, tr2 = EvGetmtime src :: EvTime (time_at (w_tick w)) :: rest
                                 /\ ~ In (EvPrint (MsgTooRecent src)) tr2).
      { destruct (removable (tick w) src);
          [destruct Hdel as (_ & _ & ->) | destruct Hdel as (_ & ->)];
          (eexists; split; [reflexivity|]); simpl;
          intros H; decompose [or] H; (discriminate || contradiction). }
      destruct Htr as (rest & Hrest & Hno).
      split; [exact Hno|]. split; [eauto|]. split; [|discriminate].
      intros _. exact Hc.
    + cbn [fst snd app].
      split; [intros [H|[H|[]]]; discriminate H|].
      split; [eauto|]. split.
      * intros Hnn.
        assert (Hneg : delete_older_than_days cfg < 0) by lia.
        rewrite (float_ge_int_negative _ _ Hneg Hnn) in Hge. discriminate.
      * intros _. split; reflexivity.
  - cbn [fst snd app].
    split; [intros [H|[H|[]]]; discriminate H|].
    split; [reflexivity | eauto].
Qed.


(** X13.  A conversion that went through on the second call of the
    encoder, the one without metadata, counts as converted like any
    other: the loop prints the converted line and, with
    [delete_older_than_days = 0], calls [os.remove] on the source, whose
    header keywords were in the rejected call only; the source is then
    gone, unless the call is refused. *)
Theorem fallback_success_retires_the_source
    (cfg : config) (src dst : string) (w : world)
    (c : string) (m : float) (d : Numpy.ndarray) (h : header)
    (e : exn) (fs1 fs2 : gmap Fs.path Fs.node) (nbytes : Z) (used_codec : string) :
  let a1 := args_with_metadata dst (add_channel_axis d) (keywords h)
              (codec cfg) (shuffle cfg) (level cfg) (creator cfg) in
  let a2 := args_without_metadata dst (add_channel_axis d)
              (codec cfg) (shuffle cfg) (level cfg) (creator cfg) in
  Fs.stat (w_fs w) src = Some (Fs.File c m) ->
  fits_decode_data c = Ret d ->
  fits_decode_header c = Ret h ->
  XISF_write a1 (w_fs w) = (Raise e, fs1) ->
  metadata_shape_rejected e = true ->
  XISF_write a2 fs1 = (Ret (nbytes, used_codec), fs2) ->
  delete_older_than_days cfg = 0 ->
  let run := handle cfg (src, dst) w in
  fst (fst run) = Ret tt
  /\ xa_image_metadata a2 = None
  /\ exists rest,
       snd run = [EvGetdata src; EvGetheader src; EvXisfWrite a1; EvXisfWrite a2;
                  EvPrint (MsgConverted src dst nbytes used_codec); EvRemove src; rest]
       /\ if removable (with_fs w fs2) src
          then w_fs (snd (fst run)) = base.delete (Fs.resolve src) fs2
               /\ Fs.isfile (w_fs (snd (fst run))) src = false
               /\ rest = EvPrint (MsgDeleted src)
          else w_fs (snd (fst run)) = fs2
               /\ exists err, rest = EvPrint (MsgDeleteFailed src err).
Proof.
  intros a1 a2 Hst Hd Hh H1 Hrej H2 Hdays run. subst run.
  rewrite handle_future_run, convert_run, Hst, Hd, Hh.
  unfold write_with_fallback. fold a1 a2. rewrite H1, Hrej, H2.
  cbn [fst snd]. rewrite retire_run, Hdays. cbn [Z.eqb].
  pose proof (remove_step_spec src (with_fs w fs2) []) as Hdel.
  destruct (remove_step src (with_fs w fs2) []) as [[r w2] tr2]. cbn [fst snd app] in *.
  destruct Hdel as (_ & _ & _ & Hdel).
  split; [reflexivity|]. split; [reflexivity|].
  destruct (removable (with_fs w fs2) src).
  - destruct Hdel as (Hfs & Hgone & ->). eexists. split; [reflexivity|]. now repeat split.
  - destruct Hdel as (Hfs & ->). eexists. split; [reflexivity|]. split; [exact Hfs | eauto].
Qed.

End Results.

Lemma threshold_below_minus_one_witness :
  Fs.isfile (w_fs Toy.world0) "in/m31.fits" = true
  /\ Fs.isfile (w_fs (snd (fst (retire Toy.time_at (Toy.cfg (-2)) "in/m31.fits" Toy.world0))))
       "in/m31.fits" = false.
Proof.
  split; [vm_compute; reflexivity|].
  assert (Hd : delete_older_than_days (Toy.cfg (-2)) < -1) by (vm_compute; reflexivity).
  pose proof (proj2 (threshold_below_minus_one_is_an_age_check
                       Toy.time_at (Toy.cfg (-2)) "in/m31.fits" Toy.world0 Hd)) as H.
  destruct (Fs.getmtime (w_fs Toy.world0) "in/m31.fits") as [mtime|] eqn:Hm;
    [|discriminate Hm].
  assert (Hmt : mtime = 568000%float) by (vm_compute in Hm; congruence).
  subst mtime. cbv zeta in H. destruct H as (_ & Hcall & _).
  assert (Hnn : float_nonneg (PrimFloat.div (PrimFloat.sub (Toy.time_at 0) 568000%float)
                                86400%float) = true) by (vm_compute; reflexivity).
  destruct (Hcall Hnn) as [_ Hc].
  assert (Hr : removable Toy.world0 "in/m31.fits" = true) by (vm_compute; reflexivity).
  rewrite Hr in Hc. exact (proj1 (proj2 Hc)).
Defined.


Lemma fallback_success_retires_witness :
  Fs.isfile (w_fs Toy.world_odd) "in/odd.fits" = true
  /\ Fs.isfile
       (w_fs (snd (fst (Toy.handle (Toy.cfg 0) ("in/odd.fits", "out/odd.xisf") Toy.world_odd))))
       "in/odd.fits" = false.
Proof.
  split; [vm_compute; reflexivity|].
  assert (H : _) by
    (refine (proj2 (proj2
       (fallback_success_retires_the_source
          Toy.decode_data Toy.decode_header Toy.header_keys Toy.header_getitem
          (fun v => v) Toy.comments_contains Toy.comments_getitem Toy.XISF_write
          Toy.time_at (Toy.cfg 0) "in/odd.fits" "out/odd.xisf" Toy.world_odd
          "SIMPLE ODD" 100000%float Toy.pixels
          [("SIMPLE", "True", "conforms to FITS standard"); ("NAXIS", "2", EmptyString);
           ("HISTORY", "dark subtracted", EmptyString);
           ("HISTORY", "flat fielded", EmptyString); ("ODD", "()", EmptyString)]
          (Exn OtherException "tuple index out of range") (w_fs Toy.world_odd)
          (<[["out"; "odd.xisf"] := Fs.File "XISF0100" 2000000%float]> (w_fs Toy.world_odd))
          6 "zlib" _ _ _ _ _ _ _))); vm_compute; reflexivity).
  destruct H as (rest & _ & H).
  match type of H with
  | context [removable ?a ?b] =>
      assert (Hr : removable a b = true) by (vm_compute; reflexivity); rewrite Hr in H
  end.
  exact (proj1 (proj2 H)).
Defined.

(** ** What the enumeration enqueues, skips and leaves alone *)

Lemma sublist_same_length {A} (l1 l2 : list A) :
  sublist l1 l2 -> length l1 = length l2 -> l1 = l2.
Proof.
  induction 1 as [|x l1 l2 Hs IH|x l1 l2 Hs IH]; cbn [length]; intros Hl.
  - reflexivity.
  - f_equal. apply IH. lia.
  - apply sublist_length in Hs. lia.
Qed.

Lemma length_filter_cons {A} (f : A -> bool) (x : A) (l : list A) :
  length (filter f (x :: l)) = ((if f x then 1 else 0) + length (filter f l))%nat.
Proof.
  rewrite filter_cons.
  destruct (decide (f x)) as [H|H]; destruct (f x); cbn [length Nat.add] in *;
    try reflexivity; try contradiction.
  exfalso. apply H. exact I.
Qed.

Lemma filter_cons_false {A} (f : A -> bool) (x : A) (l : list A) :
  f x = false -> filter f (x :: l) = filter f l.
Proof.
  intros Hf. rewrite filter_cons.
  destruct (decide (f x)) as [H|H]; [|reflexivity]. rewrite Hf in H. contradiction.
Qed.

Lemma enumerate_file_account (cfg : config) (root dest_root : string)
    (acc : list (string * string)) (fn : string) (w : world)
    (r : list (string * string)) (w' : world) (tr : list event) :
  enumerate_file cfg root dest_root acc fn w = (Ret r, w', tr) ->
  (length r + length (filter is_skip tr) = length acc + (if is_fits fn then 1 else 0))%nat
  /\ (skip_existing cfg = false -> filter is_skip tr = []).
Proof.
  rewrite enumerate_file_run. cbv zeta. destruct (is_fits fn).
  - destruct (Fs.exists_ _ _); destruct (skip_existing cfg); cbn [andb];
      intros H; inversion H; subst; rewrite ?length_app; cbn [length];
      (split; [simpl; lia | (discriminate || reflexivity)]).
  - destruct (Fs.copy2 _ _ _); intros H; inversion H; subst.
    split; [simpl; lia | reflexivity].
Qed.

Lemma enumerate_files_account (cfg : config) (root dest_root : string) (files : list string) :
  forall (acc : list (string * string)) (w : world)
         (r : list (string * string)) (w' : world) (tr : list event),
    foldM (enumerate_file cfg root dest_root) acc files w = (Ret r, w', tr) ->
    (length r + length (filter is_skip tr)
     = length acc + length (filter is_fits files))%nat
    /\ (skip_existing cfg = false -> filter is_skip tr = []).
Proof.
  induction files as [|fn files IH]; intros acc w r w' tr Hrun; cbn [foldM] in Hrun.
  - inversion Hrun; subst. split; [simpl; lia | reflexivity].
  - rewrite bind_run in Hrun.
    destruct (enumerate_file cfg root dest_root acc fn w) as [[[acc1|e] w1] t1] eqn:Hb;
      [|discriminate].
    cbn [fst snd] in Hrun.
    destruct (foldM _ acc1 files w1) as [[r2 w2] t2] eqn:Hf. cbn [fst snd] in Hrun.
    inversion Hrun; subst.
    destruct (enumerate_file_account _ _ _ _ _ _ _ _ _ Hb) as [H1 H1'].
    destruct (IH _ _ _ _ _ Hf) as [H2 H2'].
    rewrite filter_app, length_app, length_filter_cons. split; [lia|].
    intros Hs. now rewrite (H1' Hs), (H2' Hs).
Qed.

Lemma resolve_copy_target (fs : gmap Fs.path Fs.node) (root dest_root fn : string) :
  valid_name fn = true ->
  exists pre,
    Fs.resolve (Fs.copy_target fs (PyStr.join root fn) (PyStr.join dest_root fn))
    = (pre ++ [fn])%list.
Proof.
  intros Hv. pose proof (valid_name_inv fn Hv) as (Hs & _).
  assert (Hb : Fs.basename (PyStr.join root fn) = fn).
  { rewrite (join_relative root fn) by now apply startswith_slash.
    unfold Fs.basename.
    rewrite (rfind_slash_prefix _ fn (join_prefix_cases root) Hs).
    replace (Z.to_nat (Z.of_nat (String.length (join_prefix root)) - 1 + 1))
      with (String.length (join_prefix root) + 0)%nat by lia.
    now rewrite drop_app_length. }
  unfold Fs.copy_target. rewrite Hb.
  destruct (Fs.isdir fs (PyStr.join dest_root fn)).
  - exists (Fs.resolve dest_root ++ [fn])%list. now rewrite !resolve_join_name.
  - exists (Fs.resolve dest_root). now rewrite resolve_join_name.
Qed.

Lemma not_fits_key (pre : list string) (fn : string) :
  is_fits fn = false -> ~ fits_key (pre ++ [fn])%list.
Proof.
  intros Hf (pre' & fn' & Hf' & Heq). apply app_inj_tail in Heq as [_ ->]. congruence.
Qed.

Lemma keeps_convertible_refl (fs : gmap Fs.path Fs.node) : keeps_convertible fs fs.
Proof. intros r n _ H. exact H. Qed.

Lemma keeps_convertible_trans (fs1 fs2 fs3 : gmap Fs.path Fs.node) :
  keeps_convertible fs1 fs2 -> keeps_convertible fs2 fs3 -> keeps_convertible fs1 fs3.
Proof. intros H12 H23 r n Hk H. apply H23; [exact Hk|]. now apply H12. Qed.

Lemma mkdir_p_lookup (now : float) (rest pre : Fs.path) (fs : gmap Fs.path Fs.node)
    (r : Fs.path) (n : Fs.node) :
  fs !! r = Some n -> fst (Fs.mkdir_p now pre rest fs) !! r = Some n.
Proof.
  revert pre fs. induction rest as [|c rest IH]; intros pre fs Hr; cbn [Fs.mkdir_p].
  - exact Hr.
  - destruct (fs !! (pre ++ [c])%list) as [[c' m|m]|] eqn:E.
    + exact Hr.
    + now apply IH.
    + apply IH. rewrite lookup_insert_ne; [exact Hr|]. intros Heq. rewrite Heq in E. congruence.
Qed.

Lemma enumerate_file_keeps (cfg : config) (root dest_root : string)
    (acc : list (string * string)) (fn : string) (w : world) :
  valid_name fn = true ->
  keeps_convertible (w_fs w)
    (w_fs (snd (fst (enumerate_file cfg root dest_root acc fn w)))).
Proof.
  intros Hv. rewrite enumerate_file_run. cbv zeta. destruct (is_fits fn) eqn:Hf.
  - destruct (_ && _); apply keeps_convertible_refl.
  - destruct (Fs.copy2 _ _ _) as [fs'|] eqn:Hc; cbn [fst snd w_fs with_fs];
      [|apply keeps_convertible_refl].
    unfold Fs.copy2 in Hc.
    destruct (Fs.stat (w_fs w) (PyStr.join root fn)) as [[c m|m]|]; try discriminate.
    destruct (bool_decide _); [discriminate|].
    destruct (Fs.isdir _ (Fs.copy_target _ _ _)); [discriminate|].
    destruct (String.eqb _ ""); [discriminate|].
    destruct (Fs.parent_is_dir _ _); [|discriminate].
    inversion Hc; subst fs'. intros r n Hk Hr.
    destruct (resolve_copy_target (w_fs w) root dest_root fn Hv) as [pre Hpre].
    rewrite lookup_insert_ne; [exact Hr|].
    intros <-. rewrite Hpre in Hk. now apply (not_fits_key pre fn Hf).
Qed.

Lemma foldM_keep_In {A B} (body : B -> A -> M B) (Q : world -> Prop) (l : list A) :
  (forall acc x w, In x l -> Q w -> Q (snd (fst (body acc x w)))) ->
  forall acc w, Q w -> Q (snd (fst (foldM body acc l w))).
Proof.
  induction l as [|x l IH]; intros Hb acc w Hq; cbn [foldM]; [exact Hq|].
  rewrite bind_run. pose proof (Hb acc x w (or_introl eq_refl) Hq) as Hx.
  destruct (body acc x w) as [[[acc'|e] w1] t1]; cbn [fst snd] in *; [|exact Hx].
  apply IH; [|exact Hx]. intros a y w0 Hy. apply Hb. now right.
Qed.

Lemma toy_tree0_wf : tree_wf Toy.tree0.
Proof.
  cbn [Toy.tree0 tree_wf]. repeat split; repeat constructor;
    (reflexivity || (intros H; apply list_elem_of_In in H; simpl in H;
                     intuition discriminate)).
Qed.

Section Walked.

Variable time_at : nat -> float.

Lemma enumerate_entries_account (cfg : config)
    (entries : list (string * list string * list string)) :
  forall (acc : list (string * string)) (w : world)
         (r : list (string * string)) (w' : world) (tr : list event),
    foldM (enumerate_dir time_at cfg) acc entries w = (Ret r, w', tr) ->
    (length r + length (filter is_skip tr)
     = length acc + length (all_tasks cfg entries))%nat
    /\ (skip_existing cfg = false -> filter is_skip tr = []).
Proof.
  induction entries as [|[[root dirs] files] entries IH];
    intros acc w r w' tr Hrun; cbn [foldM] in Hrun.
  - inversion Hrun; subst. split; [simpl; lia | reflexivity].
  - rewrite bind_run in Hrun.
    destruct (enumerate_dir time_at cfg acc (root, dirs, files) w)
      as [[[acc1|e] w1] t1] eqn:Hb; [|discriminate].
    cbn [fst snd] in Hrun.
    destruct (foldM _ acc1 entries w1) as [[r2 w2] t2] eqn:Hf. cbn [fst snd] in Hrun.
    inversion Hrun; subst.
    unfold enumerate_dir in Hb. rewrite bind_run in Hb.
    pose proof (os_makedirs_events time_at
                  (PyStr.join (output_dir cfg) (Fs.relpath root (input_dir cfg))) w) as Hm.
    destruct (os_makedirs _ _ w) as [[[[]|e] w3] t3]; [|discriminate].
    cbn [fst snd] in Hb, Hm. subst t3.
    destruct (foldM _ acc files w3) as [[r4 w4] t4] eqn:Hfiles. cbn [fst snd] in Hb.
    inversion Hb; subst.
    destruct (enumerate_files_account _ _ _ _ _ _ _ _ _ Hfiles) as [H1 H1'].
    destruct (IH _ _ _ _ _ Hf) as [H2 H2'].
    unfold all_tasks in *. cbn [flat_map fst snd].
    rewrite filter_app, (filter_cons_false is_skip (EvMakedirs _)) by reflexivity.
    rewrite !length_app, length_map.
    split; [lia|]. intros Hs. now rewrite (H1' Hs), (H2' Hs).
Qed.

(** X8.  When the enumeration ends, every convertible file that
    [os.walk] reported has either been enqueued or been reported as
    skipped, none both and none twice: the tasks and the skip lines
    together are as many as the convertible files.  The tasks stand in
    the order of the walk.  With [skip_existing] off no file is skipped:
    the tasks are all the convertible files, whether their destinations
    exist or not. *)
Theorem every_convertible_file_enqueued_or_skipped
    (cfg : config) (t : tree) (w : world)
    (fits_tasks : list (string * string)) (w' : world) (tr : list event) :
  enumerate time_at cfg t w = (Ret fits_tasks, w', tr) ->
  sublist fits_tasks (all_tasks cfg (walk (input_dir cfg) t))
  /\ (length fits_tasks + length (filter is_skip tr)
      = length (all_tasks cfg (walk (input_dir cfg) t)))%nat
  /\ (skip_existing cfg = false ->
      fits_tasks = all_tasks cfg (walk (input_dir cfg) t) /\ filter is_skip tr = []).
Proof.
  intros Hrun. pose proof (enumerate_tasks time_at cfg t w _ _ _ Hrun) as Hsub.
  unfold enumerate in Hrun.
  destruct (enumerate_entries_account cfg _ _ _ _ _ _ Hrun) as [Hlen Hno].
  cbn [length Nat.add] in Hlen.
  split; [exact Hsub|]. split; [exact Hlen|].
  intros Hs. specialize (Hno Hs). split; [|exact Hno].
  apply sublist_same_length; [exact Hsub|]. rewrite Hno in Hlen. cbn [length] in Hlen. lia.
Qed.

Lemma os_makedirs_keeps (p : string) (w : world) :
  keeps_convertible (w_fs w) (w_fs (snd (fst (os_makedirs time_at p w)))).
Proof.
  unfold os_makedirs. destruct (String.eqb p ""); [apply keeps_convertible_refl|].
  pose proof (fun r n => mkdir_p_lookup (time_at (w_tick w)) (Fs.resolve p) [] (w_fs w) r n)
    as Hl.
  destruct (Fs.mkdir_p _ _ _ _) as [fs' ok]. cbn [fst] in Hl.
  destruct ok; cbn [fst snd w_fs]; intros r n _ Hr; now apply Hl.
Qed.

(** X10.  The enumeration leaves every entry under a convertible name
    as it is: no file whose name ends in [.fits], in the input tree or
    anywhere else in the store, is overwritten, replaced or removed by
    the directories it makes and the copies it takes, however far the
    enumeration gets. *)
Theorem enumeration_leaves_convertible_names_alone (cfg : config) (t : tree) (w : world) :
  tree_wf t ->
  keeps_convertible (w_fs w) (w_fs (snd (fst (enumerate time_at cfg t w)))).
Proof.
  intros Hwf. unfold enumerate.
  pose proof (walk_files_valid t (input_dir cfg) Hwf) as Hvalid.
  rewrite Forall_forall in Hvalid.
  apply (foldM_keep_In _ (fun w0 => keeps_convertible (w_fs w) (w_fs w0)));
    [|apply keeps_convertible_refl].
  intros acc [[root dirs] files] w0 Hin Hk0.
  apply list_elem_of_In, Hvalid in Hin. cbn [snd] in Hin. rewrite Forall_forall in Hin.
  unfold enumerate_dir. rewrite bind_run.
  pose proof (os_makedirs_keeps
                (PyStr.join (output_dir cfg) (Fs.relpath root (input_dir cfg))) w0) as Hm.
  destruct (os_makedirs _ _ w0) as [[[[]|e] w1] t1]; cbn [fst snd] in *.
  - apply (foldM_keep_In _ (fun w2 => keeps_convertible (w_fs w) (w_fs w2)));
      [|eapply keeps_convertible_trans; eassumption].
    intros acc1 fn w2 Hfn Hk2. eapply keeps_convertible_trans; [exact Hk2|].
    apply enumerate_file_keeps. apply Hin. now apply list_elem_of_In.
  - eapply keeps_convertible_trans; eassumption.
Qed.

End Walked.

Lemma every_convertible_file_witness :
  sublist [("in/m31.fits", "out/./m31.xisf"); ("in/dark/d1.FITS", "out/dark/d1.xisf")]
          (all_tasks (Toy.cfg 5) (walk "in" Toy.tree0)).
Proof.
  refine (proj1 (every_convertible_file_enqueued_or_skipped
                   Toy.time_at (Toy.cfg 5) Toy.tree0 Toy.world0
                   [("in/m31.fits", "out/./m31.xisf"); ("in/dark/d1.FITS", "out/dark/d1.xisf")]
                   (snd (fst (enumerate Toy.time_at (Toy.cfg 5) Toy.tree0 Toy.world0)))
                   (snd (enumerate Toy.time_at (Toy.cfg 5) Toy.tree0 Toy.world0))
                   _)).
  vm_compute. reflexivity.
Defined.

Lemma enumeration_leaves_convertible_witness :
  w_fs (snd (fst (enumerate Toy.time_at (Toy.cfg 5) Toy.tree0 Toy.world0)))
    !! ["in"; "m31.fits"]
  = Some (Fs.File "SIMPLE m31" 568000%float).
Proof.
  apply (enumeration_leaves_convertible_names_alone
           Toy.time_at (Toy.cfg 5) Toy.tree0 Toy.world0 toy_tree0_wf).
  - exists ["in"], "m31.fits". split; reflexivity.
  - vm_compute. reflexivity.
Defined.

(** ** The name of a destination *)

Lemma eqb_lower_char_dot (c : ascii) :
  Ascii.eqb (PyStr.lower_char c) "." = Ascii.eqb c ".".
Proof. destruct c as [[] [] [] [] [] [] [] []]; reflexivity. Qed.

Lemma rfind_dot_lower (s : string) : PyStr.rfind "." (PyStr.lower s) = PyStr.rfind "." s.
Proof.
  induction s as [|c s IH]; cbn [PyStr.lower PyStr.rfind]; [reflexivity|].
  now rewrite IH, eqb_lower_char_dot.
Qed.

Lemma rfind_dot_fits (fn : string) :
  is_fits fn = true -> PyStr.rfind "." fn = Z.of_nat (String.length fn - 5).
Proof.
  unfold is_fits. intros H. apply endswith_spec in H as [p Hp].
  pose proof (lower_length fn) as Hlen. rewrite Hp, str_length_app in Hlen.
  cbn [String.length] in Hlen.
  rewrite <- rfind_dot_lower, Hp, rfind_app.
  change (PyStr.rfind "." ".fits") with 0. cbn [Z.leb Z.compare]. lia.
Qed.

Lemma is_fits_xisf_name (fn : string) : is_fits (xisf_name fn) = false.
Proof.
  destruct (is_fits (xisf_name fn)) eqn:H; [|reflexivity].
  now destruct (is_fits_not_xisf (xisf_name fn) fn H).
Qed.

(** X11.  The destination of a convertible file keeps its directory and
    changes its name alone: the five characters of the extension, in
    whatever case they are written, give way to [.xisf].  A name that is
    nothing but dots before the extension (as [.fits] is) is the
    exception: [os.path.splitext] finds no extension in it, and [.xisf]
    is added to the whole name.  Either way the destination is not
    itself a convertible name. *)
Theorem destination_name_of_a_convertible_file (fn : string) :
  is_fits fn = true ->
  has_char "/" fn = false ->
  let stem := PyStr.take (String.length fn - 5) fn in
  xisf_name fn = (if PyStr.all_dots stem then fn else stem) ++ ".xisf"
  /\ is_fits (xisf_name fn) = false
  /\ forall dest_root,
       Fs.resolve (xisf_name (PyStr.join dest_root fn))
       = (Fs.resolve dest_root ++ [xisf_name fn])%list.
Proof.
  intros Hf Hs stem. split; [|split].
  - unfold xisf_name, PyStr.splitext.
    rewrite (rfind_none _ _ Hs), (rfind_dot_fits fn Hf).
    destruct (Z.ltb_spec (-1) (Z.of_nat (String.length fn - 5))) as [_|]; [|lia].
    change (Z.to_nat (-1 + 1)) with 0%nat.
    rewrite Nat2Z.id, Nat.sub_0_r. cbn [PyStr.drop]. fold stem.
    now destruct (PyStr.all_dots stem).
  - apply is_fits_xisf_name.
  - intros dest_root. now apply resolve_xisf_name.
Qed.

Lemma destination_name_witness :
  xisf_name "m31.FiTs" = "m31.xisf" /\ xisf_name "..fits" = "..fits.xisf".
Proof.
  split.
  - exact (proj1 (destination_name_of_a_convertible_file "m31.FiTs" eq_refl eq_refl)).
  - exact (proj1 (destination_name_of_a_convertible_file "..fits" eq_refl eq_refl)).
Defined.

(** ** A converted file beside its source *)

Lemma copy2_dst_exists (fs fs' : gmap Fs.path Fs.node) (src dst : string) :
  Fs.copy2 fs src dst = Some fs' -> Fs.exists_ fs' dst = true.
Proof.
  intros Hc. pose proof (copy2_grows _ _ _ _ Hc) as Hg.
  destruct (copy2_copies _ _ _ _ Hc) as (c & m & _ & Ht).
  unfold Fs.copy_target in Ht. destruct (Fs.isdir fs dst) eqn:Hd.
  - apply (grows_isdir _ _ _ Hg) in Hd. unfold Fs.isdir in Hd. unfold Fs.exists_.
    destruct (Fs.stat fs' dst); [reflexivity | discriminate].
  - unfold Fs.exists_. now rewrite Ht.
Qed.

(** X12.  A file that lies in the input beside a convertible file and
    bears the name of its destination ([m31.xisf] beside [m31.fits]) is
    not convertible, so it is copied, and its copy goes to the very path
    the conversion would write.  When the walk lists it before the
    convertible file and [skip_existing] is on, the convertible file then
    finds its destination there and is skipped, not converted. *)
Theorem converted_file_beside_its_source_is_copied_over
    (cfg : config) (root dest_root : string) (acc : list (string * string))
    (fn : string) (w : world)
    (r : list (string * string)) (w' : world) (tr : list event) :
  has_char "/" fn = false ->
  is_fits fn = true ->
  skip_existing cfg = true ->
  enumerate_file cfg root dest_root acc (xisf_name fn) w = (Ret r, w', tr) ->
  r = acc
  /\ tr = [EvCopy2 (PyStr.join root (xisf_name fn)) (xisf_name (PyStr.join dest_root fn))]
  /\ enumerate_file cfg root dest_root acc fn w'
     = (Ret acc, w',
        [EvExists (xisf_name (PyStr.join dest_root fn));
         EvPrint (MsgSkipping (PyStr.join root fn))]).
Proof.
  intros Hs Hf Hskip. rewrite !enumerate_file_run. cbv zeta.
  rewrite is_fits_xisf_name, Hf, Hskip, (xisf_name_join dest_root fn Hs).
  destruct (Fs.copy2 _ _ _) as [fs'|] eqn:Hc; [|discriminate].
  intros H; inversion H; subst. cbn [w_fs with_fs].
  rewrite (copy2_dst_exists _ _ _ _ Hc). now repeat split.
Qed.

Lemma converted_file_beside_its_source_witness :
  let w0 := {| w_fs := list_to_map
                         [(["in"], Fs.Dir 0%float);
                          (["in"; "m31.xisf"], Fs.File "XISF0100" 500000%float);
                          (["in"; "m31.fits"], Fs.File "SIMPLE m31" 568000%float);
                          (["out"], Fs.Dir 0%float)];
               w_tick := 0; w_protected := ∅ |} in
  let w1 := snd (fst (enumerate_file (Toy.cfg 5) "in" "out" [] "m31.xisf" w0)) in
  enumerate_file (Toy.cfg 5) "in" "out" [] "m31.fits" w1
  = (Ret [], w1, [EvExists "out/m31.xisf"; EvPrint (MsgSkipping "in/m31.fits")]).
Proof.
  intros w0 w1.
  refine (proj2 (proj2 (converted_file_beside_its_source_is_copied_over
                          (Toy.cfg 5) "in" "out" [] "m31.fits" w0 [] w1
                          [EvCopy2 "in/m31.xisf" "out/m31.xisf"] eq_refl eq_refl eq_refl _))).
  vm_compute. reflexivity.
Defined.

(** ** What a run announces and what it asks of the encoder *)

Ltac by_event :=
  let ev := fresh "ev" in
  let m := fresh "m" in
  intros ev; destruct ev as [| | | | | | | | | | |m]; try (now intros); now destruct m.

Lemma filter_cons_true {A} (f : A -> bool) (x : A) (l : list A) :
  f x = true -> filter f (x :: l) = x :: filter f l.
Proof.
  intros Hf. rewrite filter_cons.
  destruct (decide (f x)) as [H|H]; [reflexivity|]. rewrite Hf in H. now destruct H.
Qed.

Lemma filter_none {A} (f : A -> bool) (l : list A) :
  Forall (fun x => f x = false) l -> filter f l = [].
Proof.
  induction 1 as [|x l Hx _ IH]; [reflexivity|]. now rewrite filter_cons_false.
Qed.


Section Announced.

Context {header hvalue : Type}.
Variable fits_decode_data : string -> res Numpy.ndarray.
Variable fits_decode_header : string -> res header.
Variable header_keys : header -> list string.
Variable header_getitem : header -> string -> hvalue.
Variable py_str : hvalue -> string.
Variable comments_contains : header -> string -> bool.
Variable comments_getitem : header -> string -> string.
Variable XISF_write :
  xisf_args -> gmap Fs.path Fs.node -> res (Z * string) * gmap Fs.path Fs.node.
Variable time_at : nat -> float.
Variable as_completed : list (string * string) -> list (string * string).

Local Abbreviation convert :=
  (convert_fits_to_xisf fits_decode_data fits_decode_header header_keys header_getitem
     py_str comments_contains comments_getitem XISF_write).
Local Abbreviation handle :=
  (handle_future fits_decode_data fits_decode_header header_keys header_getitem
     py_str comments_contains comments_getitem XISF_write time_at).
Local Abbreviation pool :=
  (run_pool fits_decode_data fits_decode_header header_keys header_getitem
     py_str comments_contains comments_getitem XISF_write time_at as_completed).
Local Abbreviation program :=
  (main fits_decode_data fits_decode_header header_keys header_getitem
     py_str comments_contains comments_getitem XISF_write time_at as_completed).


Lemma retire_retire_events (cfg : config) (src : string) (w : world) :
  Forall (fun ev => is_retire_event ev = true) (snd (retire time_at cfg src w)).
Proof.
  rewrite retire_run. cbv zeta. unfold remove_step.
  destruct (_ =? -1); [constructor|].
  destruct (_ =? 0); [destruct (unlink _ _); repeat constructor|].
  destruct (Fs.getmtime _ _).
  - destruct (float_ge_int _ _); [destruct (unlink _ _); repeat constructor|].
    destruct (0 <? _); repeat constructor.
  - destruct (0 <? _); repeat constructor.
Qed.

Lemma convert_writes (cfg : config) (src dst : string) (w : world) :
  Forall (write_as_configured cfg [dst])
         (snd (convert src dst (codec cfg) (shuffle cfg) (level cfg) (creator cfg) w)).
Proof.
  assert (Hw1 : forall d kws, write_as_configured cfg [dst]
            (EvXisfWrite (args_with_metadata dst d kws (codec cfg) (shuffle cfg)
                            (level cfg) (creator cfg)))).
  { intros d kws. cbn. repeat split. now left. }
  assert (Hw2 : forall d, write_as_configured cfg [dst]
            (EvXisfWrite (args_without_metadata dst d (codec cfg) (shuffle cfg)
                            (level cfg) (creator cfg)))).
  { intros d. cbn. repeat split. now left. }
  rewrite convert_run.
  destruct (Fs.stat _ _) as [[c m|m]|]; cbn [snd]; try (repeat constructor).
  destruct (fits_decode_data c) as [d|e]; cbn [snd]; [|repeat constructor].
  destruct (fits_decode_header c) as [h|e]; cbn [snd]; [|repeat constructor].
  unfold write_with_fallback.
  destruct (XISF_write _ (w_fs w)) as [[x|e] fs1]; cbn [snd app].
  - do 2 (constructor; [exact I|]). constructor; [apply Hw1 | constructor].
  - destruct (metadata_shape_rejected e).
    + destruct (XISF_write _ fs1) as [r2 fs2]. cbn [snd app].
      do 2 (constructor; [exact I|]). constructor; [apply Hw1|].
      constructor; [apply Hw2 | constructor].
    + cbn [snd app]. do 2 (constructor; [exact I|]). constructor; [apply Hw1 | constructor].
Qed.

Lemma handle_future_writes (cfg : config) (src dst : string) (w : world) :
  Forall (write_as_configured cfg [dst]) (snd (handle cfg (src, dst) w)).
Proof.
  assert (Hret : forall w1, Forall (write_as_configured cfg [dst])
                              (snd (retire time_at cfg src w1))).
  { intros w1. eapply Forall_impl; [apply retire_retire_events|].
    intros ev Hev. cbv beta in Hev. destruct ev; try exact I. discriminate Hev. }
  rewrite handle_future_run. pose proof (convert_writes cfg src dst w) as Hc.
  destruct (convert _ _ _ _ _ _ w) as [[[[nbytes used_codec]|e] w1] tr1]; cbn [fst snd] in *.
  - apply Forall_app. split; [exact Hc|]. constructor; [exact I | apply Hret].
  - destruct (is_Exception e); cbn [snd]; [|exact Hc].
    apply Forall_app. split; [exact Hc|]. repeat constructor.
Qed.

Lemma write_as_configured_mono (cfg : config) (dsts dsts' : list string) (ev : event) :
  (forall d, In d dsts -> In d dsts') ->
  write_as_configured cfg dsts ev -> write_as_configured cfg dsts' ev.
Proof.
  intros Hsub. destruct ev; try exact (fun H => H).
  cbn. intros (H1 & H2 & H3 & H4 & H5). repeat split; try assumption. now apply Hsub.
Qed.

(** X15.  In a whole run the encoder is called with what the settings
    say and on the destinations of the enumeration only: every call of
    [XISF.write] carries the codec, the shuffle flag, the level and the
    creator of the settings, and writes to the destination of a
    convertible file that [os.walk] reported, so to no path of another
    name. *)
Theorem encoder_called_as_configured (cfg : config) (t : tree) (w : world) :
  (forall l task, In task (as_completed l) -> In task l) ->
  Forall (write_as_configured cfg (map snd (all_tasks cfg (walk (input_dir cfg) t))))
         (snd (program cfg t w)).
Proof.
  intros Hcompleted.
  set (dsts := map snd (all_tasks cfg (walk (input_dir cfg) t))).
  assert (Henum : forall tr, Forall (fun ev => is_enum_event ev = true) tr ->
                             Forall (write_as_configured cfg dsts) tr).
  { intros tr Hall. eapply Forall_impl; [exact Hall|].
    intros ev Hev. cbv beta in Hev. destruct ev; try exact I. discriminate Hev. }
  rewrite main_run.
  destruct (Fs.isdir _ _); [|repeat constructor].
  pose proof (os_makedirs_events time_at (output_dir cfg) w) as Hm.
  destruct (os_makedirs _ _ w) as [[[[]|e] w1] t1]; simpl in Hm; subst t1;
    [|repeat constructor].
  pose proof (enumerate_events time_at cfg t w1) as He.
  destruct (enumerate _ _ _ w1) as [[[fits_tasks|e] w2] t2] eqn:Hrun; cbn [fst snd app] in *.
  2:{ do 2 (constructor; [exact I|]). now apply Henum. }
  pose proof (enumerate_tasks time_at cfg t w1 _ _ _ Hrun) as Hsub.
  do 2 (constructor; [exact I|]). apply Forall_app. split; [now apply Henum|].
  constructor; [exact I|].
  unfold run_pool. destruct (workers cfg <=? 0); [constructor|].
  rewrite bind_run, forM_emit_run. cbn [fst snd].
  apply Forall_app. split.
  { apply Forall_forall. intros ev Hin. apply list_elem_of_In, in_map_iff in Hin.
    destruct Hin as (task & <- & _). exact I. }
  apply (forM_trace (fun tr => Forall (write_as_configured cfg dsts) tr)).
  - constructor.
  - intros a b Ha Hb. apply Forall_app. now split.
  - intros [src dst] w0 Hin. apply Hcompleted in Hin.
    eapply Forall_impl; [apply handle_future_writes|].
    intros ev. apply write_as_configured_mono. intros d [<-|[]].
    unfold dsts. apply in_map_iff. exists (src, dst). split; [reflexivity|].
    eapply sublist_In; eassumption.
Qed.

Section Counted.

Hypothesis data_errors : forall c e, fits_decode_data c = Raise e -> is_Exception e = true.
Hypothesis header_errors : forall c e, fits_decode_header c = Raise e -> is_Exception e = true.
Hypothesis write_errors : forall a fs e, fst (XISF_write a fs) = Raise e -> is_Exception e = true.
Hypothesis as_completed_all : forall l, Permutation (as_completed l) l.



End Counted.

End Announced.

Lemma encoder_called_as_configured_witness :
  Forall (write_as_configured (Toy.cfg 5)
            (map snd (all_tasks (Toy.cfg 5) (walk "in" Toy.tree0))))
         (snd (Toy.main (Toy.cfg 5) Toy.tree0 Toy.world0)).
Proof.
  apply (encoder_called_as_configured
           Toy.decode_data Toy.decode_header Toy.header_keys Toy.header_getitem
           (fun v => v) Toy.comments_contains Toy.comments_getitem Toy.XISF_write
           Toy.time_at Toy.as_completed (Toy.cfg 5) Toy.tree0 Toy.world0).
  intros l task Hin. exact Hin.
Defined.


(** ** The settings that are not given *)

Section Defaults.

Context {header hvalue : Type}.
Variable fits_decode_data : string -> res Numpy.ndarray.
Variable fits_decode_header : string -> res header.
Variable header_keys : header -> list string.
Variable header_getitem : header -> string -> hvalue.
Variable py_str : hvalue -> string.
Variable comments_contains : header -> string -> bool.
Variable comments_getitem : header -> string -> string.
Variable XISF_write :
  xisf_args -> gmap Fs.path Fs.node -> res (Z * string) * gmap Fs.path Fs.node.
Variable time_at : nat -> float.
Variable as_completed : list (string * string) -> list (string * string).
Variable py_int : string -> option Z.
Variable script_name : string.

Local Abbreviation script :=
  (main_script fits_decode_data fits_decode_header header_keys header_getitem
     py_str comments_contains comments_getitem XISF_write time_at as_completed
     py_int script_name).

(** X16.  What the settings leave out reaches the encoder as the
    default: when [codec], [shuffle], [level] and [creator_app] are not
    given, every call of [XISF.write] in the run asks for [zlib], with
    shuffling, at level 6, and names the script as the creator. *)
Theorem defaults_reach_the_encoder (sec : PyDict.t string) (t : tree) (w : world) :
  PyDict.get "codec" sec = None ->
  PyDict.get "shuffle" sec = None ->
  PyDict.get "level" sec = None ->
  PyDict.get "creator_app" sec = None ->
  Forall (write_with_defaults script_name) (snd (script (Some sec) t w)).
Proof.
  intros Hcodec Hshuffle Hlevel Hcreator. rewrite main_script_run.
  unfold sec_getint at 1. rewrite Hlevel.
  destruct (sec_getint py_int sec "workers" 4) as [wk|e2]; [|constructor].
  destruct (sec_getint py_int sec "delete_older_than_days" (-1)) as [dy|e3]; [|constructor].
  destruct (PyDict.get "input_dir" sec) as [i|]; [|constructor].
  destruct (PyDict.get "output_dir" sec) as [o|].
  2:{ destruct (Fs.isdir (w_fs w) i); repeat constructor. }
  unfold sec_get. rewrite Hcodec, Hshuffle, Hcreator.
  apply main_trace.
  - intros ev Hev. destruct ev; try exact I. discriminate Hev.
  - intros src dst. exact I.
  - intros [src dst] w'.
    eapply Forall_impl; [apply handle_future_writes|].
    intros ev Hev. destruct ev; try exact I.
    cbn in Hev. destruct Hev as (H1 & H2 & H3 & H4 & _). cbn. now repeat split.
Qed.

End Defaults.

Lemma defaults_reach_the_encoder_witness :
  Forall (write_with_defaults "fits_to_xisf_batch.py")
    (snd (ToySettings.main_script
            (Some [("input_dir", "in"); ("output_dir", "out")]) Toy.tree0 Toy.world0)).
Proof.
  apply (defaults_reach_the_encoder
           Toy.decode_data Toy.decode_header Toy.header_keys Toy.header_getitem
           (fun v => v) Toy.comments_contains Toy.comments_getitem Toy.XISF_write
           Toy.time_at Toy.as_completed ToySettings.py_int "fits_to_xisf_batch.py");
    reflexivity.
Defined.

(** ** Lines that cannot be printed *)

Lemma forM_count_bounds {A} (f : event -> bool) (lo hi : nat) (body : A -> M unit)
    (l : list A) :
  (forall x w, fst (fst (body x w)) = Ret tt) ->
  (forall x w, (lo <= length (filter f (snd (body x w))) <= hi)%nat) ->
  forall w, (lo * length l <= length (filter f (snd (forM_ body l w))) <= hi * length l)%nat.
Proof.
  intros Hr Hk. induction l as [|x l IH]; intros w; cbn [forM_ length]; [simpl; lia|].
  rewrite bind_run. specialize (Hr x w). specialize (Hk x w).
  destruct (body x w) as [[[[]|e] w1] t1]; cbn [fst snd] in *; [|discriminate].
  rewrite filter_app, length_app. specialize (IH w1). lia.
Qed.


Section Refused.

Context {header hvalue : Type}.
Variable fits_decode_data : string -> res Numpy.ndarray.
Variable fits_decode_header : string -> res header.
Variable header_keys : header -> list string.
Variable header_getitem : header -> string -> hvalue.
Variable py_str : hvalue -> string.
Variable comments_contains : header -> string -> bool.
Variable comments_getitem : header -> string -> string.
Variable XISF_write :
  xisf_args -> gmap Fs.path Fs.node -> res (Z * string) * gmap Fs.path Fs.node.
Variable time_at : nat -> float.
Variable as_completed : list (string * string) -> list (string * string).
Variable stdout_error : message -> option exn.

Local Abbreviation convert :=
  (convert_fits_to_xisf fits_decode_data fits_decode_header header_keys header_getitem
     py_str comments_contains comments_getitem XISF_write).
Local Abbreviation retire := (Stdout.retire time_at stdout_error).
Local Abbreviation handle :=
  (Stdout.handle_future fits_decode_data fits_decode_header header_keys header_getitem
     py_str comments_contains comments_getitem XISF_write time_at stdout_error).
Local Abbreviation pool :=
  (Stdout.run_pool fits_decode_data fits_decode_header header_keys header_getitem
     py_str comments_contains comments_getitem XISF_write time_at as_completed stdout_error).
Local Abbreviation program :=
  (Stdout.main fits_decode_data fits_decode_header header_keys header_getitem
     py_str comments_contains comments_getitem XISF_write time_at as_completed stdout_error).

(** With a standard output that takes every line, this is the program
    of the other sections. *)
Lemma quiet_stdout_main (cfg : config) (t : tree) (w : world) :
  Stdout.main fits_decode_data fits_decode_header header_keys header_getitem
    py_str comments_contains comments_getitem XISF_write time_at as_completed
    (fun _ => None) cfg t w
  = main fits_decode_data fits_decode_header header_keys header_getitem
      py_str comments_contains comments_getitem XISF_write time_at as_completed cfg t w.
Proof. reflexivity. Qed.

Lemma quiet_stdout_handle_future (cfg : config) (task : string * string) (w : world) :
  Stdout.handle_future fits_decode_data fits_decode_header header_keys header_getitem
    py_str comments_contains comments_getitem XISF_write time_at (fun _ => None) cfg task w
  = handle_future fits_decode_data fits_decode_header header_keys header_getitem
      py_str comments_contains comments_getitem XISF_write time_at cfg task w.
Proof. reflexivity. Qed.

(** What the retirement does when lines can fail to print: it raises
    nothing but what a [print] raised, and makes the calls of a
    retirement only. *)
Lemma retire_refused (cfg : config) (src : string) (w : world) :
  Forall (fun ev => is_retire_event ev = true) (snd (retire cfg src w))
  /\ forall e, fst (fst (retire cfg src w)) = Raise e -> exists m, stdout_error m = Some e.
Proof.
  unfold Stdout.retire, Stdout.print, bind, try_except, os_remove, os_path_getmtime,
    time_time, ret.
  cbv zeta.
  destruct (delete_older_than_days cfg =? -1); cbn [negb];
    [split; [constructor | discriminate]|].
  destruct (delete_older_than_days cfg =? 0); cbn [fst snd app].
  - destruct (Fs.remove (w_fs w) src) as [fs'|]; [destruct (bool_decide _)|];
      cbn [fst snd app is_OSError os_error exn_cls exn_str].
    + destruct (stdout_error (MsgDeleteFailed _ _)) as [e1|] eqn:E1; cbn [fst snd app];
        (split; [repeat constructor | intros e He; inversion He; subst; eauto]).
    + destruct (stdout_error (MsgDeleted src)) as [e1|] eqn:E1; cbn [fst snd app].
      * destruct (is_OSError e1); cbn [fst snd app].
        -- destruct (stdout_error (MsgDeleteFailed _ _)) as [e2|] eqn:E2; cbn [fst snd app];
             (split; [repeat constructor | intros e He; inversion He; subst; eauto]).
        -- split; [repeat constructor | intros e He; inversion He; subst; eauto].
      * split; [repeat constructor | discriminate].
    + destruct (stdout_error (MsgDeleteFailed _ _)) as [e1|] eqn:E1; cbn [fst snd app];
        (split; [repeat constructor | intros e He; inversion He; subst; eauto]).
  - destruct (Fs.getmtime (w_fs w) src) as [mtime|]; cbn [fst snd app].
    + destruct (float_ge_int _ _); cbn [fst snd app w_fs w_protected].
      * destruct (Fs.remove (w_fs w) src) as [fs'|]; [destruct (bool_decide _)|];
          cbn [fst snd app is_OSError os_error exn_cls exn_str].
        -- destruct (stdout_error (MsgDeleteFailed _ _)) as [e1|] eqn:E1; cbn [fst snd app];
             (split; [repeat constructor | intros e He; inversion He; subst; eauto]).
        -- destruct (stdout_error (MsgDeleted src)) as [e1|] eqn:E1; cbn [fst snd app].
           ++ destruct (is_OSError e1); cbn [fst snd app].
              ** destruct (stdout_error (MsgDeleteFailed _ _)) as [e2|] eqn:E2;
                   cbn [fst snd app];
                   (split; [repeat constructor | intros e He; inversion He; subst; eauto]).
              ** split; [repeat constructor | intros e He; inversion He; subst; eauto].
           ++ split; [repeat constructor | discriminate].
        -- destruct (stdout_error (MsgDeleteFailed _ _)) as [e1|] eqn:E1; cbn [fst snd app];
             (split; [repeat constructor | intros e He; inversion He; subst; eauto]).
      * destruct (0 <? delete_older_than_days cfg); cbn [fst snd app].
        -- destruct (stdout_error (MsgTooRecent src)) as [e1|] eqn:E1; cbn [fst snd app];
             (split; [repeat constructor | intros e He; inversion He; subst; eauto]).
        -- split; [repeat constructor | discriminate].
    + cbn [is_OSError os_error exn_cls exn_str].
      destruct (stdout_error (MsgAgeCheckFailed _ _)) as [e1|] eqn:E1; cbn [fst snd app].
      * split; [repeat constructor | intros e He; inversion He; subst; eauto].
      * destruct (0 <? delete_older_than_days cfg); cbn [fst snd app].
        -- destruct (stdout_error (MsgTooRecent src)) as [e2|] eqn:E2; cbn [fst snd app];
             (split; [repeat constructor | intros e He; inversion He; subst; eauto]).
        -- split; [repeat constructor | discriminate].
Qed.

Lemma retire_refused_no_outcome (cfg : config) (src : string) (w : world) :
  filter is_outcome (snd (retire cfg src w)) = [].
Proof.
  apply filter_none. eapply Forall_impl; [apply (proj1 (retire_refused cfg src w))|].
  by_event.
Qed.

(** The body of the result loop, by the outcome of the worker. *)
Lemma handle_refused_run (cfg : config) (src dst : string) (w : world) :
  let report (e : exn) (w' : world) (tr : list event) :=
    match stdout_error (MsgFailed src (exn_str e)) with
    | None => (Ret tt, w', (tr ++ [EvPrint (MsgFailed src (exn_str e))])%list)
    | Some e' => (Raise e', w', tr)
    end in
  let caught (e : exn) (w' : world) (tr : list event) :=
    if is_Exception e then report e w' tr else (Raise e, w', tr) in
  handle cfg (src, dst) w =
  match convert src dst (codec cfg) (shuffle cfg) (level cfg) (creator cfg) w with
  | (Ret (nbytes, used_codec), w1, tr1) =>
      match stdout_error (MsgConverted src dst nbytes used_codec) with
      | None =>
          let tr := (tr1 ++ EvPrint (MsgConverted src dst nbytes used_codec)
                         :: snd (retire cfg src w1))%list in
          match fst (fst (retire cfg src w1)) with
          | Ret _ => (Ret tt, snd (fst (retire cfg src w1)), tr)
          | Raise e => caught e (snd (fst (retire cfg src w1))) tr
          end
      | Some e => caught e w1 tr1
      end
  | (Raise e, w1, tr1) => caught e w1 tr1
  end.
Proof.
  cbv zeta. unfold Stdout.handle_future, try_except, bind.
  destruct (convert _ _ _ _ _ _ w) as [[[[nbytes used_codec]|e] w1] tr1].
  - unfold Stdout.print at 1.
    destruct (stdout_error (MsgConverted src dst nbytes used_codec)) as [e1|].
    + rewrite ?app_nil_r. destruct (is_Exception e1); [|reflexivity].
      unfold Stdout.print.
      destruct (stdout_error (MsgFailed _ _)); rewrite ?app_nil_r; reflexivity.
    + destruct (retire cfg src w1) as [[[[]|e2] w2] tr2]; cbn [fst snd app]; [reflexivity|].
      destruct (is_Exception e2); [|reflexivity].
      unfold Stdout.print.
      destruct (stdout_error (MsgFailed _ _)); rewrite ?app_nil_r; reflexivity.
  - destruct (is_Exception e); [|reflexivity].
    unfold Stdout.print.
    destruct (stdout_error (MsgFailed _ _)); rewrite ?app_nil_r; reflexivity.
Qed.

Lemma enumerate_file_refused (cfg : config) (root dest_root : string)
    (acc : list (string * string)) (fn : string) (w : world) :
  Forall (fun ev => is_enum_event ev = true)
         (snd (Stdout.enumerate_file stdout_error cfg root dest_root acc fn w))
  /\ forall e,
       fst (fst (Stdout.enumerate_file stdout_error cfg root dest_root acc fn w)) = Raise e ->
       exn_cls e = OSError \/ exists m, stdout_error m = Some e.
Proof.
  unfold Stdout.enumerate_file, Stdout.print, bind, os_path_exists, shutil_copy2, ret.
  cbv zeta. destruct (is_fits fn).
  - destruct (Fs.exists_ _ _ && skip_existing cfg); cbn [fst snd app].
    + destruct (stdout_error (MsgSkipping _)) as [e1|] eqn:E1; cbn [fst snd app];
        (split; [repeat constructor | intros e He; inversion He; subst; eauto]).
    + split; [repeat constructor | discriminate].
  - destruct (Fs.copy2 _ _ _); cbn [fst snd app];
      (split; [repeat constructor | intros e He; inversion He; subst; now left]).
Qed.

Lemma enumerate_refused (cfg : config) (t : tree) (w : world) :
  Forall (fun ev => is_enum_event ev = true)
         (snd (Stdout.enumerate time_at stdout_error cfg t w))
  /\ forall e,
       fst (fst (Stdout.enumerate time_at stdout_error cfg t w)) = Raise e ->
       exn_cls e = OSError \/ exists m, stdout_error m = Some e.
Proof.
  assert (Happ : forall t1 t2 : list event,
             Forall (fun ev => is_enum_event ev = true) t1 ->
             Forall (fun ev => is_enum_event ev = true) t2 ->
             Forall (fun ev => is_enum_event ev = true) (t1 ++ t2)).
  { intros t1 t2 H1 H2. apply Forall_app. now split. }
  unfold Stdout.enumerate. split.
  - apply (foldM_trace (fun tr => Forall (fun ev => is_enum_event ev = true) tr));
      [constructor | exact Happ|].
    intros acc [[root dirs] files] w0 _. unfold Stdout.enumerate_dir. rewrite bind_run.
    pose proof (os_makedirs_events time_at
                  (PyStr.join (output_dir cfg) (Fs.relpath root (input_dir cfg))) w0) as Hm.
    destruct (os_makedirs _ _ w0) as [[[[]|e] w1] t1]; cbn [fst snd] in *; subst t1;
      [|repeat constructor].
    apply (Happ [_]); [repeat constructor|].
    apply (foldM_trace (fun tr => Forall (fun ev => is_enum_event ev = true) tr));
      [constructor | exact Happ|].
    intros acc1 fn w2 _. apply enumerate_file_refused.
  - apply (foldM_raises _ (fun e => exn_cls e = OSError \/ exists m, stdout_error m = Some e)).
    intros acc [[root dirs] files] w0 e0. unfold Stdout.enumerate_dir. rewrite bind_run.
    pose proof (os_makedirs_raises time_at
                  (PyStr.join (output_dir cfg) (Fs.relpath root (input_dir cfg))) w0) as Hm.
    destruct (os_makedirs _ _ w0) as [[[[]|e1] w1] t1]; cbn [fst snd] in *.
    + apply (foldM_raises _ (fun e => exn_cls e = OSError
                                      \/ exists m, stdout_error m = Some e)).
      intros acc1 fn w2 e2. apply enumerate_file_refused.
    + intros H. inversion H; subst. left. now apply Hm.
Qed.

(** A run, step by step. *)
Lemma main_refused_run (cfg : config) (t : tree) (w : world) :
  program cfg t w =
  if Fs.isdir (w_fs w) (input_dir cfg) then
    match os_makedirs time_at (output_dir cfg) w with
    | (Ret _, w1, t1) =>
        match Stdout.enumerate time_at stdout_error cfg t w1 with
        | (Ret fits_tasks, w2, t2) =>
            match stdout_error (MsgConverting (length fits_tasks) (workers cfg)) with
            | None =>
                (fst (fst (pool cfg fits_tasks w2)), snd (fst (pool cfg fits_tasks w2)),
                 EvIsdir (input_dir cfg)
                   :: t1 ++ t2 ++ EvPrint (MsgConverting (length fits_tasks) (workers cfg))
                   :: snd (pool cfg fits_tasks w2))
            | Some e => (Raise e, w2, EvIsdir (input_dir cfg) :: t1 ++ t2)
            end
        | (Raise e, w2, t2) => (Raise e, w2, EvIsdir (input_dir cfg) :: t1 ++ t2)
        end
    | (Raise e, w1, t1) => (Raise e, w1, EvIsdir (input_dir cfg) :: t1)
    end
  else
    match stdout_error (MsgNotAFolder (input_dir cfg)) with
    | None => (Raise (Exn SystemExit "1"), w,
               [EvIsdir (input_dir cfg); EvPrint (MsgNotAFolder (input_dir cfg))])
    | Some e => (Raise e, w, [EvIsdir (input_dir cfg)])
    end%list.
Proof.
  unfold Stdout.main, bind, os_path_isdir, Stdout.print, raise.
  destruct (Fs.isdir (w_fs w) (input_dir cfg)); cbn [negb].
  - destruct (os_makedirs _ _ w) as [[[[]|e] w1] t1]; [|reflexivity].
    destruct (Stdout.enumerate _ _ _ _ w1) as [[[fits_tasks|e] w2] t2]; [|reflexivity].
    destruct (stdout_error (MsgConverting _ _)).
    + cbn [app]. now rewrite app_nil_r.
    + now destruct (pool cfg fits_tasks w2) as [[r w3] t3].
  - now destruct (stdout_error (MsgNotAFolder _)).
Qed.



Section Printable.

(** The decoder and the encoder fail with exceptions, not with a
    [SystemExit] or a [KeyboardInterrupt]; so does a [print] that fails;
    and the line that reports a failed task can be printed. *)
Hypothesis data_errors : forall c e, fits_decode_data c = Raise e -> is_Exception e = true.
Hypothesis header_errors : forall c e, fits_decode_header c = Raise e -> is_Exception e = true.
Hypothesis write_errors : forall a fs e, fst (XISF_write a fs) = Raise e -> is_Exception e = true.
Hypothesis print_errors : forall m e, stdout_error m = Some e -> is_Exception e = true.
Hypothesis failure_printed : forall src err, stdout_error (MsgFailed src err) = None.

Lemma handle_refused_returns (cfg : config) (task : string * string) (w : world) :
  fst (fst (handle cfg task w)) = Ret tt
  /\ (1 <= length (filter is_outcome (snd (handle cfg task w))) <= 2)%nat.
Proof.
  destruct task as [src dst]. rewrite handle_refused_run. cbv zeta.
  pose proof (convert_raises_Exception fits_decode_data fits_decode_header header_keys
                header_getitem py_str comments_contains comments_getitem XISF_write
                data_errors header_errors write_errors
                src dst (codec cfg) (shuffle cfg) (level cfg) (creator cfg) w) as He.
  pose proof (convert_no_outcome fits_decode_data fits_decode_header header_keys
                header_getitem py_str comments_contains comments_getitem XISF_write
                src dst (codec cfg) (shuffle cfg) (level cfg) (creator cfg) w) as Hno.
  destruct (convert _ _ _ _ _ _ w) as [[[[nbytes used_codec]|e] w1] tr1]; cbn [fst snd] in *.
  - destruct (stdout_error (MsgConverted src dst nbytes used_codec)) as [e1|] eqn:E1.
    + rewrite (print_errors _ _ E1), failure_printed. cbn [fst snd].
      split; [reflexivity|].
      rewrite filter_app, length_app, Hno, filter_cons_true by reflexivity.
      simpl. lia.
    + pose proof (retire_refused cfg src w1) as [_ Hraise].
      pose proof (retire_refused_no_outcome cfg src w1) as Hnr.
      destruct (retire cfg src w1) as [[[[]|e2] w2] tr2]; cbn [fst snd] in *.
      * split; [reflexivity|].
        rewrite filter_app, length_app, Hno, filter_cons_true, Hnr by reflexivity.
        simpl. lia.
      * destruct (Hraise e2 eq_refl) as [m Hm].
        rewrite (print_errors _ _ Hm), failure_printed. cbn [fst snd].
        split; [reflexivity|].
        rewrite <- List.app_assoc, filter_app, length_app, Hno. cbn [app].
        rewrite filter_cons_true by reflexivity.
        rewrite filter_app, Hnr, filter_cons_true by reflexivity.
        simpl. lia.
  - rewrite (He e eq_refl), failure_printed. cbn [fst snd].
    split; [reflexivity|].
    rewrite filter_app, length_app, Hno, filter_cons_true by reflexivity.
    simpl. lia.
Qed.

Lemma run_pool_refused_returns (cfg : config) (fits_tasks : list (string * string))
    (w : world) :
  0 < workers cfg ->
  fst (fst (pool cfg fits_tasks w)) = Ret tt
  /\ (length (as_completed fits_tasks)
      <= length (filter is_outcome (snd (pool cfg fits_tasks w)))
      <= 2 * length (as_completed fits_tasks))%nat.
Proof.
  intros Hw. unfold Stdout.run_pool.
  destruct (Z.leb_spec (workers cfg) 0) as [|_]; [lia|].
  rewrite bind_run, forM_emit_run. cbn [fst snd].
  split.
  - apply forM_returns. intros task w0. apply handle_refused_returns.
  - rewrite filter_app, length_app.
    rewrite (filter_none is_outcome (map _ fits_tasks)).
    2:{ apply Forall_forall. intros ev Hin. apply list_elem_of_In, in_map_iff in Hin.
        now destruct Hin as (task & <- & _). }
    pose proof (forM_count_bounds is_outcome 1 2 (handle cfg) (as_completed fits_tasks)
                  (fun task w0 => proj1 (handle_refused_returns cfg task w0))
                  (fun task w0 => proj2 (handle_refused_returns cfg task w0)) w) as Hb.
    cbn [length Nat.add]. lia.
Qed.

(** X4.  When the decoder, the encoder and a failing [print] raise
    [Exception]s only, and the line that reports a failed task can be
    printed, a run that ends with an exception has converted nothing and
    retired nothing: no task was submitted, no worker called the decoder
    or the encoder, no outcome was printed and [os.remove] was not
    called.  It ends with [SystemExit] exactly when [input_dir] is not a
    directory and the line that says so was printed; where [input_dir]
    is not a directory the run changes nothing and makes no directory.
    Otherwise an [OSError] of the enumeration, a line that could not be
    printed, or the refusal of a pool of no workers ended it. *)
Theorem failed_run_converts_nothing (cfg : config) (t : tree) (w : world) (e : exn) :
  fst (fst (program cfg t w)) = Raise e ->
  Forall (fun ev => is_result_event ev = false) (snd (program cfg t w))
  /\ (exn_cls e = SystemExit
      <-> Fs.isdir (w_fs w) (input_dir cfg) = false
          /\ stdout_error (MsgNotAFolder (input_dir cfg)) = None)
  /\ (Fs.isdir (w_fs w) (input_dir cfg) = false ->
      snd (fst (program cfg t w)) = w
      /\ Forall (fun ev => ev = EvIsdir (input_dir cfg)
                           \/ ev = EvPrint (MsgNotAFolder (input_dir cfg)))
                (snd (program cfg t w)))
  /\ (Fs.isdir (w_fs w) (input_dir cfg) = true ->
      exn_cls e = OSError \/ workers cfg <= 0 \/ exists m, stdout_error m = Some e).
Proof.
  assert (Henum : forall tr, Forall (fun ev => is_enum_event ev = true) tr ->
                             Forall (fun ev => is_result_event ev = false) tr).
  { intros tr Hall. eapply Forall_impl; [exact Hall|].
    intros ev Hev. now apply enum_event_not_result. }
  assert (Hprint : forall m e0, stdout_error m = Some e0 -> exn_cls e0 <> SystemExit).
  { intros m e0 Hm Hcls. apply print_errors in Hm. unfold is_Exception in Hm.
    now rewrite Hcls in Hm. }
  rewrite main_refused_run.
  destruct (Fs.isdir (w_fs w) (input_dir cfg)).
  2:{ destruct (stdout_error (MsgNotAFolder (input_dir cfg))) as [e1|] eqn:E1;
        intros H; inversion H; subst e; cbn [fst snd exn_cls].
      - split; [repeat constructor|]. split.
        + split; [intros Hc; now destruct (Hprint _ _ E1) | intros [_ Hn]; discriminate Hn].
        + split; [|discriminate]. intros _. split; [reflexivity|].
          constructor; [now left | constructor].
      - split; [repeat constructor|]. split; [tauto|].
        split; [|discriminate]. intros _. split; [reflexivity|].
        constructor; [now left|]. constructor; [now right | constructor]. }
  pose proof (os_makedirs_events time_at (output_dir cfg) w) as Hm.
  pose proof (os_makedirs_raises time_at (output_dir cfg) w) as Hmr.
  destruct (os_makedirs _ _ w) as [[[[]|e1] w1] t1]; simpl in Hm; subst t1.
  - pose proof (enumerate_refused cfg t w1) as [He Her].
    destruct (Stdout.enumerate _ _ _ _ w1) as [[[fits_tasks|e2] w2] t2];
      cbn [fst snd app] in *.
    + destruct (stdout_error (MsgConverting _ _)) as [e3|] eqn:E3; cbn [fst snd].
      * intros H; inversion H; subst e3.
        split; [constructor; [reflexivity|]; constructor; [reflexivity|]; now apply Henum|].
        split; [split; [intros Hc; now destruct (Hprint _ _ E3) | intros [Hn _];
                        discriminate Hn]|].
        split; [discriminate|]. intros _. right. right. eauto.
      * intros Hp.
        destruct (Z.leb_spec (workers cfg) 0) as [Hw|Hw].
        -- unfold Stdout.run_pool in *.
           destruct (Z.leb_spec (workers cfg) 0) as [_|]; [|lia].
           cbn [raise fst snd] in *. inversion Hp; subst e. cbn [exn_cls].
           split.
           { constructor; [reflexivity|]. constructor; [reflexivity|].
             apply Forall_app. split; [now apply Henum | repeat constructor]. }
           split; [split; [discriminate | intros [Hn _]; discriminate Hn]|].
           split; [discriminate|]. intros _. right. now left.
        -- rewrite (proj1 (run_pool_refused_returns cfg fits_tasks w2 Hw)) in Hp.
           discriminate Hp.
    + intros H; inversion H; subst e2.
      split; [constructor; [reflexivity|]; constructor; [reflexivity|]; now apply Henum|].
      destruct (Her e eq_refl) as [Hos|[m Hm]].
      * rewrite Hos. split; [split; [discriminate | intros [Hn _]; discriminate Hn]|].
        split; [discriminate|]. intros _. now left.
      * split; [split; [intros Hc; now destruct (Hprint _ _ Hm) | intros [Hn _];
                        discriminate Hn]|].
        split; [discriminate|]. intros _. right. right. eauto.
  - cbn [fst snd app]. intros H; inversion H; subst e1. rewrite (Hmr e eq_refl).
    split; [repeat constructor|].
    split; [split; [discriminate | intros [Hn _]; discriminate Hn]|].
    split; [discriminate|]. intros _. now left.
Qed.

End Printable.


End Refused.

(** ** The toy environment under a standard output of few characters *)

Lemma toy_bmp_print_errors (m : message) (e : exn) :
  Toy.stdout_bmp m = Some e -> is_Exception e = true.
Proof. destruct m; intros H; inversion H; reflexivity. Qed.

Lemma toy_bmp_failure_printed (src err : string) :
  Toy.stdout_bmp (MsgFailed src err) = None.
Proof. reflexivity. Qed.



Lemma failed_run_converts_nothing_witness :
  (let run := Toy.main_with Toy.XISF_write Toy.stdout_bmp (Toy.cfg 0) Toy.tree0
                Toy.world_empty in
   fst (fst run) = Raise (Exn SystemExit "1")
   /\ Forall (fun ev => is_result_event ev = false) (snd run)
   /\ snd (fst run) = Toy.world_empty)
  /\ (let run := Toy.main_with Toy.XISF_write Toy.stdout_bmp Toy.cfg_no_workers Toy.tree0
                   Toy.world0 in
      fst (fst run) = Raise (Exn OtherException "max_workers must be greater than 0")
      /\ Forall (fun ev => is_result_event ev = false) (snd run)).
Proof.
  assert (Hexit : fst (fst (Toy.main_with Toy.XISF_write Toy.stdout_bmp (Toy.cfg 0) Toy.tree0
                              Toy.world_empty))
                  = Raise (Exn SystemExit "1")) by (vm_compute; reflexivity).
  assert (Hpool : fst (fst (Toy.main_with Toy.XISF_write Toy.stdout_bmp Toy.cfg_no_workers
                              Toy.tree0 Toy.world0))
                  = Raise (Exn OtherException "max_workers must be greater than 0"))
    by (vm_compute; reflexivity).
  split.
  - destruct (failed_run_converts_nothing
                Toy.decode_data Toy.decode_header Toy.header_keys Toy.header_getitem
                (fun v => v) Toy.comments_contains Toy.comments_getitem Toy.XISF_write
                Toy.time_at Toy.as_completed Toy.stdout_bmp
                toy_data_errors toy_header_errors toy_write_errors
                toy_bmp_print_errors toy_bmp_failure_printed
                (Toy.cfg 0) Toy.tree0 Toy.world_empty (Exn SystemExit "1") Hexit)
      as (Hnone & _ & Hsame & _).
    split; [exact Hexit|]. split; [exact Hnone|]. exact (proj1 (Hsame eq_refl)).
  - destruct (failed_run_converts_nothing
                Toy.decode_data Toy.decode_header Toy.header_keys Toy.header_getitem
                (fun v => v) Toy.comments_contains Toy.comments_getitem Toy.XISF_write
                Toy.time_at Toy.as_completed Toy.stdout_bmp
                toy_data_errors toy_header_errors toy_write_errors
                toy_bmp_print_errors toy_bmp_failure_printed
                Toy.cfg_no_workers Toy.tree0 Toy.world0
                (Exn OtherException "max_workers must be greater than 0") Hpool)
      as (Hnone & _).
    split; [exact Hpool | exact Hnone].
Defined.


